(** * Rose Glass coherence engine: lens interpretation, text extraction,
      athletic dimension scoring and systemic flags

    Shallow embedding of the scoring core of the repository
    ([team_coherence/lenses], [team_coherence/analyzers],
    [athletic_coherence/core]) and the properties the specification states
    about it.

    Numbers.  Python floats are read as real numbers: rounding, NaN and
    infinities are outside this development.  [statistics.stdev] and
    [statistics.mean] work on exact fractions, so for them the reading is
    exact up to the final square root.  With the infinities goes the
    [OverflowError] of [q_raw ** 2], which Python raises for |q_raw| above
    about 1.3e154: a statement that a call returns is to be read for inputs
    within that range.

    Exceptions.  A Python [/] whose divisor is not a literal raises
    [ZeroDivisionError] at zero; [min]/[max] of an empty list raise
    [ValueError]; [statistics.mean] of an empty list and [statistics.stdev]
    of fewer than two points raise [StatisticsError].  Code that can raise is
    written in the [result] monad below. *)

From Stdlib Require Import Reals Lra Lia List String Ascii Bool Arith DecimalString.
From Stdlib Require Import Permutation Sorted.
Import ListNotations.

Open Scope string_scope.
Open Scope list_scope.
Open Scope R_scope.

(** ** Exceptions *)

Inductive PyError : Type :=
| ZeroDivisionError
| ValueError
| StatisticsError.

Inductive result (A : Type) : Type :=
| Ok (a : A)
| Raise (e : PyError).

Arguments Ok {A} a.
Arguments Raise {A} e.

Definition bind {A B : Type} (m : result A) (k : A -> result B) : result B :=
  match m with
  | Ok a => k a
  | Raise e => Raise e
  end.

Definition rmap {A B : Type} (g : A -> B) (m : result A) : result B :=
  bind m (fun a => Ok (g a)).

Notation "x <- m ;; k" := (bind m (fun x => k))
  (at level 61, m at next level, right associativity).

(** Python's true division. *)
Definition pdiv (x y : R) : result R :=
  if Req_dec_T y 0 then Raise ZeroDivisionError else Ok (x / y).

(** Comparisons of floats, as booleans. *)
Definition Rltb (x y : R) : bool := if Rlt_dec x y then true else false.
Definition Rleb (x y : R) : bool := if Rle_dec x y then true else false.

(** ** Insertion-ordered dictionaries with string keys *)

Definition dict (V : Type) : Type := list (string * V).

Fixpoint dict_get {V : Type} (d : dict V) (k : string) : option V :=
  match d with
  | [] => None
  | (k', v) :: d' => if String.eqb k' k then Some v else dict_get d' k
  end.

(** [d[k] = v]: an existing key keeps its place. *)
Fixpoint dict_set {V : Type} (d : dict V) (k : string) (v : V) : dict V :=
  match d with
  | [] => [(k, v)]
  | (k', v') :: d' =>
      if String.eqb k' k then (k', v) :: d' else (k', v') :: dict_set d' k v
  end.

Definition keys {V : Type} (d : dict V) : list string := map fst d.
Definition values {V : Type} (d : dict V) : list V := map snd d.

(** [d.get(k, dflt)]. *)
Definition dict_get_default {V : Type} (d : dict V) (k : string) (dflt : V) : V :=
  match dict_get d k with
  | Some v => v
  | None => dflt
  end.

(** [if k not in d: d[k] = []] followed by [d[k].append(x)]. *)
Definition dict_append {V : Type} (d : dict (list V)) (k : string) (x : V)
  : dict (list V) :=
  let d' :=
    match dict_get d k with
    | None => dict_set d k []
    | Some _ => d
    end in
  dict_set d' k (dict_get_default d' k [] ++ [x]).

(** The grouping loop
    [for x in l: k = key(x); if k not in d: d[k] = []; d[k].append(x)]. *)
Definition group_by {A : Type} (key : A -> string) (l : list A) : dict (list A) :=
  fold_left (fun d x => dict_append d (key x) x) l [].

(** The elements of [l] under the key [k]. *)
Definition under_key {A : Type} (key : A -> string) (k : string) (l : list A)
  : list A :=
  filter (fun x => String.eqb (key x) k) l.

(** The keys after [d[n] = ...]: a new key goes last. *)
Definition add_key (ks : list string) (n : string) : list string :=
  if in_dec string_dec n ks then ks else ks ++ [n].

(** [for c in l: counts[c] = counts.get(c, 0) + 1]. *)
Definition tally (l : list string) : dict nat :=
  fold_left (fun d c => dict_set d c (dict_get_default d c 0 + 1)%nat) l [].

(** ** Sorting and enumerating *)

(** [sorted(l, key=key)]: Python's sort is stable, and a stable sort has one
    possible result, the one insertion in input order gives. *)
Fixpoint insert_by_key {A : Type} (key : A -> nat) (x : A) (l : list A) : list A :=
  match l with
  | [] => [x]
  | y :: l' =>
      if (key x <? key y)%nat then x :: y :: l'
      else y :: insert_by_key key x l'
  end.

Definition sorted_by_key {A : Type} (key : A -> nat) (l : list A) : list A :=
  fold_left (fun acc x => insert_by_key key x acc) l [].

(** The order [sorted] puts the elements in. *)
Definition key_le {A : Type} (key : A -> nat) (x y : A) : Prop :=
  (key x <= key y)%nat.

(** [enumerate(l)]. *)
Definition enumerate {A : Type} (l : list A) : list (nat * A) :=
  combine (seq 0 (List.length l)) l.

(** [[g(x) for x in l]] for a [g] that may raise. *)
Fixpoint map_result {A B : Type} (g : A -> result B) (l : list A) : result (list B) :=
  match l with
  | [] => Ok []
  | x :: l' => y <- g x ;; ys <- map_result g l' ;; Ok (y :: ys)
  end.

(** ** Arithmetic on lists of numbers *)

Definition rsum (l : list R) : R := fold_right Rplus 0 l.

Definition len {A : Type} (l : list A) : R := INR (List.length l).

(** [min(l)] and [max(l)]. *)
Definition py_min (l : list R) : result R :=
  match l with
  | [] => Raise ValueError
  | x :: tl => Ok (fold_left Rmin tl x)
  end.

Definition py_max (l : list R) : result R :=
  match l with
  | [] => Raise ValueError
  | x :: tl => Ok (fold_left Rmax tl x)
  end.

(** [statistics.mean]. *)
Definition mean (l : list R) : result R :=
  match l with
  | [] => Raise StatisticsError
  | _ => Ok (rsum l / len l)
  end.

(** Sum of squared deviations from [c]. *)
Definition sum_sq (c : R) (l : list R) : R :=
  rsum (map (fun x => (x - c) * (x - c)) l).

(** Sum of squares. *)
Definition sumsq (l : list R) : R := rsum (map (fun x => x * x) l).

(** The sample variance of two or more points. *)
Definition sample_variance (l : list R) : R :=
  sum_sq (rsum l / len l) l / (len l - 1).

(** [statistics.stdev]: the square root of the sample variance. *)
Definition stdev (l : list R) : result R :=
  match l with
  | [] | [_] => Raise StatisticsError
  | _ => Ok (sqrt (sample_variance l))
  end.

(** ** Cultural lenses ([team_coherence/lenses]) *)

Module Lenses.

Record LensParameters : Type := {
  psi_weight : R;
  rho_weight : R;
  q_weight : R;
  f_weight : R;
  tau_weight : R;
  q_baseline : R;
  f_baseline : R;
  psi_tolerance : R;
  verbal_expression : R;
  direct_communication : R;
  collective_orientation : R;
  km : R;
  ki : R
}.

(** A piece of an f-string: literal text or a float printed with [:.2f]. *)
Inductive fragment : Type :=
| Lit (s : string)
| Fmt2 (x : R).

Definition note : Type := list fragment.

Record LensInterpretation : Type := {
  lens_name : string;
  coherence : R;
  confidence : R;
  notes : list note;
  concerns : list string;
  strengths : list string
}.

Record CulturalLens : Type := {
  name : string;
  params : LensParameters;
  description : string
}.

Definition _optimize_q (p : LensParameters) (q_raw : R) : result R :=
  if Rleb q_raw 0 then Ok 0
  else
    sq <- pdiv (q_raw * q_raw) (ki p) ;;
    pdiv q_raw (km p + q_raw + sq).

Definition total_weight (p : LensParameters) : R :=
  psi_weight p + rho_weight p + q_weight p + f_weight p + tau_weight p.

(** The three lists [interpret] appends to. *)
Record advisory : Type := {
  adv_notes : list note;
  adv_concerns : list string;
  adv_strengths : list string
}.

Definition add_note (n : note) (a : advisory) : advisory :=
  {| adv_notes := adv_notes a ++ [n];
     adv_concerns := adv_concerns a;
     adv_strengths := adv_strengths a |}.

Definition add_concern (c : string) (a : advisory) : advisory :=
  {| adv_notes := adv_notes a;
     adv_concerns := adv_concerns a ++ [c];
     adv_strengths := adv_strengths a |}.

Definition add_strength (s : string) (a : advisory) : advisory :=
  {| adv_notes := adv_notes a;
     adv_concerns := adv_concerns a;
     adv_strengths := adv_strengths a ++ [s] |}.

Section Interpret.
Variable p : LensParameters.
Variables psi rho q f tau : R.

Definition q_advice (a : advisory) : advisory :=
  let q_diff := q - q_baseline p in
  if Rltb 0.2 (Rabs q_diff) then
    if Rltb 0 q_diff && Rltb (verbal_expression p) 0.4 then
      add_concern "Elevated activation in typically reserved communicator"
        (add_note
           [Lit "High q ("; Fmt2 q;
            Lit ") in action-oriented culture may indicate significant distress despite reserved expression style"]
           a)
    else if Rltb q_diff 0 && Rltb 0.6 (verbal_expression p) then
      add_concern "Unusual suppression in typically expressive communicator"
        (add_note
           [Lit "Low q ("; Fmt2 q;
            Lit ") in verbally expressive culture may indicate suppression rather than calm"]
           a)
    else if Rltb 0 q_diff then
      add_note
        [Lit "q-activation elevated ("; Fmt2 q; Lit ") - within cultural range"] a
    else a
  else a.

Definition f_advice (a : advisory) : advisory :=
  if Rltb f 0.4 then
    if Rltb 0.6 (collective_orientation p) then
      add_note
        [Lit "This lens expects higher social engagement - low f may signal isolation"]
        (add_concern "Low social expression in collective-oriented individual" a)
    else if Rltb (collective_orientation p) 0.4 then
      add_note [Lit "Low f is within normal range for individual-oriented lens"] a
    else a
  else if Rltb 0.7 f then add_strength "Strong social connection patterns" a
  else a.

Definition psi_advice (a : advisory) : advisory :=
  if Rltb psi 0.5 then
    if Rltb 0.4 (psi_tolerance p) then
      add_note
        [Lit "Narrative inconsistency within acceptable range for this lens"] a
    else add_concern "Low consistency in consistency-valuing culture" a
  else if Rltb 0.8 psi then add_strength "Strong narrative consistency" a
  else a.

Definition tau_advice (a : advisory) : advisory :=
  if Rltb tau 0.4 then
    add_concern "Limited temporal integration"
      (add_note
         [Lit "Present-focused temporal orientation - may be crisis mode"] a)
  else if Rltb 0.7 tau then add_strength "Good integration of past experience" a
  else a.

Definition fit_score : R :=
  1.0 - (Rabs (q - q_baseline p) * 0.3
         + Rabs (f - 0.5 - (collective_orientation p - 0.5) * 0.4) * 0.3).
End Interpret.

Definition interpret (lens : CulturalLens) (psi rho q f tau : R)
  : result LensInterpretation :=
  let p := params lens in
  q_opt <- _optimize_q p q ;;
  let weighted_sum :=
    psi * psi_weight p + rho * rho_weight p + q_opt * q_weight p
    + f * f_weight p + tau * tau_weight p in
  coh <- pdiv weighted_sum (total_weight p) ;;
  let a :=
    tau_advice tau
      (psi_advice p psi
         (f_advice p f
            (q_advice p q
               {| adv_notes := []; adv_concerns := []; adv_strengths := [] |}))) in
  Ok {| lens_name := name lens;
        coherence := coh;
        confidence := Rmax 0.5 (Rmin 1.0 (fit_score p q f));
        notes := adv_notes a;
        concerns := adv_concerns a;
        strengths := adv_strengths a |}.

(** *** The lens library *)

Definition LensLibrary : Type := dict CulturalLens.

Definition mk_lens (n d : string)
  (wpsi wrho wq wf wtau qb fb tol ve dc co k_m k_i : R) : CulturalLens :=
  {| name := n;
     description := d;
     params := {| psi_weight := wpsi; rho_weight := wrho; q_weight := wq;
                  f_weight := wf; tau_weight := wtau;
                  q_baseline := qb; f_baseline := fb; psi_tolerance := tol;
                  verbal_expression := ve; direct_communication := dc;
                  collective_orientation := co; km := k_m; ki := k_i |} |}.

Definition combat_veteran : CulturalLens :=
  mk_lens "combat_veteran" "Calibration for those with combat experience"
    1.2 1.0 0.8 1.3 1.0 0.35 0.7 0.2 0.3 0.8 0.8 0.25 1.5.

Definition first_generation : CulturalLens :=
  mk_lens "first_generation" "Calibration for first-generation Americans/immigrants"
    0.9 1.2 1.1 1.0 1.1 0.55 0.6 0.4 0.6 0.4 0.7 0.3 2.0.

Definition neurodivergent : CulturalLens :=
  mk_lens "neurodivergent" "Calibration for neurodivergent communication styles"
    1.3 1.0 0.7 0.8 1.0 0.4 0.4 0.1 0.5 0.9 0.4 0.35 2.5.

Definition rural_traditional : CulturalLens :=
  mk_lens "rural_traditional" "Calibration for rural/traditional backgrounds"
    1.0 1.2 0.7 1.0 1.1 0.35 0.5 0.3 0.3 0.6 0.6 0.3 2.0.

Definition urban_contemporary : CulturalLens :=
  mk_lens "urban_contemporary" "Calibration for urban/contemporary expression"
    0.9 0.9 1.2 1.1 0.9 0.55 0.6 0.4 0.8 0.5 0.5 0.3 2.0.

Definition religious_framework : CulturalLens :=
  mk_lens "religious_framework" "Calibration for faith-based meaning-making"
    1.1 1.3 1.0 1.2 1.2 0.5 0.7 0.3 0.6 0.5 0.8 0.3 2.0.

Definition female_service : CulturalLens :=
  mk_lens "female_service" "Calibration accounting for female experience in military"
    1.0 1.0 1.0 1.1 1.0 0.5 0.5 0.3 0.6 0.7 0.6 0.3 2.0.

(** [LensLibrary._init_default_lenses]. *)
Definition default_lenses : LensLibrary :=
  [ ("combat_veteran", combat_veteran);
    ("first_generation", first_generation);
    ("neurodivergent", neurodivergent);
    ("rural_traditional", rural_traditional);
    ("urban_contemporary", urban_contemporary);
    ("religious_framework", religious_framework);
    ("female_service", female_service) ].

Definition get_lens (lib : LensLibrary) (n : string) : option CulturalLens :=
  dict_get lib n.

Definition list_lenses (lib : LensLibrary) : list string := keys lib.

(** *** Deviation across lenses *)

Record Analysis : Type := {
  deviation : R;
  is_lens_invariant : bool;
  interpretations : dict LensInterpretation;
  coherence_range : R * R;
  coherence_mean : R;
  universal_concerns : list string;
  translation_needed : bool
}.

(** The loop over the requested lens names: a name the library does not know
    is skipped; a name given twice overwrites its interpretation and adds its
    coherence a second time. *)
Fixpoint interpret_lenses (lib : LensLibrary) (psi rho q f tau : R)
  (lenses : list string) (interps : dict LensInterpretation) (cohs : list R)
  : result (dict LensInterpretation * list R) :=
  match lenses with
  | [] => Ok (interps, cohs)
  | lens_name :: rest =>
      match get_lens lib lens_name with
      | Some lens =>
          interp <- interpret lens psi rho q f tau ;;
          interpret_lenses lib psi rho q f tau rest
            (dict_set interps lens_name interp) (cohs ++ [coherence interp])
      | None => interpret_lenses lib psi rho q f tau rest interps cohs
      end
  end.

(** [concern_counts[c] = concern_counts.get(c, 0) + 1] over all concerns. *)
Definition count_concerns (all_concerns : list string) : dict nat :=
  fold_left
    (fun d c => dict_set d c (match dict_get d c with Some n => n | None => 0%nat end + 1)%nat)
    all_concerns [].

Definition calculate_deviation (lib : LensLibrary) (psi rho q f tau : R)
  (lenses : option (list string)) : result (R * Analysis) :=
  let lenses := match lenses with None => list_lenses lib | Some l => l end in
  ic <- interpret_lenses lib psi rho q f tau lenses [] [] ;;
  let interps := fst ic in
  let coherences := snd ic in
  dev <- (if (List.length coherences <? 2)%nat then Ok 0.0 else stdev coherences) ;;
  let is_invariant := Rltb dev 0.1 in
  let all_concerns := flat_map concerns (values interps) in
  let concern_counts := count_concerns all_concerns in
  let threshold := len lenses / 2 in
  let universal :=
    map fst (filter (fun cn => Rltb threshold (INR (snd cn))) concern_counts) in
  lo <- py_min coherences ;;
  hi <- py_max coherences ;;
  avg <- mean coherences ;;
  Ok (dev,
      {| deviation := dev;
         is_lens_invariant := is_invariant;
         interpretations := interps;
         coherence_range := (lo, hi);
         coherence_mean := avg;
         universal_concerns := universal;
         translation_needed := negb is_invariant |}).

(** *** What the specification says of [interpret] *)

Definition positive_weights (p : LensParameters) : Prop :=
  0 < psi_weight p /\ 0 < rho_weight p /\ 0 < q_weight p
  /\ 0 < f_weight p /\ 0 < tau_weight p.

(** The saturating curve as the specification writes it. *)
Definition q_opt_spec (p : LensParameters) (q : R) : R :=
  if Rltb 0 q then q / (km p + q + q * q / ki p) else 0.

(** The weighted mean as the specification writes it. *)
Definition coherence_spec (p : LensParameters) (psi rho q f tau : R) : R :=
  (psi * psi_weight p + rho * rho_weight p + q_opt_spec p q * q_weight p
   + f * f_weight p + tau * tau_weight p)
  / (psi_weight p + rho_weight p + q_weight p + f_weight p + tau_weight p).

(** Where the divisions of the curve are defined. *)
Definition curve_defined (p : LensParameters) (q : R) : Prop :=
  q <= 0 \/ (ki p <> 0 /\ km p + q + q * q / ki p <> 0).

(** The profiles [interpret] returns on. *)
Definition interpretable (p : LensParameters) (q : R) : Prop :=
  total_weight p <> 0 /\ curve_defined p q.

(** Two profiles with the same weights and the same curve. *)
Definition same_scoring (p1 p2 : LensParameters) : Prop :=
  psi_weight p1 = psi_weight p2 /\ rho_weight p1 = rho_weight p2
  /\ q_weight p1 = q_weight p2 /\ f_weight p1 = f_weight p2
  /\ tau_weight p1 = tau_weight p2 /\ km p1 = km p2 /\ ki p1 = ki p2.

(** The sample standard deviation [calculate_deviation] reports for the
    coherences [cs]. *)
Definition deviation_of (cs : list R) : R :=
  if (List.length cs <? 2)%nat then 0
  else sqrt (sample_variance cs).

(** [LensLibrary.interpret_all]: the dictionary comprehension over
    [self.lenses.items()]. *)
Fixpoint interpret_items (items : list (string * CulturalLens))
  (psi rho q f tau : R) (acc : dict LensInterpretation)
  : result (dict LensInterpretation) :=
  match items with
  | [] => Ok acc
  | (n, lens) :: rest =>
      interp <- interpret lens psi rho q f tau ;;
      interpret_items rest psi rho q f tau (dict_set acc n interp)
  end.

Definition interpret_all (lib : LensLibrary) (psi rho q f tau : R)
  : result (dict LensInterpretation) :=
  interpret_items lib psi rho q f tau [].

(** The library knows the name [n]. *)
Definition known (lib : LensLibrary) (n : string) : bool :=
  match get_lens lib n with
  | Some _ => true
  | None => false
  end.

(** The weights of [p2] are those of [p1] times [k]; same curve. *)
Definition scaled_weights (k : R) (p1 p2 : LensParameters) : Prop :=
  psi_weight p2 = k * psi_weight p1 /\ rho_weight p2 = k * rho_weight p1
  /\ q_weight p2 = k * q_weight p1 /\ f_weight p2 = k * f_weight p1
  /\ tau_weight p2 = k * tau_weight p1 /\ km p2 = km p1 /\ ki p2 = ki p1.

(** Two profiles that agree on every field but [f_baseline] and
    [direct_communication]. *)
Definition same_read_fields (p1 p2 : LensParameters) : Prop :=
  psi_weight p1 = psi_weight p2 /\ rho_weight p1 = rho_weight p2
  /\ q_weight p1 = q_weight p2 /\ f_weight p1 = f_weight p2
  /\ tau_weight p1 = tau_weight p2 /\ q_baseline p1 = q_baseline p2
  /\ psi_tolerance p1 = psi_tolerance p2
  /\ verbal_expression p1 = verbal_expression p2
  /\ collective_orientation p1 = collective_orientation p2
  /\ km p1 = km p2 /\ ki p1 = ki p2.

(** What of [calculate_deviation]'s result does not depend on
    [len(lenses)]. *)
Definition deviation_view (da : R * Analysis)
  : R * dict LensInterpretation * (R * R) * R :=
  (fst da, interpretations (snd da), coherence_range (snd da),
   coherence_mean (snd da)).

(** The name [n] resolves in [lib] to a lens read at coherence [c]. *)
Definition reads (lib : LensLibrary) (psi rho q f tau : R) (n : string) (c : R)
  : Prop :=
  exists lens i,
    get_lens lib n = Some lens
    /\ interpret lens psi rho q f tau = Ok i
    /\ coherence i = c.

End Lenses.

(** ** Text on ASCII strings

    Strings are sequences of ASCII characters: [str.lower], [str.upper] and
    the regular-expression class [\w] are modelled on that range. *)

Definition in_range (lo hi : nat) (c : ascii) : bool :=
  let n := nat_of_ascii c in ((lo <=? n) && (n <=? hi))%nat.

Definition is_upper (c : ascii) : bool := in_range 65 90 c.
Definition is_lower (c : ascii) : bool := in_range 97 122 c.
Definition is_digit (c : ascii) : bool := in_range 48 57 c.

(** The class [\w]. *)
Definition is_word_char (c : ascii) : bool :=
  is_upper c || is_lower c || is_digit c || Ascii.eqb c "_"%char.

Definition lower_char (c : ascii) : ascii :=
  if is_upper c then ascii_of_nat (nat_of_ascii c + 32) else c.

Definition upper_char (c : ascii) : ascii :=
  if is_lower c then ascii_of_nat (nat_of_ascii c - 32) else c.

Fixpoint smap (g : ascii -> ascii) (s : string) : string :=
  match s with
  | EmptyString => EmptyString
  | String c s' => String (g c) (smap g s')
  end.

Definition lower (s : string) : string := smap lower_char s.
Definition upper (s : string) : string := smap upper_char s.

(** [s.count(c)] for a one-character [c]. *)
Fixpoint count_char (c : ascii) (s : string) : nat :=
  match s with
  | EmptyString => 0
  | String c' s' => ((if Ascii.eqb c c' then 1 else 0) + count_char c s')%nat
  end.

Definition shead (s : string) : option ascii :=
  match s with
  | EmptyString => None
  | String c _ => Some c
  end.

Definition word_opt (c : option ascii) : bool :=
  match c with
  | Some c => is_word_char c
  | None => false
  end.

(** [\b] between the character before a position and the one after it. *)
Definition boundary (prev next : option ascii) : bool :=
  xorb (word_opt prev) (word_opt next).

(** The literal [alt] read at the head of [s]: the last character read and
    what is left of [s]. *)
Fixpoint match_literal (alt s : string) (prev : option ascii)
  : option (option ascii * string) :=
  match alt with
  | EmptyString => Some (prev, s)
  | String a alt' =>
      match s with
      | String c s' => if Ascii.eqb a c then match_literal alt' s' (Some c) else None
      | EmptyString => None
      end
  end.

(** One alternative of [\b(alt1|alt2|...)\b] at a position. *)
Definition match_alt (prev : option ascii) (s : string) (alt : string) : bool :=
  boundary prev (shead s)
  && match match_literal alt s prev with
     | Some (last, rest) => boundary last (shead rest)
     | None => false
     end.

(** [re.findall] for a pattern [\b(alt1|alt2|...)\b] of non-empty literal
    alternatives: left to right, at each position the first alternative that
    matches, matches do not overlap.  [skip] counts the characters of the
    current match still to pass. *)
Fixpoint findall_from (alts : list string) (prev : option ascii) (s : string)
  (skip : nat) {struct s} : list string :=
  match s with
  | EmptyString => []
  | String c s' =>
      match skip with
      | S k => findall_from alts (Some c) s' k
      | O =>
          match find (match_alt prev s) alts with
          | Some alt => alt :: findall_from alts (Some c) s' (String.length alt - 1)
          | None => findall_from alts (Some c) s' 0
          end
      end
  end.

Definition findall (alts : list string) (s : string) : list string :=
  findall_from alts None s 0.

(** [sub in s]. *)
Fixpoint contains (sub s : string) : bool :=
  String.prefix sub s
  || match s with
     | EmptyString => false
     | String _ s' => contains sub s'
     end.

(** [re.search] for a pattern [alt1|alt2|...] of literals. *)
Definition search (alts : list string) (s : string) : bool :=
  existsb (fun alt => contains alt s) alts.

(** [list(set(l))]; Python leaves the order open, here first occurrences. *)
Definition list_set (l : list string) : list string := nodup string_dec l.

(** ** Text analyzers ([team_coherence/analyzers]) *)

Module Analyzers.

Record PatternResult : Type := {
  psi : R;
  rho : R;
  q : R;
  f : R;
  tau : R;
  confidence : R;
  source_count : nat;
  notes : list string
}.

Record CISDAnalysisResult : Type := {
  processing_ratio : R;
  performance_ratio : R;
  processing_indicators : list string;
  performance_indicators : list string;
  environmental_concerns : list string;
  facilitator_notes : option string;
  pattern : PatternResult
}.

(** [sum(len(re.findall(p, text)) for p in patterns)]. *)
Definition count_matches (patterns : list (list string)) (text : string) : nat :=
  list_sum (map (fun p => List.length (findall p text)) patterns).

Definition isolation_patterns : list (list string) :=
  [ ["alone"; "lonely"; "isolated"; "nobody"; "no one"];
    ["by myself"; "on my own"] ].

Definition connection_patterns : list (list string) :=
  [ ["we"; "us"; "our"; "together"; "team"];
    ["support"; "helped"; "buddy"; "brother"; "sister"] ].

Definition activation_patterns : list (list string) :=
  [ ["stressed"; "angry"; "frustrated"; "scared"; "anxious"];
    ["worried"; "tense"; "overwhelmed"; "exhausted"] ].

Definition wisdom_patterns : list (list string) :=
  [ ["learned"; "realized"; "experience"; "wisdom"];
    ["years"; "before"; "remember"; "history"] ].

Definition past_patterns : list (list string) :=
  [ ["was"; "were"; "used to"; "before"; "ago"] ].

Definition present_patterns : list (list string) :=
  [ ["now"; "today"; "right now"; "currently"] ].

(** [BaseAnalyzer._extract_pattern_regex]; the unused [word_count] is left
    out. *)
Definition _extract_pattern_regex (text : string) : result PatternResult :=
  let text_lower := lower text in
  let isolation := count_matches isolation_patterns text_lower in
  let connection := count_matches connection_patterns text_lower in
  let total := (isolation + connection)%nat in
  f_ <- (if (0 <? total)%nat then pdiv (INR connection) (INR total) else Ok 0.5) ;;
  let activation := count_matches activation_patterns text_lower in
  let exclamations := count_char "!"%char text in
  let q_ := Rmin (0.3 + INR activation * 0.1 + INR exclamations * 0.05) 1.0 in
  let psi_ := 0.7 in
  let wisdom := count_matches wisdom_patterns text_lower in
  let rho_ := Rmin (0.3 + INR wisdom * 0.1) 1.0 in
  let past := count_matches past_patterns text_lower in
  let present := count_matches present_patterns text_lower in
  let tau_ :=
    if (present <? past)%nat then Rmin (0.5 + INR past * 0.05) 1.0
    else if (past <? present)%nat then Rmax (0.5 - INR present * 0.05) 0.1
    else 0.5 in
  Ok {| psi := psi_; rho := rho_; q := q_; f := f_; tau := tau_;
        confidence := 0.6; source_count := 1; notes := [] |}.

Definition PROCESSING_INDICATORS : list (list string) :=
  [ ["realized"; "understood"; "felt"; "struggled"];
    ["hard"; "difficult"; "challenging"; "painful"];
    ["support"; "helped"; "talked"; "shared"];
    ["processing"; "working through"; "dealing with"] ].

Definition PERFORMANCE_INDICATORS : list (list string) :=
  [ ["fine"; "okay"; "good"; "normal"; "usual"];
    ["handled"; "managed"; "no problem"];
    ["moved on"; "over it"; "past it"];
    ["don't need"; "unnecessary"] ].

Definition ENVIRONMENTAL_CONCERNS : list (list string * string) :=
  [ (["career"; "promotion"; "evaluation"], "Career concerns may affect disclosure");
    (["command"; "leadership"; "supervisor"], "Command presence may affect openness");
    (["mandatory"; "required"; "ordered"], "Mandatory nature may reduce authenticity");
    (["quiet"; "silent"; "uncomfortable"], "Unusual silence may indicate unsafe environment") ].

(** [CISDAnalyzer.analyze]; [incident_date] is not read by the code. *)
Definition analyze (cisd_document : string) (fac_notes : option string)
  : result CISDAnalysisResult :=
  let doc_lower := lower cisd_document in
  let processing_matches := flat_map (fun p => findall p doc_lower) PROCESSING_INDICATORS in
  let performance_matches := flat_map (fun p => findall p doc_lower) PERFORMANCE_INDICATORS in
  let total := (List.length processing_matches + List.length performance_matches)%nat in
  ratios <-
    (if (0 <? total)%nat then
       a <- pdiv (len processing_matches) (INR total) ;;
       b <- pdiv (len performance_matches) (INR total) ;;
       Ok (a, b)
     else Ok (0.5, 0.5)) ;;
  let env :=
    map snd (filter (fun pc => search (fst pc) doc_lower) ENVIRONMENTAL_CONCERNS) in
  pat <- _extract_pattern_regex cisd_document ;;
  Ok {| processing_ratio := fst ratios;
        performance_ratio := snd ratios;
        processing_indicators := list_set processing_matches;
        performance_indicators := list_set performance_matches;
        environmental_concerns := env;
        facilitator_notes := fac_notes;
        pattern := pat |}.

(** *** [CISDAnalyzer.assess_cisd_program] *)

(** The dictionary [assess_cisd_program] returns. *)
Record ProgramAssessment : Type := {
  processing_rate : R;
  performance_rate : R;
  sample_size : nat;
  environmental_factors : list string;
  recommendation : string
}.

(** [timeframe_months] is not read by the code. *)
Definition assess_cisd_program (reports : list string) : result ProgramAssessment :=
  match reports with
  | [] =>
      Ok {| processing_rate := 0.0; performance_rate := 0.0; sample_size := 0;
            environmental_factors := []; recommendation := "Insufficient data" |}
  | _ =>
      analyses <- map_result (fun r => analyze r None) reports ;;
      avg_processing <- pdiv (rsum (map processing_ratio analyses)) (len analyses) ;;
      avg_performance <- pdiv (rsum (map performance_ratio analyses)) (len analyses) ;;
      let all_concerns := flat_map environmental_concerns analyses in
      let concern_counts := tally all_concerns in
      let frequent_concerns :=
        map fst
          (filter (fun cn => Rltb (len analyses * 0.3) (INR (snd cn))) concern_counts) in
      let rec :=
        if Rltb 0.6 avg_performance then
          "High performance indicators suggest environment may not feel safe for authentic disclosure. Consider peer-led vs. command-adjacent facilitation."
        else if Rltb 0.7 avg_processing then
          "Healthy processing indicators. Program appears effective."
        else "Mixed indicators. Consider follow-up assessment." in
      Ok {| processing_rate := avg_processing;
            performance_rate := avg_performance;
            sample_size := List.length analyses;
            environmental_factors := frequent_concerns;
            recommendation := rec |}
  end.

(** *** [DebriefAnalyzer] *)

(** A [datetime], by its place in time order (microseconds since
    [datetime.min]). *)
Definition datetime : Type := nat.

Record TrajectoryPoint : Type := {
  timestamp : datetime;
  tp_pattern : PatternResult
}.

(** [participants] and [incident_type] are not read by the code. *)
Definition analyze_transcript (transcript : string) : result PatternResult :=
  _extract_pattern_regex transcript.

(** [unit_id] is not read by the code. *)
Definition track_trajectory (transcripts : list (datetime * string))
  : result (list TrajectoryPoint) :=
  map_result
    (fun tt =>
       pat <- _extract_pattern_regex (snd tt) ;;
       Ok {| timestamp := fst tt; tp_pattern := pat |})
    (sorted_by_key fst transcripts).

(** *** [SocialPatternAnalyzer.analyze_posts] *)

(** A post: a dictionary of which only the key 'content' is read. *)
Definition Post : Type := dict string.

Definition no_posts : PatternResult :=
  {| psi := 0.5; rho := 0.5; q := 0.5; f := 0.5; tau := 0.5;
     confidence := 0.0; source_count := 0; notes := [] |}.

(** The loop collecting the patterns of the posts with content. *)
Fixpoint post_patterns (posts : list Post) (patterns : list PatternResult)
  : result (list PatternResult) :=
  match posts with
  | [] => Ok patterns
  | post :: rest =>
      let content := dict_get_default post "content" "" in
      if String.eqb content "" then post_patterns rest patterns
      else
        pat <- _extract_pattern_regex content ;;
        post_patterns rest (patterns ++ [pat])
  end.

Definition analyze_posts (posts : list Post) : result PatternResult :=
  match posts with
  | [] => Ok no_posts
  | _ =>
      patterns <- post_patterns posts [] ;;
      match patterns with
      | [] => Ok no_posts
      | _ =>
          psi_ <- pdiv (rsum (map psi patterns)) (len patterns) ;;
          rho_ <- pdiv (rsum (map rho patterns)) (len patterns) ;;
          q_ <- pdiv (rsum (map q patterns)) (len patterns) ;;
          f_ <- pdiv (rsum (map f patterns)) (len patterns) ;;
          tau_ <- pdiv (rsum (map tau patterns)) (len patterns) ;;
          Ok {| psi := psi_; rho := rho_; q := q_; f := f_; tau := tau_;
                confidence := 0.7; source_count := List.length patterns;
                notes := [] |}
      end
  end.

(** *** [TrajectoryAnalyzer.analyze] *)

(** The dictionary [analyze] returns. *)
Record TrendReport : Type := {
  psi_trend : R;
  rho_trend : R;
  q_trend : R;
  f_trend : R;
  tau_trend : R;
  trend_concerns : list string;
  trend_sample_size : nat
}.

(** [calc_trend], on the values of one dimension along the trajectory. *)
Definition calc_trend (values : list R) : result R :=
  let n := List.length values in
  if (n <? 2)%nat then Ok 0.0
  else
    let x_mean := (INR n - 1) / 2 in
    y_mean <- pdiv (rsum values) (INR n) ;;
    let numerator :=
      rsum (map (fun iv => (INR (fst iv) - x_mean) * (snd iv - y_mean))
              (enumerate values)) in
    let denominator :=
      rsum (map (fun i => (INR i - x_mean) * (INR i - x_mean)) (seq 0 n)) in
    if Req_dec_T denominator 0 then Ok 0.0 else pdiv numerator denominator.

Definition analyze_trajectory (trajectory : list TrajectoryPoint)
  : result TrendReport :=
  if (List.length trajectory <? 2)%nat then
    Ok {| psi_trend := 0.0; rho_trend := 0.0; q_trend := 0.0; f_trend := 0.0;
          tau_trend := 0.0; trend_concerns := [];
          trend_sample_size := List.length trajectory |}
  else
    let along dim := map (fun p => dim (tp_pattern p)) trajectory in
    t_psi <- calc_trend (along psi) ;;
    t_rho <- calc_trend (along rho) ;;
    t_q <- calc_trend (along q) ;;
    t_f <- calc_trend (along f) ;;
    t_tau <- calc_trend (along tau) ;;
    let concerns :=
      (if Rltb t_f (-0.02) then ["f-dimension declining (isolation increasing)"]
       else [])
      ++ (if Rltb 0.03 t_q then ["q-dimension rising (activation increasing)"]
          else [])
      ++ (if Rltb t_psi (-0.02)
          then ["psi-dimension declining (consistency fragmenting)"] else []) in
    Ok {| psi_trend := t_psi; rho_trend := t_rho; q_trend := t_q;
          f_trend := t_f; tau_trend := t_tau; trend_concerns := concerns;
          trend_sample_size := List.length trajectory |}.

(** *** What the properties below speak of *)

(** The posts that have content. *)
Definition with_content (posts : list Post) : list Post :=
  filter (fun post => negb (String.eqb (dict_get_default post "content" "") ""))
    posts.

(** The floors and ceilings of the regex extractor's readings. *)
Definition regex_reading (r : PatternResult) : Prop :=
  psi r = 0.7 /\ 0.3 <= q r <= 1 /\ 0.3 <= rho r <= 1 /\ 0.1 <= tau r <= 1
  /\ 0 <= f r <= 1.

End Analyzers.

(** ** Athletic coherence ([athletic_coherence/core]) *)

Module Athletic.

Inductive FlagSeverity : Type := INFO | WATCH | ELEVATED | CRITICAL.

Inductive PatternType : Type := INDIVIDUAL | POSITIONAL | SYSTEMIC | PROTOCOL.

(** A [datetime], by the calendar fields the code reads. *)
Record datetime : Type := {
  year : nat;
  month : nat;
  day : nat
}.

(** [d.strftime("%Y")], for four-digit years. *)
Definition strftime_Y (d : datetime) : string :=
  NilEmpty.string_of_uint (Nat.to_uint (year d)).

Record InjuryRecord : Type := {
  player_id : string;
  position : string;
  position_group : string;
  injury_type : string;
  body_part : string;
  injury_severity : string;
  date : datetime;
  days_missed : nat;
  is_recurrence : bool;
  previous_injury_id : option string
}.

Record TrainingLoad : Type := {
  tl_player_id : string;
  tl_date : datetime;
  load_score : R;
  intensity : R;
  duration_minutes : nat;
  session_type : string
}.

Record RecoveryMetric : Type := {
  rm_player_id : string;
  rm_date : datetime;
  reported_readiness : R;
  objective_readiness : R;
  sleep_quality : R;
  soreness_level : R;
  hrv : option R
}.

Record SystemicFlag : Type := {
  id : string;
  pattern_type : PatternType;
  severity : FlagSeverity;
  flag_description : string;
  affected_positions : list string;
  affected_players_count : nat;
  seasons_observed : list string;
  data_points : nat;
  flag_confidence : R;
  hypothesis : string;
  correlation_strength : R;
  investigation_areas : list string;
  first_detected : datetime;
  last_updated : datetime
}.

Record DimensionReading : Type := {
  dimension : string;
  value : R;
  confidence : R;
  athletic_interpretation : string;
  trend : string
}.

Record CoherenceSnapshot : Type := {
  organization_id : string;
  timestamp : datetime;
  seasons_analyzed : list string;
  psi_load_coherence : DimensionReading;
  rho_history_integration : DimensionReading;
  q_strain_accumulation : DimensionReading;
  f_team_protection : DimensionReading;
  tau_recovery_depth : DimensionReading;
  physical_coherence_score : R;
  confidence_interval : R * R;
  data_sources : dict nat;
  systemic_flags : list SystemicFlag;
  league_average : R;
  year_over_year_trend : string
}.

(** The reading returned for an empty input list. *)
Definition no_data (dim interp : string) : DimensionReading :=
  {| dimension := dim; value := 0.5; confidence := 0.0;
     athletic_interpretation := interp; trend := "unknown" |}.

Definition is_soft_tissue (i : InjuryRecord) : bool :=
  String.eqb (injury_type i) "soft_tissue".

Definition _calculate_load_coherence (training_data : list TrainingLoad)
  : result DimensionReading :=
  match training_data with
  | [] => Ok (no_data "psi" "Insufficient training data")
  | _ =>
      let loads := map load_score training_data in
      variance <-
        (if (List.length loads <? 2)%nat then Ok 0.5
         else sd <- stdev loads ;; Ok (sd / 10)) ;;
      let coh := 1 - Rmin variance 1 in
      let interp :=
        if Rltb coh 0.5 then
          "Training program shows high variance - inconsistent loading"
        else if Rltb coh 0.7 then
          "Moderate training coherence - some periodization issues"
        else "Training program is coherent and consistent" in
      Ok {| dimension := "psi"; value := coh;
            confidence := Rmin (len training_data / 100) 1.0;
            athletic_interpretation := interp; trend := "stable" |}
  end.

Definition _calculate_history_integration (injuries : list InjuryRecord)
  : result DimensionReading :=
  match injuries with
  | [] => Ok (no_data "rho" "Insufficient injury history")
  | _ =>
      let recurrences := List.length (filter is_recurrence injuries) in
      recurrence_rate <- pdiv (INR recurrences) (len injuries) ;;
      let integration := 1 - recurrence_rate in
      let interp :=
        if Rltb integration 0.5 then
          "High re-injury rate suggests protocols not learning from history"
        else if Rltb integration 0.7 then
          "Moderate recurrence - some patterns repeating"
        else "Low recurrence rate - good integration of injury history" in
      Ok {| dimension := "rho"; value := integration;
            confidence := Rmin (len injuries / 50) 1.0;
            athletic_interpretation := interp; trend := "stable" |}
  end.

Definition _calculate_strain_accumulation (training : list TrainingLoad)
  (injuries : list InjuryRecord) : result DimensionReading :=
  match training with
  | [] => Ok (no_data "q" "Insufficient data for strain analysis")
  | _ =>
      avg_intensity <- pdiv (rsum (map intensity training)) (len training) ;;
      let soft_tissue := List.length (filter is_soft_tissue injuries) in
      soft_tissue_rate <-
        pdiv (INR soft_tissue) (INR (Nat.max (List.length injuries) 1)) ;;
      let strain := (avg_intensity + soft_tissue_rate) / 2 in
      let interp :=
        if Rltb 0.7 strain then
          "Critical strain accumulation - tissues under maximum load"
        else if Rltb 0.5 strain then
          "Elevated strain - approaching sustainable limits"
        else "Strain levels within sustainable range" in
      Ok {| dimension := "q"; value := strain; confidence := 0.7;
            athletic_interpretation := interp; trend := "stable" |}
  end.

(** [[abs(r.reported_readiness - r.objective_readiness) for r in recovery]]. *)
Definition readiness_gaps (recovery : list RecoveryMetric) : list R :=
  map (fun r => Rabs (reported_readiness r - objective_readiness r)) recovery.

Definition _calculate_team_protection (recovery : list RecoveryMetric)
  : result DimensionReading :=
  match recovery with
  | [] => Ok (no_data "f" "Insufficient recovery data")
  | _ =>
      let gaps := readiness_gaps recovery in
      avg_gap <- pdiv (rsum gaps) (len gaps) ;;
      let protection := 1 - avg_gap / 10 in
      let interp :=
        if Rltb protection 0.5 then
          "Large gap between reported and objective readiness - disclosure environment may not feel safe"
        else if Rltb protection 0.7 then
          "Moderate reporting gap - some performance of readiness"
        else "Athletes reporting honestly - safe disclosure environment" in
      Ok {| dimension := "f"; value := protection;
            confidence := Rmin (len recovery / 100) 1.0;
            athletic_interpretation := interp; trend := "stable" |}
  end.

Definition _calculate_recovery_depth (recovery : list RecoveryMetric)
  : result DimensionReading :=
  match recovery with
  | [] => Ok (no_data "tau" "Insufficient recovery data")
  | _ =>
      avg_readiness <-
        pdiv (rsum (map objective_readiness recovery)) (len recovery) ;;
      let depth := avg_readiness / 10 in
      let interp :=
        if Rltb depth 0.4 then
          "Shallow recovery patterns - quick RTPs without full healing"
        else if Rltb depth 0.6 then
          "Moderate recovery depth - some rushing evident"
        else "Adequate recovery depth - allowing time for healing" in
      Ok {| dimension := "tau"; value := depth;
            confidence := Rmin (len recovery / 100) 1.0;
            athletic_interpretation := interp; trend := "stable" |}
  end.

(** The [position_groups] dictionary of [_detect_systemic_flags]. *)
Definition add_to_group (groups : dict (list InjuryRecord)) (injury : InjuryRecord)
  : dict (list InjuryRecord) :=
  let group := position_group injury in
  let groups' :=
    match dict_get groups group with
    | None => dict_set groups group []
    | Some _ => groups
    end in
  dict_set groups' group
    (match dict_get groups' group with Some l => l | None => [] end ++ [injury]).

Definition group_by_position (injuries : list InjuryRecord)
  : dict (list InjuryRecord) :=
  fold_left add_to_group injuries [].

Definition soft_tissue_flag (now : datetime) (group : string)
  (soft_tissue : list InjuryRecord) : SystemicFlag :=
  {| id := String.append "SYS-SOFT-" (upper group);
     pattern_type := POSITIONAL;
     severity := ELEVATED;
     flag_description := String.append "High soft tissue injury rate in " group;
     affected_positions := [group];
     affected_players_count := List.length (list_set (map player_id soft_tissue));
     seasons_observed := list_set (map (fun i => strftime_Y (date i)) soft_tissue);
     data_points := List.length soft_tissue;
     flag_confidence := 0.8;
     hypothesis :=
       "Training load or nutrition protocol may not match metabolic demands for this position group";
     correlation_strength := 0.7;
     investigation_areas :=
       [ "Position-specific training load audit";
         "Nutrition assessment (collagen, anti-inflammatory)";
         "Recovery protocol review" ];
     first_detected := now;
     last_updated := now |}.

Definition disclosure_flag (now : datetime) (recovery : list RecoveryMetric)
  : SystemicFlag :=
  {| id := "SYS-DISCLOSURE";
     pattern_type := SYSTEMIC;
     severity := CRITICAL;
     flag_description := "Athletes performing readiness instead of honest reporting";
     affected_positions := ["All"];
     affected_players_count := List.length (list_set (map rm_player_id recovery));
     seasons_observed := [];
     data_points := List.length recovery;
     flag_confidence := 0.85;
     hypothesis :=
       "Disclosure environment may not feel safe - reporting pain may affect playing time";
     correlation_strength := 0.8;
     investigation_areas :=
       [ "Medical staff independence review";
         "Playing time correlation with injury reports";
         "Anonymous athlete survey on disclosure safety" ];
     first_detected := now;
     last_updated := now |}.

(** The loop over [position_groups.items()]. *)
Fixpoint positional_flags (now : datetime) (groups : dict (list InjuryRecord))
  (flags : list SystemicFlag) : result (list SystemicFlag) :=
  match groups with
  | [] => Ok flags
  | (group, group_injuries) :: rest =>
      let soft_tissue := filter is_soft_tissue group_injuries in
      if (3 <=? List.length soft_tissue)%nat then
        ratio <- pdiv (len soft_tissue) (len group_injuries) ;;
        if Rltb 0.5 ratio then
          positional_flags now rest (flags ++ [soft_tissue_flag now group soft_tissue])
        else positional_flags now rest flags
      else positional_flags now rest flags
  end.

(** [PhysicalCoherenceScore._detect_systemic_flags]; [now] stands for
    [datetime.now()], and [training] is not read by the code. *)
Definition _detect_systemic_flags (now : datetime) (injuries : list InjuryRecord)
  (training : list TrainingLoad) (recovery : list RecoveryMetric)
  : result (list SystemicFlag) :=
  flags <- positional_flags now (group_by_position injuries) [] ;;
  match recovery with
  | [] => Ok flags
  | _ =>
      let gaps := readiness_gaps recovery in
      avg_gap <- pdiv (rsum gaps) (len gaps) ;;
      if Rltb 2.0 avg_gap then Ok (flags ++ [disclosure_flag now recovery])
      else Ok flags
  end.

Definition _get_seasons (injuries : list InjuryRecord) : list string :=
  list_set (map (fun i => strftime_Y (date i)) injuries).

Definition _determine_trend : string := "declining".

(** [PhysicalCoherenceScore.calculate] for the organization [org]. *)
Definition calculate (org : string) (now : datetime)
  (injury_history : list InjuryRecord) (training_data : list TrainingLoad)
  (recovery_data : list RecoveryMetric) : result CoherenceSnapshot :=
  psi <- _calculate_load_coherence training_data ;;
  rho <- _calculate_history_integration injury_history ;;
  q <- _calculate_strain_accumulation training_data injury_history ;;
  f <- _calculate_team_protection recovery_data ;;
  tau <- _calculate_recovery_depth recovery_data ;;
  let score :=
    value psi * 0.20 + value rho * 0.15 + (1 - value q) * 0.25
    + value f * 0.15 + value tau * 0.25 in
  flags <- _detect_systemic_flags now injury_history training_data recovery_data ;;
  Ok {| organization_id := org;
        timestamp := now;
        seasons_analyzed := _get_seasons injury_history;
        psi_load_coherence := psi;
        rho_history_integration := rho;
        q_strain_accumulation := q;
        f_team_protection := f;
        tau_recovery_depth := tau;
        physical_coherence_score := score;
        confidence_interval := (score - 0.1, score + 0.1);
        data_sources :=
          [ ("injury_records", List.length injury_history);
            ("training_sessions", List.length training_data);
            ("recovery_metrics", List.length recovery_data) ];
        systemic_flags := flags;
        league_average := 0.55;
        year_over_year_trend := _determine_trend |}.

(** *** [OrganizationDashboard] *)

Record PositionGroupAnalysis : Type := {
  pga_position_group : string;
  injury_rate : R;
  injury_rate_vs_league : R;
  load_recovery_ratio : R;
  soft_tissue_rate : R;
  recurrence_rate : R;
  pga_flags : list string;
  recommendations : list string
}.

Record OrganizationDashboard : Type := {
  org_id : string;
  snapshots : list CoherenceSnapshot;
  flags : dict SystemicFlag;
  injury_records : list InjuryRecord;
  training_data : list TrainingLoad;
  recovery_data : list RecoveryMetric
}.

Definition severity_eqb (a b : FlagSeverity) : bool :=
  match a, b with
  | INFO, INFO | WATCH, WATCH | ELEVATED, ELEVATED | CRITICAL, CRITICAL => true
  | _, _ => false
  end.

(** [l.index(x)]: the first position of [x], [ValueError] without one. *)
Fixpoint index (l : list FlagSeverity) (x : FlagSeverity) : result nat :=
  match l with
  | [] => Raise ValueError
  | y :: l' => if severity_eqb y x then Ok 0%nat else rmap S (index l' x)
  end.

Definition severity_order : list FlagSeverity := [INFO; WATCH; ELEVATED; CRITICAL].

(** The list comprehension of [get_systemic_flags]. *)
Fixpoint flags_from (min_idx : nat) (fls : list SystemicFlag)
  : result (list SystemicFlag) :=
  match fls with
  | [] => Ok []
  | fl :: rest =>
      i <- index severity_order (severity fl) ;;
      kept <- flags_from min_idx rest ;;
      Ok (if (min_idx <=? i)%nat then fl :: kept else kept)
  end.

(** [get_systemic_flags]; the default [min_severity] is [WATCH]. *)
Definition get_systemic_flags (d : OrganizationDashboard) (min_severity : FlagSeverity)
  : result (list SystemicFlag) :=
  min_idx <- index severity_order min_severity ;;
  flags_from min_idx (values (flags d)).

Definition get_position_group_analysis (d : OrganizationDashboard)
  (position_group_ : string) : result PositionGroupAnalysis :=
  let group_injuries :=
    filter (fun i => String.eqb (position_group i) position_group_)
      (injury_records d) in
  match group_injuries with
  | [] =>
      Ok {| pga_position_group := position_group_; injury_rate := 0.0;
            injury_rate_vs_league := 0.0; load_recovery_ratio := 1.0;
            soft_tissue_rate := 0.0; recurrence_rate := 0.0;
            pga_flags := []; recommendations := [] |}
  | _ =>
      let total_injuries := List.length group_injuries in
      let soft_tissue := List.length (filter is_soft_tissue group_injuries) in
      let recurrences := List.length (filter is_recurrence group_injuries) in
      let injury_rate_ := INR total_injuries / 3 in
      soft_tissue_rate_ <-
        (if (0 <? total_injuries)%nat
         then pdiv (INR soft_tissue) (INR total_injuries) else Ok 0) ;;
      recurrence_rate_ <-
        (if (0 <? total_injuries)%nat
         then pdiv (INR recurrences) (INR total_injuries) else Ok 0) ;;
      let soft := Rltb 0.5 soft_tissue_rate_ in
      let recur := Rltb 0.3 recurrence_rate_ in
      Ok {| pga_position_group := position_group_;
            injury_rate := injury_rate_;
            injury_rate_vs_league := 1.0;
            load_recovery_ratio := 1.0;
            soft_tissue_rate := soft_tissue_rate_;
            recurrence_rate := recurrence_rate_;
            pga_flags :=
              (if soft then ["High soft tissue injury rate"] else [])
              ++ (if recur then ["High re-injury rate"] else []);
            recommendations :=
              (if soft then ["Review training load and nutrition protocols"]
               else [])
              ++ (if recur
                  then ["Extend recovery timelines, review RTP protocols"]
                  else []) |}
  end.

(** The place of a severity in the order INFO < WATCH < ELEVATED < CRITICAL. *)
Definition severity_rank (s : FlagSeverity) : nat :=
  match s with
  | INFO => 0
  | WATCH => 1
  | ELEVATED => 2
  | CRITICAL => 3
  end.

(** *** What the specification says of the flags *)

(** The injuries of position group [g], in the order of the list. *)
Definition injuries_of_group (g : string) (injuries : list InjuryRecord)
  : list InjuryRecord :=
  filter (fun i => String.eqb (position_group i) g) injuries.

Definition group_count (g : string) (injuries : list InjuryRecord) : nat :=
  List.length (injuries_of_group g injuries).

Definition soft_tissue_count (g : string) (injuries : list InjuryRecord) : nat :=
  List.length (filter is_soft_tissue (injuries_of_group g injuries)).

(** The dictionary [d] groups the injuries [inj]. *)
Definition groups_of (d : dict (list InjuryRecord)) (inj : list InjuryRecord)
  : Prop :=
  NoDup (keys d)
  /\ forall g l, In (g, l) d <-> (l = injuries_of_group g inj /\ l <> []).

(** A positional flag for the group [g]. *)
Definition positional_flag_for (g : string) (fl : SystemicFlag) : Prop :=
  pattern_type fl = POSITIONAL /\ affected_positions fl = [g].

(** The flags one entry of [position_groups] adds. *)
Definition group_flags (now : datetime) (entry : string * list InjuryRecord)
  : list SystemicFlag :=
  let soft_tissue := filter is_soft_tissue (snd entry) in
  if (3 <=? List.length soft_tissue)%nat
     && Rltb 0.5 (len soft_tissue / len (snd entry))
  then [soft_tissue_flag now (fst entry) soft_tissue]
  else [].

(** The mean gap between reported and objective readiness. *)
Definition mean_gap (recovery : list RecoveryMetric) : R :=
  rsum (readiness_gaps recovery) / len recovery.

(** Records within the documented scales. *)
Definition intensity_in_scale (t : TrainingLoad) : Prop := 0 <= intensity t <= 1.

Definition readiness_in_scale (r : RecoveryMetric) : Prop :=
  0 <= reported_readiness r <= 10 /\ 0 <= objective_readiness r <= 10.

Definition load_in_scale (t : TrainingLoad) : Prop := 0 <= load_score t <= 10.

Definition unit_interval (x : R) : Prop := 0 <= x <= 1.

End Athletic.

(** ** Injury pattern analysis ([athletic_coherence/analyzers]) *)

Module InjuryPatterns.

(** An injury record as the analyzer reads it: a dictionary of strings
    (player_id, position_group, injury_type, body_part, severity, season). *)
Definition Injury : Type := dict string.

Record InjuryPattern : Type := {
  pattern_id : string;
  description : string;
  injury_type : string;
  affected_positions : list string;
  occurrence_count : nat;
  seasons : list string;
  correlation_strength : R;
  is_systemic : bool;
  hypothesis : string
}.

Definition position_of (i : Injury) : string :=
  dict_get_default i "position_group" "unknown".

Definition season_of (i : Injury) : string :=
  dict_get_default i "season" "unknown".

(** [i.get("injury_type") == "soft_tissue"]. *)
Definition is_soft_tissue (i : Injury) : bool :=
  match dict_get i "injury_type" with
  | Some t => String.eqb t "soft_tissue"
  | None => false
  end.

Definition _group_by_position (injuries : list Injury) : dict (list Injury) :=
  group_by position_of injuries.

Definition soft_pattern (pos : string) (pos_injuries : list Injury) : InjuryPattern :=
  {| pattern_id := String.append "SOFT-" (upper pos);
     description := String.append "Soft tissue injury cluster in " pos;
     injury_type := "soft_tissue";
     affected_positions := [pos];
     occurrence_count := List.length pos_injuries;
     seasons := list_set (map (fun i => dict_get_default i "season" "") pos_injuries);
     correlation_strength := 0.75;
     is_systemic := (5 <=? List.length pos_injuries)%nat;
     hypothesis :=
       "Training load or nutrition protocol may not match metabolic demands" |}.

Definition repeat_pattern (by_season : dict (list Injury)) : InjuryPattern :=
  {| pattern_id := "REPEAT-MULTI";
     description := "High injury rate persists across multiple seasons";
     injury_type := "all";
     affected_positions := ["all"];
     occurrence_count := list_sum (map (fun v => List.length v) (values by_season));
     seasons := keys by_season;
     correlation_strength := 0.8;
     is_systemic := true;
     hypothesis := "Systemic issue in training, recovery, or nutrition protocols" |}.

(** [InjuryPatternAnalyzer._detect_patterns]; [seasons] is not read by the
    code. *)
Definition _detect_patterns (injuries : list Injury) : list InjuryPattern :=
  let soft_tissue := filter is_soft_tissue injuries in
  let clusters :=
    if (5 <=? List.length soft_tissue)%nat then
      flat_map
        (fun entry =>
           if (3 <=? List.length (snd entry))%nat
           then [soft_pattern (fst entry) (snd entry)] else [])
        (group_by position_of soft_tissue)
    else [] in
  let by_season := group_by season_of injuries in
  let repeats :=
    if (2 <=? List.length by_season)%nat then
      if forallb (fun c => (10 <? c)%nat)
           (map (fun v => List.length v) (values by_season))
      then [repeat_pattern by_season] else []
    else [] in
  clusters ++ repeats.

(** The soft-tissue injuries of the position [pos]. *)
Definition soft_in (pos : string) (injuries : list Injury) : list Injury :=
  under_key position_of pos (filter is_soft_tissue injuries).

(** A soft-tissue cluster pattern for the position [pos]. *)
Definition soft_cluster_for (pos : string) (p : InjuryPattern) : Prop :=
  injury_type p = "soft_tissue" /\ affected_positions p = [pos].

End InjuryPatterns.

(** * Inputs used below *)

(** A profile with the default weights and baselines and [ki = 0]. *)
Definition zero_ki_lens : Lenses.CulturalLens :=
  Lenses.mk_lens "zero_ki" "" 1.0 1.0 1.0 1.0 1.0 0.5 0.5 0.3 0.5 0.5 0.5 0.3 0.0.

(** [rural_traditional] with other baselines, tolerance and expression
    knobs. *)
Definition rural_rebased : Lenses.CulturalLens :=
  Lenses.mk_lens "rural_rebased" "" 1.0 1.2 0.7 1.0 1.1 0.6 0.2 0.5 0.9 0.1 0.1 0.3 2.0.

(** [zero_ki_lens] under a second name. *)
Definition zero_ki_twin : Lenses.CulturalLens :=
  Lenses.mk_lens "zero_ki_twin" "" 1.0 1.0 1.0 1.0 1.0 0.5 0.5 0.3 0.5 0.5 0.5 0.3 0.0.

Definition zero_ki_library : Lenses.LensLibrary :=
  [ ("zero_ki", zero_ki_lens); ("zero_ki_twin", zero_ki_twin) ].

(** [rural_traditional] under a second name. *)
Definition rural_twin : Lenses.CulturalLens :=
  Lenses.mk_lens "rural_twin" "Calibration for rural/traditional backgrounds"
    1.0 1.2 0.7 1.0 1.1 0.35 0.5 0.3 0.3 0.6 0.6 0.3 2.0.

Definition twin_library : Lenses.LensLibrary :=
  [ ("rural_traditional", Lenses.rural_traditional); ("rural_twin", rural_twin) ].

(** The report of the masking scenario. *)
Definition cisd_text : string :=
  "All participants reported they were fine and handling the situation normally. No one expressed need for additional support.".

Definition season_start : Athletic.datetime :=
  {| Athletic.year := 2024; Athletic.month := 9; Athletic.day := 1 |}.

(** A recovery record reported at 8.2 and measured at 5.8. *)
Definition masked_recovery : Athletic.RecoveryMetric :=
  {| Athletic.rm_player_id := "p1";
     Athletic.rm_date := season_start;
     Athletic.reported_readiness := 8.2;
     Athletic.objective_readiness := 5.8;
     Athletic.sleep_quality := 7;
     Athletic.soreness_level := 4;
     Athletic.hrv := None |}.

(** An injury of the position group "secondary". *)
Definition secondary_injury (player kind : string) : Athletic.InjuryRecord :=
  {| Athletic.player_id := player;
     Athletic.position := "CB";
     Athletic.position_group := "secondary";
     Athletic.injury_type := kind;
     Athletic.body_part := "hamstring";
     Athletic.injury_severity := "moderate";
     Athletic.date := season_start;
     Athletic.days_missed := 14;
     Athletic.is_recurrence := false;
     Athletic.previous_injury_id := None |}.

(** Five soft-tissue injuries out of six in the secondary. *)
Definition secondary_injuries : list Athletic.InjuryRecord :=
  [ secondary_injury "p1" "soft_tissue";
    secondary_injury "p2" "soft_tissue";
    secondary_injury "p3" "structural";
    secondary_injury "p4" "soft_tissue";
    secondary_injury "p5" "soft_tissue";
    secondary_injury "p6" "soft_tissue" ].

(** A training session logged at intensity 3, above the 0-1 scale. *)
Definition overdriven_session : Athletic.TrainingLoad :=
  {| Athletic.tl_player_id := "p1";
     Athletic.tl_date := season_start;
     Athletic.load_score := 5;
     Athletic.intensity := 3;
     Athletic.duration_minutes := 90;
     Athletic.session_type := "practice" |}.

(** A recovery record measured at 12, above the 0-10 scale, and reported
    at 0. *)
Definition off_scale_recovery : Athletic.RecoveryMetric :=
  {| Athletic.rm_player_id := "p1";
     Athletic.rm_date := season_start;
     Athletic.reported_readiness := 0;
     Athletic.objective_readiness := 12;
     Athletic.sleep_quality := 7;
     Athletic.soreness_level := 4;
     Athletic.hrv := None |}.

(** A training session within the scales. *)
Definition regular_session : Athletic.TrainingLoad :=
  {| Athletic.tl_player_id := "p1";
     Athletic.tl_date := season_start;
     Athletic.load_score := 6;
     Athletic.intensity := 0.8;
     Athletic.duration_minutes := 90;
     Athletic.session_type := "practice" |}.

(** [rural_traditional] with its weights doubled. *)
Definition rural_doubled : Lenses.CulturalLens :=
  Lenses.mk_lens "rural_doubled" "Calibration for rural/traditional backgrounds"
    2.0 2.4 1.4 2.0 2.2 0.35 0.5 0.3 0.3 0.6 0.6 0.3 2.0.

(** [rural_traditional] with another [f_baseline] and
    [direct_communication]. *)
Definition rural_indirect : Lenses.CulturalLens :=
  Lenses.mk_lens "rural_traditional" "Calibration for rural/traditional backgrounds"
    1.0 1.2 0.7 1.0 1.1 0.35 0.9 0.3 0.3 0.1 0.6 0.3 2.0.

(** Three posts, the second without content. *)
Definition sample_posts : list Analyzers.Post :=
  [ [("content", "We stayed together as a team."); ("timestamp", "2025-01-03")];
    [("timestamp", "2025-01-04")];
    [("content", "Stressed and exhausted right now!"); ("timestamp", "2025-01-05")] ].

(** Two posts without content. *)
Definition blank_posts : list Analyzers.Post :=
  [ [("timestamp", "2025-01-04")]; [("content", ""); ("timestamp", "2025-01-05")] ].

(** Three points of a trajectory with the same pattern. *)
Definition steady_pattern : Analyzers.PatternResult :=
  {| Analyzers.psi := 0.7; Analyzers.rho := 0.4; Analyzers.q := 0.3;
     Analyzers.f := 0.5; Analyzers.tau := 0.5; Analyzers.confidence := 0.6;
     Analyzers.source_count := 1; Analyzers.notes := [] |}.

Definition steady_trajectory : list Analyzers.TrajectoryPoint :=
  [ {| Analyzers.timestamp := 10%nat; Analyzers.tp_pattern := steady_pattern |};
    {| Analyzers.timestamp := 20%nat; Analyzers.tp_pattern := steady_pattern |};
    {| Analyzers.timestamp := 30%nat; Analyzers.tp_pattern := steady_pattern |} ].

(** A dashboard holding the secondary's injuries and one flag of each of
    two severities. *)
Definition watch_flag : Athletic.SystemicFlag :=
  {| Athletic.id := "SYS-NOTE"; Athletic.pattern_type := Athletic.PROTOCOL;
     Athletic.severity := Athletic.WATCH; Athletic.flag_description := "";
     Athletic.affected_positions := []; Athletic.affected_players_count := 0;
     Athletic.seasons_observed := []; Athletic.data_points := 0;
     Athletic.flag_confidence := 0.5; Athletic.hypothesis := "";
     Athletic.correlation_strength := 0.5; Athletic.investigation_areas := [];
     Athletic.first_detected := season_start;
     Athletic.last_updated := season_start |}.

Definition secondary_dashboard : Athletic.OrganizationDashboard :=
  {| Athletic.org_id := "lions";
     Athletic.snapshots := [];
     Athletic.flags :=
       [ ("SYS-NOTE", watch_flag);
         ("SYS-DISCLOSURE", Athletic.disclosure_flag season_start [masked_recovery]) ];
     Athletic.injury_records := secondary_injuries;
     Athletic.training_data := [];
     Athletic.recovery_data := [masked_recovery] |}.

(** An injury dictionary of the receivers. *)
Definition receiver_injury (kind season : string) : InjuryPatterns.Injury :=
  [ ("player_id", "p7"); ("position_group", "receivers");
    ("injury_type", kind); ("body_part", "hamstring"); ("severity", "minor");
    ("season", season) ].

(** Five soft-tissue injuries of the receivers and one structural one. *)
Definition receiver_injuries : list InjuryPatterns.Injury :=
  [ receiver_injury "soft_tissue" "2024"; receiver_injury "soft_tissue" "2024";
    receiver_injury "structural" "2024"; receiver_injury "soft_tissue" "2025";
    receiver_injury "soft_tissue" "2025"; receiver_injury "soft_tissue" "2025" ].

(** Eleven injuries in each of two seasons. *)
Definition two_heavy_seasons : list InjuryPatterns.Injury :=
  repeat (receiver_injury "structural" "2024") 11
  ++ repeat (receiver_injury "structural" "2025") 11.

(** * The claims, as the specification states them *)

(** [interpret] returns the specified weighted mean on every profile with
    positive weights. *)
Definition interpret_formula_claim (lens : Lenses.CulturalLens)
  (psi rho q f tau : R) : Prop :=
  Lenses.positive_weights (Lenses.params lens) ->
  exists i,
    Lenses.interpret lens psi rho q f tau = Ok i
    /\ Lenses.coherence i
       = Lenses.coherence_spec (Lenses.params lens) psi rho q f tau.

(** Lenses with one and the same profile [p] give deviation 0 and a
    lens-invariant analysis. *)
Definition identical_lenses_claim (lib : Lenses.LensLibrary)
  (psi rho q f tau : R) (lenses : list string) (p : Lenses.LensParameters) : Prop :=
  (2 <= List.length lenses)%nat ->
  (forall n, In n lenses ->
     exists lens, Lenses.get_lens lib n = Some lens /\ Lenses.params lens = p) ->
  exists a,
    Lenses.calculate_deviation lib psi rho q f tau (Some lenses) = Ok (0, a)
    /\ Lenses.is_lens_invariant a = true.

(** Adding the lens [extra], read at a coherence strictly outside the range
    of the lenses already there, does not decrease the deviation. *)
Definition deviation_monotone_claim (lib : Lenses.LensLibrary)
  (psi rho q f tau : R) (lenses : list string) (extra : string) : Prop :=
  (2 <= List.length lenses)%nat ->
  forall d1 a1 d2 a2 c,
    Lenses.calculate_deviation lib psi rho q f tau (Some lenses) = Ok (d1, a1) ->
    Lenses.reads lib psi rho q f tau extra c ->
    c < fst (Lenses.coherence_range a1) \/ snd (Lenses.coherence_range a1) < c ->
    Lenses.calculate_deviation lib psi rho q f tau (Some (lenses ++ [extra]))
    = Ok (d2, a2) ->
    d1 <= d2.

(** The mean and the sample standard deviation of the coherences [cs], as
    the specification speaks of them. *)
Definition sample_mean (cs : list R) : R := rsum cs / len cs.

Definition sample_sd (cs : list R) : R :=
  sqrt (rsum (map (fun x => (x - sample_mean cs) * (x - sample_mean cs)) cs)
        / (len cs - 1)).

(** On the masking report the performance ratio exceeds the processing
    ratio and no environmental concern is raised. *)
Definition masking_scenario_claim : Prop :=
  exists r,
    Analyzers.analyze cisd_text None = Ok r
    /\ Analyzers.processing_ratio r < Analyzers.performance_ratio r
    /\ Analyzers.environmental_concerns r = [].

(** * Properties *)

(** ** Division, comparisons, sums *)

Lemma pdiv_ok (x y : R) : y <> 0 -> pdiv x y = Ok (x / y).
Proof.
  intros Hy. unfold pdiv. destruct (Req_dec_T y 0) as [E | _]; [contradiction | reflexivity].
Qed.

Lemma pdiv_zero (x : R) : pdiv x 0 = Raise ZeroDivisionError.
Proof.
  unfold pdiv. destruct (Req_dec_T 0 0) as [_ | N]; [reflexivity | now destruct N].
Qed.

Lemma Rltb_lt (x y : R) : Rltb x y = true <-> x < y.
Proof.
  unfold Rltb. destruct (Rlt_dec x y); split; intros; try assumption;
    try reflexivity; try discriminate; contradiction.
Qed.

Lemma Rltb_ge (x y : R) : Rltb x y = false <-> y <= x.
Proof.
  unfold Rltb. destruct (Rlt_dec x y); split; intros; try discriminate;
    try reflexivity; lra.
Qed.

Lemma Rleb_le (x y : R) : Rleb x y = true <-> x <= y.
Proof.
  unfold Rleb. destruct (Rle_dec x y); split; intros; try assumption;
    try reflexivity; try discriminate; contradiction.
Qed.

Lemma Rleb_gt (x y : R) : Rleb x y = false <-> y < x.
Proof.
  unfold Rleb. destruct (Rle_dec x y); split; intros; try discriminate;
    try reflexivity; lra.
Qed.

Lemma rsum_app (l1 l2 : list R) : rsum (l1 ++ l2) = rsum l1 + rsum l2.
Proof.
  induction l1 as [| x l1 IH]; simpl; [lra | rewrite IH; lra].
Qed.

Lemma len_cons {A : Type} (x : A) (l : list A) : len (x :: l) = len l + 1.
Proof. unfold len. simpl List.length. rewrite S_INR. reflexivity. Qed.

Lemma len_app {A : Type} (l1 l2 : list A) : len (l1 ++ l2) = len l1 + len l2.
Proof. unfold len. rewrite length_app, plus_INR. reflexivity. Qed.

Lemma len_nonneg {A : Type} (l : list A) : 0 <= len l.
Proof. unfold len. apply pos_INR. Qed.

Lemma len_pos {A : Type} (l : list A) : l <> [] -> 0 < len l.
Proof.
  destruct l as [| x l]; [congruence | intros _].
  rewrite len_cons. pose proof (len_nonneg l). lra.
Qed.

(** ** The lens engine *)

Section LensFacts.
Import Lenses.

Lemma optimize_q_returns (p : LensParameters) (q : R) :
  curve_defined p q -> _optimize_q p q = Ok (q_opt_spec p q).
Proof.
  intros Hc. unfold _optimize_q, q_opt_spec.
  destruct (Rleb q 0) eqn:Hq.
  - apply Rleb_le in Hq.
    assert (Rltb 0 q = false) as -> by (apply Rltb_ge; exact Hq).
    reflexivity.
  - apply Rleb_gt in Hq.
    assert (Rltb 0 q = true) as -> by (apply Rltb_lt; exact Hq).
    destruct Hc as [Hle | [Hki Hden]]; [lra |].
    rewrite (pdiv_ok _ _ Hki). cbn [bind].
    rewrite (pdiv_ok _ _ Hden). reflexivity.
Qed.

Lemma optimize_q_raises (p : LensParameters) (q : R) :
  ~ curve_defined p q -> _optimize_q p q = Raise ZeroDivisionError.
Proof.
  intros Hn. unfold _optimize_q.
  destruct (Rleb q 0) eqn:Hq.
  - apply Rleb_le in Hq. exfalso. apply Hn. left. exact Hq.
  - unfold pdiv at 1. destruct (Req_dec_T (ki p) 0) as [E | N]; [reflexivity |].
    cbn [bind]. unfold pdiv.
    destruct (Req_dec_T (km p + q + q * q / ki p) 0) as [E | N']; [reflexivity |].
    exfalso. apply Hn. right. split; assumption.
Qed.

(** [interpret] returns, with the specified coherence, as soon as no
    division is by zero. *)
Lemma interpret_returns (lens : CulturalLens) (psi rho q f tau : R) :
  total_weight (params lens) <> 0 ->
  curve_defined (params lens) q ->
  exists i,
    interpret lens psi rho q f tau = Ok i
    /\ coherence i = coherence_spec (params lens) psi rho q f tau
    /\ lens_name i = name lens.
Proof.
  intros Hw Hc. unfold interpret.
  rewrite (optimize_q_returns _ _ Hc). cbn [bind].
  rewrite (pdiv_ok _ _ Hw). cbn [bind].
  eexists. split; [reflexivity |]. split; reflexivity.
Qed.

Lemma positive_total_weight (p : LensParameters) :
  positive_weights p -> total_weight p <> 0.
Proof.
  unfold positive_weights, total_weight. intros (H1 & H2 & H3 & H4 & H5). lra.
Qed.

Lemma curve_defined_positive (p : LensParameters) (q : R) :
  0 <= km p -> 0 < ki p -> curve_defined p q.
Proof.
  intros Hkm Hki. destruct (Rle_dec q 0) as [Hq | Hq]; [left; exact Hq | right].
  split; [lra |].
  assert (0 < q * q / ki p).
  { apply Rdiv_lt_0_compat; [nra | exact Hki]. }
  lra.
Qed.

End LensFacts.

Section InterpretClaims.
Import Lenses.

(** C1, as stated, fails: with positive weights and [ki = 0], [interpret]
    raises [ZeroDivisionError] at q = 0.35 and returns no coherence. *)
Lemma interpret_formula_fails_at_zero_ki :
  ~ interpret_formula_claim zero_ki_lens 0.75 0.6 0.35 0.45 0.5.
Proof.
  unfold interpret_formula_claim. intros H.
  destruct H as (i & Hi & _).
  - unfold positive_weights, zero_ki_lens, mk_lens; cbn. lra.
  - unfold interpret in Hi.
    rewrite optimize_q_raises in Hi; [discriminate |].
    unfold curve_defined, zero_ki_lens, mk_lens; cbn.
    intros [Hq | [Hki _]]; [lra | apply Hki; lra].
Qed.

(** C1 (amended): for every pattern tuple and every lens profile with
    positive weights on which the divisions of the saturating curve are
    defined (q <= 0, or ki <> 0 and km + q + q^2/ki <> 0),
    [interpret] returns a coherence equal to
    (psi*w_psi + rho*w_rho + q_opt*w_q + f*w_f + tau*w_tau) divided by the
    sum of the five weights, with q_opt = q / (km + q + q^2/ki) when q > 0
    and q_opt = 0 when q <= 0; only q is transformed. *)
Theorem interpret_weighted_mean (lens : CulturalLens) (psi rho q f tau : R) :
  positive_weights (params lens) ->
  curve_defined (params lens) q ->
  exists i,
    interpret lens psi rho q f tau = Ok i
    /\ coherence i = coherence_spec (params lens) psi rho q f tau.
Proof.
  intros Hw Hc.
  destruct (interpret_returns lens psi rho q f tau) as (i & Hi & Hcoh & _).
  - apply positive_total_weight, Hw.
  - exact Hc.
  - exists i. split; assumption.
Qed.

Lemma interpret_weighted_mean_combat_veteran :
  exists i,
    interpret combat_veteran 0.75 0.6 0.35 0.45 0.5 = Ok i
    /\ coherence i = coherence_spec (params combat_veteran) 0.75 0.6 0.35 0.45 0.5.
Proof.
  apply interpret_weighted_mean.
  - unfold positive_weights, combat_veteran, mk_lens; cbn.
    repeat split; lra.
  - apply curve_defined_positive; unfold combat_veteran, mk_lens; cbn; lra.
Defined.

(** C8: the coherence [interpret] returns (or the exception it raises)
    depends only on the five dimension values, the five weights and km/ki:
    two profiles that agree on those, whatever their baselines, tolerance
    and expression knobs, give the same coherence. *)
Theorem coherence_ignores_advisory_fields (l1 l2 : CulturalLens)
  (psi rho q f tau : R) :
  same_scoring (params l1) (params l2) ->
  rmap coherence (interpret l1 psi rho q f tau)
  = rmap coherence (interpret l2 psi rho q f tau).
Proof.
  intros (Hpsi & Hrho & Hq & Hf & Htau & Hkm & Hki).
  unfold interpret, rmap, _optimize_q, total_weight.
  rewrite Hpsi, Hrho, Hq, Hf, Htau, Hkm, Hki.
  destruct (Rleb q 0); cbn [bind].
  - destruct (pdiv _ _); reflexivity.
  - destruct (pdiv (q * q) (ki (params l2))); cbn [bind]; [| reflexivity].
    destruct (pdiv q _); cbn [bind]; [| reflexivity].
    destruct (pdiv _ _); reflexivity.
Qed.

Lemma coherence_ignores_advisory_fields_rural :
  rmap coherence (interpret rural_traditional 0.75 0.6 0.35 0.45 0.5)
  = rmap coherence (interpret rural_rebased 0.75 0.6 0.35 0.45 0.5).
Proof.
  apply coherence_ignores_advisory_fields.
  unfold same_scoring, rural_traditional, rural_rebased, mk_lens; cbn.
  repeat split; reflexivity.
Defined.

End InterpretClaims.

(** ** The deviation calculator *)

Section DeviationFacts.
Import Lenses.

Variable lib : LensLibrary.
Variables psi rho q f tau : R.

Lemma interpret_lenses_reads (lenses : list string) (cs : list R) :
  Forall2 (reads lib psi rho q f tau) lenses cs ->
  forall interps cohs,
  exists interps',
    interpret_lenses lib psi rho q f tau lenses interps cohs
    = Ok (interps', cohs ++ cs).
Proof.
  induction 1 as [| n c lenses cs (lens & i & Hget & Hi & Hc) _ IH];
    intros interps cohs; cbn [interpret_lenses].
  - exists interps. rewrite app_nil_r. reflexivity.
  - rewrite Hget, Hi. cbn [bind].
    destruct (IH (dict_set interps n i) (cohs ++ [coherence i])) as (d & Hd).
    exists d. rewrite Hd, Hc, <- app_assoc. reflexivity.
Qed.

Lemma stdev_two_or_more (cs : list R) :
  (List.length cs <? 2)%nat = false ->
  stdev cs = Ok (sqrt (sample_variance cs)).
Proof.
  destruct cs as [| x [| y cs]]; cbn [List.length Nat.ltb Nat.leb];
    try discriminate. reflexivity.
Qed.

(** What [calculate_deviation] returns when every requested name is read. *)
Lemma calculate_deviation_returns (lenses : list string) (cs : list R) :
  Forall2 (reads lib psi rho q f tau) lenses cs ->
  cs <> [] ->
  exists a,
    calculate_deviation lib psi rho q f tau (Some lenses)
    = Ok (deviation_of cs, a)
    /\ deviation a = deviation_of cs
    /\ is_lens_invariant a = Rltb (deviation_of cs) 0.1
    /\ coherence_mean a = rsum cs / len cs
    /\ py_min cs = Ok (fst (coherence_range a))
    /\ py_max cs = Ok (snd (coherence_range a)).
Proof.
  intros Hr Hne. unfold calculate_deviation.
  destruct (interpret_lenses_reads lenses cs Hr [] []) as (d & Hd).
  rewrite Hd. cbn [bind fst snd app].
  assert (Hdev :
    (if (List.length cs <? 2)%nat then Ok 0.0 else stdev cs)
    = Ok (deviation_of cs)).
  { unfold deviation_of. destruct (List.length cs <? 2)%nat eqn:E.
    - f_equal. lra.
    - apply stdev_two_or_more, E. }
  rewrite Hdev. cbn [bind].
  destruct cs as [| x cs]; [congruence |].
  cbn [py_min py_max mean bind].
  eexists. split; [reflexivity |]. cbn. repeat split; reflexivity.
Qed.

(** With no lens read, [min(coherences)] raises. *)
Lemma calculate_deviation_unknown_names (lenses : list string) :
  (forall n, In n lenses -> get_lens lib n = None) ->
  calculate_deviation lib psi rho q f tau (Some lenses) = Raise ValueError.
Proof.
  intros Hnone. unfold calculate_deviation.
  assert (H : forall interps cohs,
    interpret_lenses lib psi rho q f tau lenses interps cohs = Ok (interps, cohs)).
  { induction lenses as [| n l IH]; intros interps cohs; cbn [interpret_lenses].
    - reflexivity.
    - rewrite (Hnone n) by (left; reflexivity).
      apply IH. intros m Hm. apply Hnone. right. exact Hm. }
  rewrite H. reflexivity.
Qed.

End DeviationFacts.

(** ** Sample variance *)

Section Variance.

Lemma sum_sq_expand (a : R) (l : list R) :
  sum_sq a l = sumsq l - 2 * a * rsum l + len l * (a * a).
Proof.
  unfold sum_sq, sumsq. induction l as [| x l IH].
  - unfold len. simpl. lra.
  - rewrite len_cons. cbn [map rsum fold_right] in *. unfold rsum in IH.
    rewrite IH. lra.
Qed.

Lemma sum_sq_nonneg (a : R) (l : list R) : 0 <= sum_sq a l.
Proof.
  unfold sum_sq. induction l as [| x l IH]; cbn [map rsum fold_right].
  - lra.
  - unfold rsum in IH. pose proof (Rle_0_sqr (x - a)) as Hs. unfold Rsqr in Hs. lra.
Qed.

Lemma rsum_repeat (c : R) (n : nat) : rsum (repeat c n) = INR n * c.
Proof.
  induction n as [| n IH].
  - simpl. lra.
  - rewrite S_INR. cbn [repeat rsum fold_right]. unfold rsum in IH.
    rewrite IH. lra.
Qed.

Lemma sum_sq_repeat (c : R) (n : nat) : sum_sq c (repeat c n) = 0.
Proof.
  unfold sum_sq. induction n as [| n IH]; cbn [repeat map rsum fold_right].
  - reflexivity.
  - unfold rsum in IH. rewrite IH. lra.
Qed.

(** Equal coherences have deviation 0. *)
Lemma deviation_of_repeat (c : R) (n : nat) :
  Lenses.deviation_of (repeat c n) = 0.
Proof.
  unfold Lenses.deviation_of. rewrite repeat_length.
  destruct (n <? 2)%nat eqn:E; [reflexivity |].
  apply Nat.ltb_ge in E.
  unfold sample_variance, len. rewrite repeat_length, rsum_repeat.
  assert (Hn : 2 <= INR n) by (apply (le_INR 2), E).
  replace (INR n * c / INR n) with c by (field; lra).
  rewrite sum_sq_repeat.
  replace (0 / (INR n - 1)) with 0 by (field; lra).
  apply sqrt_0.
Qed.

End Variance.

Section VarianceGrowth.

Lemma sumsq_app (l1 l2 : list R) : sumsq (l1 ++ l2) = sumsq l1 + sumsq l2.
Proof. unfold sumsq. rewrite map_app. apply rsum_app. Qed.

Variable cs : list R.
Variable c : R.
Hypothesis two : (2 <= List.length cs)%nat.

Lemma two_le_len : 2 <= len cs.
Proof. apply (le_INR 2), two. Qed.

(** The sample variance after one more point. *)
Lemma variance_after_append :
  sample_variance (cs ++ [c])
  = sample_variance cs
    + (len cs * ((c - rsum cs / len cs) * (c - rsum cs / len cs))
       - (len cs + 1) * sample_variance cs)
      / (len cs * (len cs + 1)).
Proof.
  pose proof two_le_len as Hn.
  unfold sample_variance.
  rewrite !sum_sq_expand, rsum_app, sumsq_app, len_app.
  replace (len [c]) with 1 by (unfold len; simpl; lra).
  replace (rsum [c]) with c by (simpl; lra).
  replace (sumsq [c]) with (c * c) by (unfold sumsq; simpl; lra).
  field. repeat split; lra.
Qed.

Lemma sample_variance_nonneg (l : list R) :
  (2 <= List.length l)%nat -> 0 <= sample_variance l.
Proof.
  intros H. apply (le_INR 2) in H. fold (len l) in H.
  unfold sample_variance.
  apply Rmult_le_pos; [apply sum_sq_nonneg |].
  left. apply Rinv_0_lt_compat. simpl INR in H. lra.
Qed.

Lemma deviation_of_cs : Lenses.deviation_of cs = sqrt (sample_variance cs).
Proof.
  unfold Lenses.deviation_of.
  assert ((List.length cs <? 2)%nat = false) as -> by (apply Nat.ltb_ge, two).
  reflexivity.
Qed.

Lemma deviation_of_cs_c :
  Lenses.deviation_of (cs ++ [c]) = sqrt (sample_variance (cs ++ [c])).
Proof.
  unfold Lenses.deviation_of.
  assert ((List.length (cs ++ [c]) <? 2)%nat = false) as ->.
  { apply Nat.ltb_ge. rewrite length_app. simpl. lia. }
  reflexivity.
Qed.

(** When one more coherence leaves the deviation no smaller. *)
Lemma deviation_of_append_iff :
  Lenses.deviation_of cs <= Lenses.deviation_of (cs ++ [c])
  <-> (len cs + 1) * (Lenses.deviation_of cs * Lenses.deviation_of cs)
      <= len cs * ((c - rsum cs / len cs) * (c - rsum cs / len cs)).
Proof.
  pose proof two_le_len as Hn.
  pose proof (sample_variance_nonneg cs two) as H1.
  assert (H2 : 0 <= sample_variance (cs ++ [c])).
  { apply sample_variance_nonneg. rewrite length_app. simpl. lia. }
  rewrite deviation_of_cs, deviation_of_cs_c, (sqrt_sqrt _ H1).
  set (n := len cs) in *. set (m := rsum cs / n) in *.
  assert (Hv : sample_variance cs <= sample_variance (cs ++ [c])
               <-> (n + 1) * sample_variance cs <= n * ((c - m) * (c - m))).
  { rewrite variance_after_append. fold n. fold m.
    set (v := sample_variance cs) in *.
    set (num := n * ((c - m) * (c - m)) - (n + 1) * v).
    assert (Hd : 0 < / (n * (n + 1))) by (apply Rinv_0_lt_compat; nra).
    unfold Rdiv. split; intros H.
    - assert (0 <= num) by nra. unfold num in *. lra.
    - assert (0 <= num) by (unfold num; lra). nra. }
  rewrite <- Hv. split.
  - apply sqrt_le_0; assumption.
  - apply sqrt_le_1_alt.
Qed.

End VarianceGrowth.

Section DeviationClaims.
Import Lenses.

Lemma interpret_raises (lens : CulturalLens) (psi rho q f tau : R) :
  ~ curve_defined (params lens) q ->
  interpret lens psi rho q f tau = Raise ZeroDivisionError.
Proof.
  intros Hn. unfold interpret. rewrite (optimize_q_raises _ _ Hn). reflexivity.
Qed.

Lemma zero_ki_curve_undefined : ~ curve_defined (params zero_ki_lens) 0.35.
Proof.
  unfold curve_defined, zero_ki_lens, mk_lens; cbn.
  intros [Hq | [Hki _]]; [lra | apply Hki; lra].
Qed.

(** C3, as stated, fails: two lenses with the same profile, whose [ki] is
    0, make [calculate_deviation] raise [ZeroDivisionError]. *)
Lemma identical_lenses_fail_at_zero_ki :
  ~ identical_lenses_claim zero_ki_library 0.75 0.6 0.35 0.45 0.5
      ["zero_ki"; "zero_ki_twin"] (params zero_ki_lens).
Proof.
  unfold identical_lenses_claim. intros H.
  destruct H as (a & Ha & _).
  - simpl. lia.
  - intros n [<- | [<- | []]]; eexists; split; reflexivity.
  - unfold calculate_deviation in Ha. cbn [interpret_lenses] in Ha.
    replace (get_lens zero_ki_library "zero_ki") with (Some zero_ki_lens) in Ha
      by reflexivity.
    rewrite (interpret_raises zero_ki_lens) in Ha
      by exact zero_ki_curve_undefined.
    discriminate.
Qed.

Lemma identical_lenses_read (lib : LensLibrary) (psi rho q f tau : R)
  (p : LensParameters) (lenses : list string) :
  (forall n, In n lenses ->
     exists lens, get_lens lib n = Some lens /\ params lens = p) ->
  interpretable p q ->
  Forall2 (reads lib psi rho q f tau) lenses
    (repeat (coherence_spec p psi rho q f tau) (List.length lenses)).
Proof.
  intros Hall [Hw Hc]. induction lenses as [| n l IH]; cbn [List.length repeat].
  - constructor.
  - constructor.
    + destruct (Hall n) as (lens & Hget & Hp); [left; reflexivity |].
      subst p.
      destruct (interpret_returns lens psi rho q f tau Hw Hc) as (i & Hi & Hcoh & _).
      exists lens, i. repeat split; assumption.
    + apply IH. intros k Hk. apply Hall. right. exact Hk.
Qed.

(** C3 (amended): for every pattern tuple and every collection of at least
    2 lens profiles that are pairwise identical and on which [interpret]
    itself returns (non-zero total weight; q <= 0, or ki <> 0 and
    km + q + q^2/ki <> 0), [calculate_deviation] returns deviation 0 and an
    analysis with [is_lens_invariant] true. *)
Theorem identical_lenses_zero_deviation (lib : LensLibrary)
  (psi rho q f tau : R) (lenses : list string) (p : LensParameters) :
  (2 <= List.length lenses)%nat ->
  (forall n, In n lenses ->
     exists lens, get_lens lib n = Some lens /\ params lens = p) ->
  interpretable p q ->
  exists a,
    calculate_deviation lib psi rho q f tau (Some lenses) = Ok (0, a)
    /\ deviation a = 0
    /\ is_lens_invariant a = true.
Proof.
  intros Hlen Hall Hp.
  pose proof (identical_lenses_read lib psi rho q f tau p lenses Hall Hp) as Hr.
  destruct (calculate_deviation_returns lib psi rho q f tau _ _ Hr)
    as (a & Ha & Hdev & Hinv & _).
  - destruct lenses; [simpl in Hlen; lia | discriminate].
  - rewrite deviation_of_repeat in Ha, Hdev, Hinv.
    exists a. repeat split; try assumption.
    rewrite Hinv. apply Rltb_lt. lra.
Qed.

Lemma identical_lenses_zero_deviation_twins :
  exists a,
    calculate_deviation twin_library 0.75 0.6 0.35 0.45 0.5
      (Some ["rural_traditional"; "rural_twin"]) = Ok (0, a)
    /\ deviation a = 0
    /\ is_lens_invariant a = true.
Proof.
  apply (identical_lenses_zero_deviation twin_library 0.75 0.6 0.35 0.45 0.5
           ["rural_traditional"; "rural_twin"] (params rural_traditional)).
  - simpl. lia.
  - intros n [<- | [<- | []]]; eexists; split; reflexivity.
  - split.
    + unfold total_weight, rural_traditional, mk_lens; cbn. lra.
    + apply curve_defined_positive; unfold rural_traditional, mk_lens; cbn; lra.
Defined.

(** C6: [calculate_deviation] called with an empty list of lens names does
    not return: [min(coherences)] raises [ValueError] on the empty list
    of coherences. *)
Theorem calculate_deviation_empty_list_raises (lib : LensLibrary)
  (psi rho q f tau : R) :
  calculate_deviation lib psi rho q f tau (Some []) = Raise ValueError.
Proof.
  apply calculate_deviation_unknown_names. intros n [].
Qed.

End DeviationClaims.

Section MonotonicityClaim.
Import Lenses.

(** At psi = q = f = tau = 0 and rho = 1 a lens is read at the share of
    its rho weight. *)
Lemma reads_rho_share (lib : LensLibrary) (n : string) (lens : CulturalLens)
  (c : R) :
  get_lens lib n = Some lens ->
  total_weight (params lens) <> 0 ->
  c * total_weight (params lens) = rho_weight (params lens) ->
  reads lib 0 1 0 0 0 n c.
Proof.
  intros Hget Hw Hc.
  destruct (interpret_returns lens 0 1 0 0 0 Hw) as (i & Hi & Hcoh & _).
  { left. lra. }
  exists lens, i. repeat split; try assumption.
  rewrite Hcoh. unfold coherence_spec, q_opt_spec.
  assert (Rltb 0 0 = false) as -> by (apply Rltb_ge; lra).
  fold (total_weight (params lens)).
  apply (Rmult_eq_reg_r (total_weight (params lens))); [| exact Hw].
  rewrite Hc. field. exact Hw.
Qed.

Lemma urban_reads : reads default_lenses 0 1 0 0 0 "urban_contemporary" (9 / 50).
Proof.
  apply (reads_rho_share _ _ urban_contemporary); [reflexivity | |];
    unfold total_weight, urban_contemporary, mk_lens; cbn; lra.
Qed.

Lemma religious_reads :
  reads default_lenses 0 1 0 0 0 "religious_framework" (13 / 58).
Proof.
  apply (reads_rho_share _ _ religious_framework); [reflexivity | |];
    unfold total_weight, religious_framework, mk_lens; cbn; lra.
Qed.

Lemma first_generation_reads :
  reads default_lenses 0 1 0 0 0 "first_generation" (12 / 53).
Proof.
  apply (reads_rho_share _ _ first_generation); [reflexivity | |];
    unfold total_weight, first_generation, mk_lens; cbn; lra.
Qed.

Lemma reads_functional (lib : LensLibrary) (psi rho q f tau : R) (n : string)
  (c c' : R) :
  reads lib psi rho q f tau n c -> reads lib psi rho q f tau n c' -> c = c'.
Proof.
  intros (l & i & Hg & Hi & Hc) (l' & i' & Hg' & Hi' & Hc').
  congruence.
Qed.

Lemma deviation_of_sq (cs : list R) :
  (2 <= List.length cs)%nat ->
  deviation_of cs * deviation_of cs = sample_variance cs.
Proof.
  intros H. rewrite (deviation_of_cs cs H).
  apply sqrt_sqrt, sample_variance_nonneg, H.
Qed.

(** C4, as stated, fails on the built-in library: at (0, 1, 0, 0, 0) the
    lenses urban_contemporary and religious_framework are read at 9/50 and
    13/58; first_generation is read at 12/53, above both, and adding it
    lowers the sample standard deviation. *)
Lemma deviation_drops_with_first_generation :
  ~ deviation_monotone_claim default_lenses 0 1 0 0 0
      ["urban_contemporary"; "religious_framework"] "first_generation".
Proof.
  unfold deviation_monotone_claim. intros H.
  set (cs := [9 / 50; 13 / 58]).
  assert (Hr : Forall2 (reads default_lenses 0 1 0 0 0)
                 ["urban_contemporary"; "religious_framework"] cs).
  { repeat constructor; [apply urban_reads | apply religious_reads]. }
  assert (Hr' : Forall2 (reads default_lenses 0 1 0 0 0)
                  (["urban_contemporary"; "religious_framework"]
                   ++ ["first_generation"]) (cs ++ [12 / 53])).
  { repeat constructor;
      [apply urban_reads | apply religious_reads | apply first_generation_reads]. }
  destruct (calculate_deviation_returns _ _ _ _ _ _ _ _ Hr)
    as (a1 & Ha1 & _ & _ & _ & Hmin & Hmax); [discriminate |].
  destruct (calculate_deviation_returns _ _ _ _ _ _ _ _ Hr')
    as (a2 & Ha2 & _); [discriminate |].
  assert (Hhi : snd (coherence_range a1) = 13 / 58).
  { cbn in Hmax. injection Hmax as <-. unfold Rmax.
    destruct (Rle_dec (9 / 50) (13 / 58)); lra. }
  specialize (H ltac:(simpl; lia) _ _ _ _ (12 / 53) Ha1 first_generation_reads
                ltac:(right; rewrite Hhi; lra) Ha2).
  assert (Htwo : (2 <= List.length cs)%nat) by (simpl; lia).
  apply (deviation_of_append_iff cs (12 / 53) Htwo) in H.
  rewrite (deviation_of_sq cs Htwo) in H.
  unfold cs, sample_variance, sum_sq, rsum, len in H. cbn in H. lra.
Qed.

(** C4 (amended): for every fixed pattern tuple and every set of n >= 2
    lens profiles read at coherences with mean m and sample standard
    deviation s, [calculate_deviation] returns s; extended by one more
    profile read at coherence c it returns the sample standard deviation of
    the n + 1 coherences, which is no smaller than s if and only if
    (n + 1) * s^2 <= n * (c - m)^2; a coherence outside the current
    [min, max] range need not satisfy this. *)
Theorem deviation_after_adding_lens (lib : LensLibrary) (psi rho q f tau : R)
  (lenses : list string) (cs : list R) (extra : string) (c : R) :
  (2 <= List.length lenses)%nat ->
  Forall2 (reads lib psi rho q f tau) lenses cs ->
  reads lib psi rho q f tau extra c ->
  exists a1 a2,
    calculate_deviation lib psi rho q f tau (Some lenses) = Ok (sample_sd cs, a1)
    /\ deviation a1 = sample_sd cs
    /\ coherence_mean a1 = sample_mean cs
    /\ calculate_deviation lib psi rho q f tau (Some (lenses ++ [extra]))
       = Ok (sample_sd (cs ++ [c]), a2)
    /\ deviation a2 = sample_sd (cs ++ [c])
    /\ (sample_sd cs <= sample_sd (cs ++ [c])
        <-> (len lenses + 1) * (sample_sd cs * sample_sd cs)
            <= len lenses * ((c - sample_mean cs) * (c - sample_mean cs))).
Proof.
  intros Hlen Hr Hc.
  assert (Hcs : List.length cs = List.length lenses)
    by (symmetry; apply (Forall2_length Hr)).
  assert (Htwo : (2 <= List.length cs)%nat) by lia.
  assert (Hr' : Forall2 (reads lib psi rho q f tau) (lenses ++ [extra]) (cs ++ [c])).
  { apply Forall2_app; [exact Hr | repeat constructor; exact Hc]. }
  destruct (calculate_deviation_returns _ _ _ _ _ _ _ _ Hr)
    as (a1 & Ha1 & Hd1 & _ & Hm1 & _).
  { destruct cs; [simpl in Hcs; lia | discriminate]. }
  destruct (calculate_deviation_returns _ _ _ _ _ _ _ _ Hr')
    as (a2 & Ha2 & Hd2 & _).
  { destruct cs; discriminate. }
  pose proof (deviation_of_append_iff cs c Htwo) as Hiff.
  rewrite (deviation_of_cs cs Htwo) in Ha1, Hd1, Hiff.
  rewrite (deviation_of_cs_c cs c Htwo) in Ha2, Hd2, Hiff.
  replace (len lenses) with (len cs) by (unfold len; rewrite Hcs; reflexivity).
  exists a1, a2.
  split; [exact Ha1 |]. split; [exact Hd1 |]. split; [exact Hm1 |].
  split; [exact Ha2 |]. split; [exact Hd2 |]. exact Hiff.
Qed.

End MonotonicityClaim.

Section MonotonicityWitness.
Import Lenses.

Lemma deviation_after_adding_first_generation :
  exists a1 a2,
    calculate_deviation default_lenses 0 1 0 0 0
      (Some ["urban_contemporary"; "religious_framework"])
    = Ok (sample_sd [9 / 50; 13 / 58], a1)
    /\ deviation a1 = sample_sd [9 / 50; 13 / 58]
    /\ coherence_mean a1 = sample_mean [9 / 50; 13 / 58]
    /\ calculate_deviation default_lenses 0 1 0 0 0
         (Some (["urban_contemporary"; "religious_framework"]
                ++ ["first_generation"]))
       = Ok (sample_sd ([9 / 50; 13 / 58] ++ [12 / 53]), a2)
    /\ deviation a2 = sample_sd ([9 / 50; 13 / 58] ++ [12 / 53])
    /\ (sample_sd [9 / 50; 13 / 58] <= sample_sd ([9 / 50; 13 / 58] ++ [12 / 53])
        <-> (len ["urban_contemporary"; "religious_framework"] + 1)
            * (sample_sd [9 / 50; 13 / 58] * sample_sd [9 / 50; 13 / 58])
            <= len ["urban_contemporary"; "religious_framework"]
               * ((12 / 53 - sample_mean [9 / 50; 13 / 58])
                  * (12 / 53 - sample_mean [9 / 50; 13 / 58]))).
Proof.
  apply (deviation_after_adding_lens default_lenses 0 1 0 0 0
           ["urban_contemporary"; "religious_framework"] [9 / 50; 13 / 58]
           "first_generation" (12 / 53)).
  - simpl. lia.
  - repeat constructor; [apply urban_reads | apply religious_reads].
  - apply first_generation_reads.
Defined.

End MonotonicityWitness.

(** ** The text extractor *)

Section TextFacts.
Import Analyzers.

Lemma INR_ratio_unit (a b : nat) :
  (0 < a + b)%nat -> 0 <= INR b / INR (a + b) <= 1.
Proof.
  intros H. assert (Hp : 0 < INR (a + b)) by (apply lt_0_INR, H).
  pose proof (pos_INR a). pose proof (pos_INR b).
  rewrite plus_INR in *. split.
  - apply Rmult_le_pos; [assumption | left; apply Rinv_0_lt_compat, Hp].
  - apply (Rmult_le_reg_r (INR a + INR b)); [exact Hp |].
    unfold Rdiv. rewrite Rmult_assoc, Rinv_l by lra. lra.
Qed.

(** What [_extract_pattern_regex] returns, by the counts it takes. *)
Lemma extract_pattern_regex_returns (text : string) :
  exists r,
    _extract_pattern_regex text = Ok r
    /\ psi r = 0.7
    /\ confidence r = 0.6
    /\ source_count r = 1%nat
    /\ 0.3 <= q r <= 1
    /\ 0.3 <= rho r <= 1
    /\ 0.1 <= tau r <= 1
    /\ 0 <= f r <= 1.
Proof.
  unfold _extract_pattern_regex.
  set (tl := lower text).
  set (iso := count_matches isolation_patterns tl).
  set (con := count_matches connection_patterns tl).
  set (act := count_matches activation_patterns tl).
  set (exc := count_char "!"%char text).
  set (wis := count_matches wisdom_patterns tl).
  set (past := count_matches past_patterns tl).
  set (pres := count_matches present_patterns tl).
  clearbody iso con act exc wis past pres.
  pose proof (pos_INR act). pose proof (pos_INR exc). pose proof (pos_INR wis).
  pose proof (pos_INR past). pose proof (pos_INR pres).
  assert (Hf : exists x,
    (if (0 <? iso + con)%nat then pdiv (INR con) (INR (iso + con)) else Ok 0.5)
    = Ok x /\ 0 <= x <= 1).
  { destruct (0 <? iso + con)%nat eqn:E.
    - apply Nat.ltb_lt in E. exists (INR con / INR (iso + con)). split.
      + apply pdiv_ok. apply not_0_INR. lia.
      + apply INR_ratio_unit, E.
    - exists 0.5. split; [reflexivity | lra]. }
  destruct Hf as (x & -> & Hx). cbn [bind].
  eexists. split; [reflexivity |].
  cbn [psi rho q f tau confidence source_count].
  repeat match goal with |- _ /\ _ => split end; try reflexivity; try lra.
  - unfold Rmin. destruct (Rle_dec _ _); lra.
  - unfold Rmin. destruct (Rle_dec _ _); lra.
  - unfold Rmin. destruct (Rle_dec _ _); lra.
  - unfold Rmin. destruct (Rle_dec _ _); lra.
  - destruct (pres <? past)%nat; [| destruct (past <? pres)%nat].
    + unfold Rmin. destruct (Rle_dec _ _); lra.
    + unfold Rmax. destruct (Rle_dec _ _); lra.
    + lra.
  - destruct (pres <? past)%nat; [| destruct (past <? pres)%nat].
    + unfold Rmin. destruct (Rle_dec _ _); lra.
    + unfold Rmax. destruct (Rle_dec _ _); lra.
    + lra.
Qed.

(** C10: for every input string, the text-mode regex extractor returns
    q >= 0.3, rho >= 0.3, tau >= 0.1, psi exactly 0.7 and confidence
    exactly 0.6. *)
Theorem regex_extractor_floors (text : string) :
  exists r,
    _extract_pattern_regex text = Ok r
    /\ 0.3 <= q r
    /\ 0.3 <= rho r
    /\ 0.1 <= tau r
    /\ psi r = 0.7
    /\ confidence r = 0.6.
Proof.
  destruct (extract_pattern_regex_returns text)
    as (r & Hr & Hpsi & Hconf & _ & Hq & Hrho & Htau & _).
  exists r. repeat split; try assumption; lra.
Qed.

End TextFacts.

Section MaskingScenario.
Import Analyzers.

Lemma cisd_text_processing_matches :
  flat_map (fun p => findall p (lower cisd_text)) PROCESSING_INDICATORS
  = ["support"].
Proof. vm_compute. reflexivity. Qed.

Lemma cisd_text_performance_matches :
  flat_map (fun p => findall p (lower cisd_text)) PERFORMANCE_INDICATORS
  = ["fine"].
Proof. vm_compute. reflexivity. Qed.

Lemma cisd_text_no_environmental_concern :
  map snd (filter (fun pc => search (fst pc) (lower cisd_text)) ENVIRONMENTAL_CONCERNS)
  = [].
Proof. vm_compute. reflexivity. Qed.

Lemma analyze_cisd_text (fac_notes : option string) :
  exists r,
    analyze cisd_text fac_notes = Ok r
    /\ performance_ratio r = 0.5
    /\ processing_ratio r = 0.5
    /\ environmental_concerns r = [].
Proof.
  unfold analyze.
  rewrite cisd_text_processing_matches, cisd_text_performance_matches,
    cisd_text_no_environmental_concern.
  destruct (extract_pattern_regex_returns cisd_text) as (pat & Hpat & _).
  rewrite Hpat.
  cbn [List.length Nat.add Nat.ltb Nat.leb].
  assert (H2 : INR 2 <> 0) by (apply not_0_INR; discriminate).
  rewrite !(pdiv_ok _ _ H2). cbn [bind fst snd].
  eexists. split; [reflexivity |].
  cbn [performance_ratio processing_ratio environmental_concerns].
  unfold len. cbn [List.length]. simpl INR. repeat split; lra.
Qed.

(** C9, as stated, fails: on the masking report the performance ratio
    does not exceed the processing ratio. *)
Lemma masking_scenario_not_dominated : ~ masking_scenario_claim.
Proof.
  intros (r & Hr & Hlt & _).
  destruct (analyze_cisd_text None) as (r' & Hr' & Hperf & Hproc & _).
  rewrite Hr in Hr'. injection Hr' as <-. lra.
Qed.

(** C9 (amended): for the masking report, [CISDAnalyzer.analyze] returns
    a performance ratio equal to its processing ratio, both 0.5 (the one
    match "fine" against the one match "support"; "normally" and "handling"
    match no indicator), and an empty list of environmental concerns. *)
Theorem masking_scenario_ratios_equal (fac_notes : option string) :
  exists r,
    analyze cisd_text fac_notes = Ok r
    /\ performance_ratio r = processing_ratio r
    /\ performance_ratio r = 0.5
    /\ environmental_concerns r = [].
Proof.
  destruct (analyze_cisd_text fac_notes) as (r & Hr & Hperf & Hproc & Henv).
  exists r. repeat split; try assumption. lra.
Qed.

End MaskingScenario.

(** ** Dictionaries *)

Section DictFacts.
Context {V : Type}.

Lemma dict_get_set_same (d : dict V) (k : string) (v : V) :
  dict_get (dict_set d k v) k = Some v.
Proof.
  induction d as [| [k' v'] d IH]; cbn [dict_set dict_get].
  - rewrite String.eqb_refl. reflexivity.
  - destruct (String.eqb k' k) eqn:E; cbn [dict_get]; rewrite E;
      [reflexivity | exact IH].
Qed.

Lemma dict_set_set_same (d : dict V) (k : string) (v v' : V) :
  dict_set (dict_set d k v) k v' = dict_set d k v'.
Proof.
  induction d as [| [k0 v0] d IH]; cbn [dict_set].
  - rewrite String.eqb_refl. reflexivity.
  - destruct (String.eqb k0 k) eqn:E; cbn [dict_set]; rewrite E;
      [reflexivity | rewrite IH; reflexivity].
Qed.

Lemma dict_get_none (d : dict V) (k : string) :
  dict_get d k = None <-> ~ In k (keys d).
Proof.
  induction d as [| [k' v'] d IH]; cbn [dict_get keys map fst In].
  - tauto.
  - destruct (String.eqb k' k) eqn:E.
    + apply String.eqb_eq in E. split; [discriminate | intros H; exfalso; auto].
    + apply String.eqb_neq in E. unfold keys in IH. rewrite IH. tauto.
Qed.

Lemma dict_get_in (d : dict V) (k : string) (v : V) :
  NoDup (keys d) -> (dict_get d k = Some v <-> In (k, v) d).
Proof.
  induction d as [| [k' v'] d IH]; cbn [dict_get keys map fst In]; intros Hnd.
  - split; [discriminate | tauto].
  - inversion Hnd as [| ? ? Hnot Hnd']; subst.
    destruct (String.eqb k' k) eqn:E.
    + apply String.eqb_eq in E. subst k'. split.
      * intros [= ->]. left. reflexivity.
      * intros [[= ->] | Hin]; [reflexivity |].
        exfalso. apply Hnot. apply (in_map fst) in Hin. exact Hin.
    + apply String.eqb_neq in E. rewrite (IH Hnd'). split.
      * intros H. right. exact H.
      * intros [[= -> _] | H]; [congruence | exact H].
Qed.

Lemma in_dict_set (d : dict V) (k k' : string) (v v' : V) :
  NoDup (keys d) ->
  (In (k', v') (dict_set d k v)
   <-> (k' = k /\ v' = v) \/ (k' <> k /\ In (k', v') d)).
Proof.
  induction d as [| [k0 v0] d IH]; cbn [dict_set keys map fst]; intros Hnd.
  - cbn [In]. split.
    + intros [[= -> ->] | []]. left. split; reflexivity.
    + intros [[-> ->] | [_ []]]. left. reflexivity.
  - inversion Hnd as [| ? ? Hnot Hnd']; subst.
    destruct (String.eqb k0 k) eqn:E.
    + apply String.eqb_eq in E. subst k0. cbn [In]. split.
      * intros [[= -> ->] | Hin]; [left; split; reflexivity |].
        right. split; [| right; exact Hin].
        intros ->. apply Hnot. apply (in_map fst) in Hin. exact Hin.
      * intros [[-> ->] | [Hne [[= -> _] | Hin]]];
          [left; reflexivity | congruence | right; exact Hin].
    + apply String.eqb_neq in E. cbn [In]. rewrite (IH Hnd'). split.
      * intros [[= -> ->] | [H | [Hne Hin]]].
        -- right. split; [congruence | left; reflexivity].
        -- left. exact H.
        -- right. split; [exact Hne | right; exact Hin].
      * intros [H | [Hne [[= -> ->] | Hin]]].
        -- right. left. exact H.
        -- left. reflexivity.
        -- right. right. split; assumption.
Qed.

Lemma keys_dict_set (d : dict V) (k : string) (v : V) :
  keys (dict_set d k v) = if in_dec string_dec k (keys d) then keys d
                          else keys d ++ [k].
Proof.
  induction d as [| [k0 v0] d IH]; cbn [dict_set keys map fst].
  - destruct (in_dec string_dec k []) as [[] | _]. reflexivity.
  - destruct (String.eqb k0 k) eqn:E.
    + apply String.eqb_eq in E. subst k0.
      destruct (in_dec string_dec k (k :: map fst d)) as [_ | N];
        [reflexivity | exfalso; apply N; left; reflexivity].
    + apply String.eqb_neq in E. cbn [map fst]. fold (keys (dict_set d k v)).
      rewrite IH. fold (keys d).
      destruct (in_dec string_dec k (keys d)) as [I | N];
        destruct (in_dec string_dec k (k0 :: keys d)) as [I' | N'];
        try reflexivity.
      * exfalso. apply N'. right. exact I.
      * exfalso. destruct I' as [-> | I']; [congruence | contradiction].
Qed.

Lemma NoDup_keys_dict_set (d : dict V) (k : string) (v : V) :
  NoDup (keys d) -> NoDup (keys (dict_set d k v)).
Proof.
  intros Hnd. rewrite keys_dict_set.
  destruct (in_dec string_dec k (keys d)) as [I | N]; [exact Hnd |].
  apply NoDup_app; [exact Hnd | repeat constructor; intros [] | ].
  intros x Hx [<- | []]. contradiction.
Qed.

End DictFacts.

(** ** Grouping by position *)

Section GroupingFacts.
Import Athletic.

Lemma add_to_group_set (d : dict (list InjuryRecord)) (i : InjuryRecord) :
  add_to_group d i
  = dict_set d (position_group i)
      (match dict_get d (position_group i) with
       | Some l => l ++ [i]
       | None => [i]
       end).
Proof.
  unfold add_to_group.
  destruct (dict_get d (position_group i)) as [l |] eqn:E.
  - rewrite E. reflexivity.
  - rewrite dict_get_set_same, dict_set_set_same. reflexivity.
Qed.

Lemma injuries_of_group_snoc (g : string) (inj : list InjuryRecord)
  (i : InjuryRecord) :
  injuries_of_group g (inj ++ [i])
  = injuries_of_group g inj
    ++ (if String.eqb (position_group i) g then [i] else []).
Proof.
  unfold injuries_of_group. rewrite filter_app. cbn [filter].
  destruct (String.eqb (position_group i) g); reflexivity.
Qed.

Lemma groups_of_add (d : dict (list InjuryRecord)) (inj : list InjuryRecord)
  (i : InjuryRecord) :
  groups_of d inj -> groups_of (add_to_group d i) (inj ++ [i]).
Proof.
  intros [Hnd Hin]. rewrite add_to_group_set. split.
  - apply NoDup_keys_dict_set, Hnd.
  - intros g l. rewrite (in_dict_set _ _ _ _ _ Hnd), injuries_of_group_snoc.
    set (gi := position_group i).
    assert (Hcur :
      match dict_get d gi with Some l0 => l0 ++ [i] | None => [i] end
      = injuries_of_group gi inj ++ [i]).
    { destruct (dict_get d gi) as [l0 |] eqn:E.
      - apply (dict_get_in _ _ _ Hnd) in E. apply Hin in E as [-> _]. reflexivity.
      - destruct (injuries_of_group gi inj) as [| x l0] eqn:El; [reflexivity |].
        exfalso. apply dict_get_none in E. apply E.
        assert (Hmem : In (gi, x :: l0) d) by (apply Hin; split; [auto | discriminate]).
        apply (in_map fst) in Hmem. exact Hmem. }
    rewrite Hcur. split.
    + intros [[-> ->] | [Hne H]].
      * rewrite String.eqb_refl. split; [reflexivity |].
        intros Habs. apply app_eq_nil in Habs as [_ Habs]. discriminate.
      * apply Hin in H as [-> Hl].
        assert (String.eqb gi g = false) as -> by (apply String.eqb_neq; congruence).
        rewrite app_nil_r. split; [reflexivity | exact Hl].
    + intros [-> Hl]. destruct (String.eqb gi g) eqn:E.
      * apply String.eqb_eq in E. left. split; [congruence |]. rewrite E. reflexivity.
      * apply String.eqb_neq in E. right. split; [congruence |].
        rewrite app_nil_r in *. apply Hin. split; [reflexivity | exact Hl].
Qed.

Lemma groups_of_fold (l : list InjuryRecord) :
  forall d inj, groups_of d inj ->
  groups_of (fold_left add_to_group l d) (inj ++ l).
Proof.
  induction l as [| i l IH]; intros d inj H; cbn [fold_left].
  - rewrite app_nil_r. exact H.
  - replace (inj ++ i :: l) with ((inj ++ [i]) ++ l)
      by (rewrite <- app_assoc; reflexivity).
    apply IH, groups_of_add, H.
Qed.

(** [position_groups] holds, for each position group that occurs, its
    injuries, and nothing else. *)
Lemma group_by_position_groups (injuries : list InjuryRecord) :
  groups_of (group_by_position injuries) injuries.
Proof.
  unfold group_by_position.
  apply (groups_of_fold injuries [] []). split.
  - constructor.
  - intros g l. cbn. split; [tauto | intros [-> H]; apply H; reflexivity].
Qed.

(** The loop over the groups never divides by zero. *)
Lemma positional_flags_returns (now : datetime) (d : dict (list InjuryRecord)) :
  (forall g l, In (g, l) d -> l <> []) ->
  forall flags,
    positional_flags now d flags = Ok (flags ++ flat_map (group_flags now) d).
Proof.
  induction d as [| [g l] d IH]; intros Hne flags; cbn [positional_flags flat_map].
  - rewrite app_nil_r. reflexivity.
  - assert (Hl : len l <> 0).
    { apply Rgt_not_eq, len_pos, (Hne g). left. reflexivity. }
    assert (Hd : forall g' l', In (g', l') d -> l' <> []).
    { intros g' l' H. apply (Hne g'). right. exact H. }
    unfold group_flags at 1. cbn [fst snd].
    destruct (3 <=? List.length (filter is_soft_tissue l))%nat; cbn [andb].
    + rewrite (pdiv_ok _ _ Hl). cbn [bind].
      destruct (Rltb 0.5 _).
      * rewrite (IH Hd), <- app_assoc. reflexivity.
      * rewrite (IH Hd). reflexivity.
    + rewrite (IH Hd). reflexivity.
Qed.

Lemma recovery_len_nonzero (recovery : list RecoveryMetric) :
  recovery <> [] -> len (readiness_gaps recovery) <> 0.
Proof.
  intros H. apply Rgt_not_eq, len_pos. unfold readiness_gaps.
  destruct recovery; [congruence | discriminate].
Qed.

Lemma len_readiness_gaps (recovery : list RecoveryMetric) :
  len (readiness_gaps recovery) = len recovery.
Proof. unfold len, readiness_gaps. rewrite length_map. reflexivity. Qed.

(** What [_detect_systemic_flags] returns. *)
Lemma detect_systemic_flags_returns (now : datetime)
  (injuries : list InjuryRecord) (training : list TrainingLoad)
  (recovery : list RecoveryMetric) :
  _detect_systemic_flags now injuries training recovery
  = Ok (flat_map (group_flags now) (group_by_position injuries)
        ++ match recovery with
           | [] => []
           | _ => if Rltb 2.0 (mean_gap recovery)
                  then [disclosure_flag now recovery] else []
           end).
Proof.
  unfold _detect_systemic_flags.
  destruct (group_by_position_groups injuries) as [_ Hin].
  rewrite positional_flags_returns.
  2:{ intros g l H. apply Hin in H. tauto. }
  cbn [bind app].
  destruct recovery as [| r recovery]; [rewrite app_nil_r; reflexivity |].
  rewrite pdiv_ok by (apply recovery_len_nonzero; discriminate).
  cbn [bind]. unfold mean_gap. rewrite len_readiness_gaps.
  destruct (Rltb 2.0 _); [reflexivity | rewrite app_nil_r; reflexivity].
Qed.

End GroupingFacts.

(** ** The athletic dimension calculators *)

Section CalculatorFacts.
Import Athletic.

Lemma rsum_bounds (a b : R) (l : list R) :
  Forall (fun x => a <= x <= b) l -> a * len l <= rsum l <= b * len l.
Proof.
  induction 1 as [| x l Hx _ IH].
  - unfold len. simpl. lra.
  - rewrite len_cons. cbn [rsum fold_right]. unfold rsum in IH. lra.
Qed.

Lemma mean_bounds (a b : R) (l : list R) :
  l <> [] -> Forall (fun x => a <= x <= b) l -> a <= rsum l / len l <= b.
Proof.
  intros Hne Hall. pose proof (len_pos l Hne) as Hp.
  pose proof (rsum_bounds a b l Hall) as [Hlo Hhi].
  assert (Hi : 0 < / len l) by (apply Rinv_0_lt_compat, Hp).
  unfold Rdiv. split.
  - replace a with (a * len l * / len l) by (field; lra).
    apply Rmult_le_compat_r; lra.
  - replace b with (b * len l * / len l) by (field; lra).
    apply Rmult_le_compat_r; lra.
Qed.

Lemma filter_ratio_unit {A : Type} (p : A -> bool) (l : list A) (d : nat) :
  (List.length l <= d)%nat -> (0 < d)%nat ->
  0 <= INR (List.length (filter p l)) / INR d <= 1.
Proof.
  intros Hle Hd.
  assert (Hf : (List.length (filter p l) <= d)%nat).
  { etransitivity; [apply filter_length_le | exact Hle]. }
  apply le_INR in Hf. apply lt_0_INR in Hd.
  pose proof (pos_INR (List.length (filter p l))) as Hp.
  assert (Hi : 0 < / INR d) by (apply Rinv_0_lt_compat, Hd).
  unfold Rdiv. split.
  - apply Rmult_le_pos; lra.
  - replace 1 with (INR d * / INR d) by (field; lra).
    apply Rmult_le_compat_r; lra.
Qed.

Lemma Rmin_unit (x : R) : 0 <= x -> 0 <= 1 - Rmin x 1 <= 1.
Proof. intros H. unfold Rmin. destruct (Rle_dec x 1); lra. Qed.

Lemma load_coherence_returns (training : list TrainingLoad) :
  exists r,
    _calculate_load_coherence training = Ok r
    /\ unit_interval (value r)
    /\ (training = [] -> r = no_data "psi" "Insufficient training data").
Proof.
  destruct training as [| t training].
  - eexists. split; [reflexivity |]. split; [| reflexivity].
    unfold unit_interval. cbn. lra.
  - unfold _calculate_load_coherence.
    set (loads := map load_score (t :: training)).
    assert (Hv : exists v,
      (if (List.length loads <? 2)%nat then Ok 0.5
       else sd <- stdev loads ;; Ok (sd / 10)) = Ok v /\ 0 <= v).
    { destruct (List.length loads <? 2)%nat eqn:E.
      - exists 0.5. split; [reflexivity | lra].
      - rewrite (stdev_two_or_more loads E). cbn [bind].
        eexists. split; [reflexivity |].
        pose proof (sqrt_pos (sample_variance loads)).
        lra. }
    destruct Hv as (v & -> & Hv). cbn [bind].
    eexists. split; [reflexivity |]. split; [| discriminate].
    unfold unit_interval. cbn [value]. apply Rmin_unit, Hv.
Qed.

Lemma history_integration_returns (injuries : list InjuryRecord) :
  exists r,
    _calculate_history_integration injuries = Ok r
    /\ unit_interval (value r)
    /\ (injuries = [] -> r = no_data "rho" "Insufficient injury history").
Proof.
  destruct injuries as [| i injuries].
  - eexists. split; [reflexivity |]. split; [| reflexivity].
    unfold unit_interval. cbn. lra.
  - unfold _calculate_history_integration.
    rewrite pdiv_ok by (apply Rgt_not_eq, len_pos; discriminate).
    cbn [bind]. eexists. split; [reflexivity |]. split; [| discriminate].
    unfold unit_interval. cbn [value].
    pose proof (filter_ratio_unit is_recurrence (i :: injuries)
                  (List.length (i :: injuries)) (le_n _)) as H.
    unfold len. cbn [List.length] in *. specialize (H (Nat.lt_0_succ _)). lra.
Qed.

Lemma strain_accumulation_returns (training : list TrainingLoad)
  (injuries : list InjuryRecord) :
  exists r,
    _calculate_strain_accumulation training injuries = Ok r
    /\ (training <> [] ->
        value r
        = (rsum (map intensity training) / len training
           + INR (List.length (filter is_soft_tissue injuries))
             / INR (Nat.max (List.length injuries) 1)) / 2)
    /\ (Forall intensity_in_scale training -> unit_interval (value r))
    /\ (training = [] -> r = no_data "q" "Insufficient data for strain analysis").
Proof.
  destruct training as [| t training].
  - eexists. split; [reflexivity |]. split; [congruence |].
    split; [| reflexivity]. intros _. unfold unit_interval. cbn. lra.
  - unfold _calculate_strain_accumulation.
    rewrite pdiv_ok by (apply Rgt_not_eq, len_pos; discriminate).
    cbn [bind].
    rewrite pdiv_ok by (apply not_0_INR; lia).
    cbn [bind]. eexists. split; [reflexivity |]. cbn [value].
    split; [reflexivity |]. split; [| discriminate].
    intros Hall. unfold unit_interval.
    assert (Hm : 0 <= rsum (map intensity (t :: training)) / len (t :: training) <= 1).
    { replace (len (t :: training)) with (len (map intensity (t :: training)))
        by (unfold len; rewrite length_map; reflexivity).
      apply mean_bounds; [discriminate |].
      apply Forall_map. exact Hall. }
    pose proof (filter_ratio_unit is_soft_tissue injuries
                  (Nat.max (List.length injuries) 1)
                  (Nat.le_max_l _ _) ltac:(lia)) as Hs.
    lra.
Qed.

Lemma gaps_in_scale (recovery : list RecoveryMetric) :
  Forall readiness_in_scale recovery ->
  Forall (fun x => 0 <= x <= 10) (readiness_gaps recovery).
Proof.
  intros H. unfold readiness_gaps. apply Forall_map.
  apply (Forall_impl _ (P := readiness_in_scale)); [| exact H].
  intros r [Hr Ho]. unfold Rabs. destruct (Rcase_abs _); lra.
Qed.

Lemma team_protection_returns (recovery : list RecoveryMetric) :
  exists r,
    _calculate_team_protection recovery = Ok r
    /\ (recovery <> [] -> value r = 1 - mean_gap recovery / 10)
    /\ (Forall readiness_in_scale recovery -> unit_interval (value r))
    /\ (recovery = [] -> r = no_data "f" "Insufficient recovery data").
Proof.
  destruct recovery as [| m recovery].
  - eexists. split; [reflexivity |]. split; [congruence |].
    split; [| reflexivity]. intros _. unfold unit_interval. cbn. lra.
  - unfold _calculate_team_protection.
    rewrite pdiv_ok by (apply recovery_len_nonzero; discriminate).
    cbn [bind]. eexists. split; [reflexivity |]. cbn [value].
    split; [intros _; unfold mean_gap; rewrite len_readiness_gaps; reflexivity |].
    split; [| discriminate].
    intros Hall. unfold unit_interval.
    pose proof (mean_bounds 0 10 (readiness_gaps (m :: recovery))
                  ltac:(discriminate) (gaps_in_scale _ Hall)).
    lra.
Qed.

Lemma recovery_depth_returns (recovery : list RecoveryMetric) :
  exists r,
    _calculate_recovery_depth recovery = Ok r
    /\ (recovery <> [] ->
        value r = rsum (map objective_readiness recovery) / len recovery / 10)
    /\ (Forall readiness_in_scale recovery -> unit_interval (value r))
    /\ (recovery = [] -> r = no_data "tau" "Insufficient recovery data").
Proof.
  destruct recovery as [| m recovery].
  - eexists. split; [reflexivity |]. split; [congruence |].
    split; [| reflexivity]. intros _. unfold unit_interval. cbn. lra.
  - unfold _calculate_recovery_depth.
    rewrite pdiv_ok by (apply Rgt_not_eq, len_pos; discriminate).
    cbn [bind]. eexists. split; [reflexivity |]. cbn [value].
    split; [reflexivity |]. split; [| discriminate].
    intros Hall. unfold unit_interval.
    assert (Hm : 0 <= rsum (map objective_readiness (m :: recovery))
                      / len (m :: recovery) <= 10).
    { replace (len (m :: recovery))
        with (len (map objective_readiness (m :: recovery)))
        by (unfold len; rewrite length_map; reflexivity).
      apply mean_bounds; [discriminate |].
      apply Forall_map.
      apply (Forall_impl _ (P := readiness_in_scale)); [| exact Hall].
      intros r [_ Ho]. exact Ho. }
    lra.
Qed.

(** [calculate] returns on every input, with the flags of
    [_detect_systemic_flags]. *)
Lemma calculate_returns (org : string) (now : datetime)
  (injuries : list InjuryRecord) (training : list TrainingLoad)
  (recovery : list RecoveryMetric) :
  exists snap flags,
    calculate org now injuries training recovery = Ok snap
    /\ _detect_systemic_flags now injuries training recovery = Ok flags
    /\ systemic_flags snap = flags.
Proof.
  unfold calculate.
  destruct (load_coherence_returns training) as (r1 & -> & _).
  destruct (history_integration_returns injuries) as (r2 & -> & _).
  destruct (strain_accumulation_returns training injuries) as (r3 & -> & _).
  destruct (team_protection_returns recovery) as (r4 & -> & _).
  destruct (recovery_depth_returns recovery) as (r5 & -> & _).
  cbn [bind]. rewrite detect_systemic_flags_returns. cbn [bind].
  eexists. eexists. split; [reflexivity |]. split; reflexivity.
Qed.

End CalculatorFacts.

(** ** Systemic flags *)

Section FlagClaims.
Import Athletic.

Lemma mean_gap_masked : mean_gap [masked_recovery] = 2.4.
Proof.
  unfold mean_gap, readiness_gaps, len, masked_recovery. cbn.
  unfold Rabs. destruct (Rcase_abs _); lra.
Qed.

(** C2: for every non-empty list of recovery records whose mean
    |reported_readiness - objective_readiness| exceeds 2.0, the flags of the
    systemic-flag detection contain the disclosure flag, of severity
    CRITICAL, whatever the injuries and the training records; [calculate]
    returns a snapshot carrying these flags, whatever the dimension readings
    and the aggregate score. *)
Theorem disclosure_flag_emitted (org : string) (now : datetime)
  (injuries : list InjuryRecord) (training : list TrainingLoad)
  (recovery : list RecoveryMetric) :
  recovery <> [] ->
  2.0 < mean_gap recovery ->
  exists flags snap fl,
    _detect_systemic_flags now injuries training recovery = Ok flags
    /\ calculate org now injuries training recovery = Ok snap
    /\ systemic_flags snap = flags
    /\ In fl flags
    /\ id fl = "SYS-DISCLOSURE"
    /\ pattern_type fl = SYSTEMIC
    /\ severity fl = CRITICAL.
Proof.
  intros Hne Hgap.
  destruct (calculate_returns org now injuries training recovery)
    as (snap & flags & Hsnap & Hflags & Heq).
  exists flags, snap, (disclosure_flag now recovery).
  repeat split; try assumption; try reflexivity.
  rewrite detect_systemic_flags_returns in Hflags. injection Hflags as <-.
  apply in_or_app. right.
  destruct recovery as [| r recovery]; [congruence |].
  assert (Rltb 2.0 (mean_gap (r :: recovery)) = true) as ->
    by (apply Rltb_lt, Hgap).
  left. reflexivity.
Qed.

Lemma disclosure_flag_emitted_masked :
  exists flags snap fl,
    _detect_systemic_flags season_start [] [] [masked_recovery] = Ok flags
    /\ calculate "lions" season_start [] [] [masked_recovery] = Ok snap
    /\ systemic_flags snap = flags
    /\ In fl flags
    /\ id fl = "SYS-DISCLOSURE"
    /\ pattern_type fl = SYSTEMIC
    /\ severity fl = CRITICAL.
Proof.
  apply disclosure_flag_emitted.
  - discriminate.
  - rewrite mean_gap_masked. lra.
Defined.

Lemma occurring_group_nonempty (g : string) (injuries : list InjuryRecord) :
  In g (map position_group injuries) -> injuries_of_group g injuries <> [].
Proof.
  intros H. apply in_map_iff in H as (i & <- & Hi).
  assert (Hin : In i (injuries_of_group (position_group i) injuries)).
  { apply filter_In. split; [exact Hi | apply String.eqb_refl]. }
  intros E. rewrite E in Hin. exact Hin.
Qed.

Lemma group_flags_spec (now : datetime) (g : string) (l : list InjuryRecord)
  (fl : SystemicFlag) :
  In fl (group_flags now (g, l))
  <-> fl = soft_tissue_flag now g (filter is_soft_tissue l)
      /\ (3 <= List.length (filter is_soft_tissue l))%nat
      /\ 0.5 < len (filter is_soft_tissue l) / len l.
Proof.
  unfold group_flags. cbn [fst snd].
  destruct (3 <=? List.length (filter is_soft_tissue l))%nat eqn:E3;
    destruct (Rltb 0.5 (len (filter is_soft_tissue l) / len l)) eqn:Er;
    cbn [andb In].
  - apply Nat.leb_le in E3. apply Rltb_lt in Er. intuition.
  - apply Rltb_ge in Er. split; [tauto | intros (_ & _ & H); lra].
  - apply Nat.leb_gt in E3. split; [tauto | intros (_ & H & _); lia].
  - apply Nat.leb_gt in E3. split; [tauto | intros (_ & H & _); lia].
Qed.

(** C5: for every injury list and every position group occurring in it,
    the systemic-flag detection emits a positional soft-tissue flag for
    that group exactly when the group's soft-tissue count is at least 3
    and strictly more than 50% of the group's injuries. *)
Theorem positional_flag_iff (now : datetime) (injuries : list InjuryRecord)
  (training : list TrainingLoad) (recovery : list RecoveryMetric) (g : string) :
  In g (map position_group injuries) ->
  exists flags,
    _detect_systemic_flags now injuries training recovery = Ok flags
    /\ ((exists fl, In fl flags /\ positional_flag_for g fl)
        <-> (3 <= soft_tissue_count g injuries)%nat
            /\ 0.5 < INR (soft_tissue_count g injuries)
                     / INR (group_count g injuries)).
Proof.
  intros Hg. eexists. split; [apply detect_systemic_flags_returns |].
  destruct (group_by_position_groups injuries) as [_ Hgroups].
  unfold soft_tissue_count, group_count. fold (len (injuries_of_group g injuries)).
  fold (len (filter is_soft_tissue (injuries_of_group g injuries))).
  split.
  - intros (fl & Hin & Hpat & Haff).
    apply in_app_or in Hin as [Hin | Hin].
    + apply in_flat_map in Hin as ([k l] & Hkl & Hfl).
      apply group_flags_spec in Hfl as (-> & H3 & Hr).
      cbn [soft_tissue_flag affected_positions] in Haff.
      injection Haff as ->.
      apply Hgroups in Hkl as [-> _]. split; assumption.
    + exfalso. destruct recovery as [| r recovery]; [destruct Hin |].
      destruct (Rltb 2.0 _); [| destruct Hin].
      destruct Hin as [<- | []]. discriminate.
  - intros [H3 Hr].
    exists (soft_tissue_flag now g
              (filter is_soft_tissue (injuries_of_group g injuries))).
    split; [| split; reflexivity].
    apply in_or_app. left. apply in_flat_map.
    exists (g, injuries_of_group g injuries). split.
    + apply Hgroups. split; [reflexivity | apply occurring_group_nonempty, Hg].
    + apply group_flags_spec. repeat split; assumption.
Qed.

Lemma secondary_counts :
  soft_tissue_count "secondary" secondary_injuries = 5%nat
  /\ group_count "secondary" secondary_injuries = 6%nat.
Proof. split; reflexivity. Qed.

(** Five soft-tissue injuries out of six in the secondary raise the flag. *)
Lemma positional_flag_secondary :
  exists flags,
    _detect_systemic_flags season_start secondary_injuries [] [] = Ok flags
    /\ exists fl, In fl flags /\ positional_flag_for "secondary" fl.
Proof.
  destruct (positional_flag_iff season_start secondary_injuries [] [] "secondary")
    as (flags & Hflags & Hiff).
  - left. reflexivity.
  - exists flags. split; [exact Hflags |]. apply Hiff.
    destruct secondary_counts as [-> ->]. split; [lia |]. simpl INR. lra.
Defined.

End FlagClaims.

(** ** Readings outside the unit interval *)

Section UnitIntervalClaims.
Import Athletic.

(** C7: the strain, team protection and recovery depth readings are
    returned without a clamp, so records off their scales take them out of
    [0, 1]: a mean intensity above 2 gives a strain above 1, a mean gap
    between reported and objective readiness above 10 gives a team
    protection below 0, and a mean objective readiness above 10 gives a
    recovery depth above 1. *)
Theorem unclamped_readings_leave_unit_interval
  (training : list TrainingLoad) (injuries : list InjuryRecord)
  (recovery : list RecoveryMetric) :
  (training <> [] ->
   2 < rsum (map intensity training) / len training ->
   exists r,
     _calculate_strain_accumulation training injuries = Ok r /\ 1 < value r)
  /\ (recovery <> [] ->
      10 < mean_gap recovery ->
      exists r, _calculate_team_protection recovery = Ok r /\ value r < 0)
  /\ (recovery <> [] ->
      10 < rsum (map objective_readiness recovery) / len recovery ->
      exists r, _calculate_recovery_depth recovery = Ok r /\ 1 < value r).
Proof.
  split; [| split].
  - intros Hne Hmean.
    destruct (strain_accumulation_returns training injuries)
      as (r & Hr & Hval & _).
    exists r. split; [exact Hr |]. rewrite (Hval Hne).
    pose proof (filter_ratio_unit is_soft_tissue injuries
                  (Nat.max (List.length injuries) 1)
                  (Nat.le_max_l _ _) ltac:(lia)) as Hs.
    lra.
  - intros Hne Hgap.
    destruct (team_protection_returns recovery) as (r & Hr & Hval & _).
    exists r. split; [exact Hr |]. rewrite (Hval Hne). lra.
  - intros Hne Hmean.
    destruct (recovery_depth_returns recovery) as (r & Hr & Hval & _).
    exists r. split; [exact Hr |]. rewrite (Hval Hne). lra.
Qed.

Lemma unclamped_readings_leave_unit_interval_off_scale :
  (exists r,
     _calculate_strain_accumulation [overdriven_session] [] = Ok r
     /\ 1 < value r)
  /\ (exists r,
        _calculate_team_protection [off_scale_recovery] = Ok r /\ value r < 0)
  /\ (exists r,
        _calculate_recovery_depth [off_scale_recovery] = Ok r /\ 1 < value r).
Proof.
  destruct (unclamped_readings_leave_unit_interval
              [overdriven_session] [] [off_scale_recovery])
    as (Hq & Hf & Htau).
  split; [| split].
  - apply Hq; [discriminate |].
    unfold len, overdriven_session. cbn. lra.
  - apply Hf; [discriminate |].
    unfold mean_gap, readiness_gaps, len, off_scale_recovery. cbn.
    rewrite Rabs_left by lra. lra.
  - apply Htau; [discriminate |].
    unfold len, off_scale_recovery. cbn. lra.
Defined.

End UnitIntervalClaims.

(** * Further properties of the code *)

(** ** The lens engine, continued *)

Section LensEngineMore.
Import Lenses.

Lemma q_opt_spec_unit (p : LensParameters) (q : R) :
  0 <= km p -> 0 < ki p -> 0 <= q_opt_spec p q <= 1.
Proof.
  intros Hkm Hki. unfold q_opt_spec.
  destruct (Rltb 0 q) eqn:E; [| lra].
  apply Rltb_lt in E.
  assert (Hs : 0 < q * q / ki p) by (apply Rdiv_lt_0_compat; [nra | exact Hki]).
  set (d := km p + q + q * q / ki p).
  assert (Hd : q < d) by (unfold d; lra).
  assert (Hi : 0 < / d) by (apply Rinv_0_lt_compat; lra).
  unfold Rdiv. split.
  - apply Rmult_le_pos; lra.
  - replace 1 with (d * / d) by (field; lra).
    apply Rmult_le_compat_r; lra.
Qed.

(** A weighted mean of unit values, with positive weights. *)
Lemma coherence_spec_unit (p : LensParameters) (psi rho q f tau : R) :
  positive_weights p -> 0 <= km p -> 0 < ki p ->
  0 <= psi <= 1 -> 0 <= rho <= 1 -> 0 <= f <= 1 -> 0 <= tau <= 1 ->
  0 <= coherence_spec p psi rho q f tau <= 1.
Proof.
  intros (H1 & H2 & H3 & H4 & H5) Hkm Hki Hpsi Hrho Hf Htau.
  unfold coherence_spec.
  pose proof (q_opt_spec_unit p q Hkm Hki) as Hq.
  set (tw := psi_weight p + rho_weight p + q_weight p + f_weight p + tau_weight p).
  assert (Htw : 0 < tw) by (unfold tw; lra).
  assert (Hi' : 0 < / tw) by (apply Rinv_0_lt_compat, Htw).
  unfold Rdiv. split.
  - apply Rmult_le_pos; [| lra].
    repeat apply Rplus_le_le_0_compat; apply Rmult_le_pos; lra.
  - replace 1 with (tw * / tw) by (field; lra).
    apply Rmult_le_compat_r; [lra |]. unfold tw. nra.
Qed.

(** X1: with positive weights and a curve with km >= 0, ki > 0, a pattern
    with psi, rho, f, tau in [0, 1] and q at most 1 is interpreted, at a
    coherence in [0, 1].  (A q of 0 or less counts as 0; the bound on q
    keeps q ** 2 within the floats' range.) *)
Theorem coherence_in_unit_interval (lens : CulturalLens) (psi rho q f tau : R) :
  positive_weights (params lens) ->
  0 <= km (params lens) -> 0 < ki (params lens) ->
  0 <= psi <= 1 -> 0 <= rho <= 1 -> q <= 1 -> 0 <= f <= 1 -> 0 <= tau <= 1 ->
  exists i,
    interpret lens psi rho q f tau = Ok i /\ 0 <= coherence i <= 1.
Proof.
  intros Hw Hkm Hki Hpsi Hrho _ Hf Htau.
  destruct (interpret_returns lens psi rho q f tau) as (i & Hi & Hc & _).
  - apply positive_total_weight, Hw.
  - apply curve_defined_positive; assumption.
  - exists i. split; [exact Hi |]. rewrite Hc.
    apply coherence_spec_unit; assumption.
Qed.

Lemma coherence_in_unit_interval_combat_veteran :
  exists i,
    interpret combat_veteran 0.75 0.6 0.35 0.45 0.5 = Ok i
    /\ 0 <= coherence i <= 1.
Proof.
  apply coherence_in_unit_interval;
    unfold positive_weights, combat_veteran, mk_lens; cbn;
    repeat split; lra.
Defined.

(** X28: with positive weights the coherence does not fall when psi, rho,
    f or tau rise within [0, 1] at the same q: the four raw dimensions
    enter with a positive weight each (unlike q, whose curve turns). *)
Theorem coherence_monotone_in_raw_dimensions (lens : CulturalLens)
  (psi psi' rho rho' q f f' tau tau' : R) :
  positive_weights (params lens) ->
  0 <= km (params lens) -> 0 < ki (params lens) -> q <= 1 ->
  0 <= psi <= psi' -> psi' <= 1 ->
  0 <= rho <= rho' -> rho' <= 1 ->
  0 <= f <= f' -> f' <= 1 ->
  0 <= tau <= tau' -> tau' <= 1 ->
  exists i i',
    interpret lens psi rho q f tau = Ok i
    /\ interpret lens psi' rho' q f' tau' = Ok i'
    /\ coherence i <= coherence i'.
Proof.
  intros Hw Hkm Hki _ Hpsi _ Hrho _ Hf _ Htau _.
  assert (Htw : total_weight (params lens) <> 0)
    by (apply positive_total_weight, Hw).
  assert (Hc : curve_defined (params lens) q)
    by (apply curve_defined_positive; assumption).
  destruct (interpret_returns lens psi rho q f tau Htw Hc) as (i & Hi & Hcoh & _).
  destruct (interpret_returns lens psi' rho' q f' tau' Htw Hc)
    as (i' & Hi' & Hcoh' & _).
  exists i, i'. split; [exact Hi |]. split; [exact Hi' |].
  rewrite Hcoh, Hcoh'. unfold coherence_spec.
  destruct Hw as (H1 & H2 & H3 & H4 & H5).
  set (p := params lens) in *.
  set (tw := psi_weight p + rho_weight p + q_weight p + f_weight p + tau_weight p).
  assert (Hpos : 0 < / tw) by (apply Rinv_0_lt_compat; unfold tw; lra).
  unfold Rdiv. apply Rmult_le_compat_r; [lra |].
  assert (psi * psi_weight p <= psi' * psi_weight p)
    by (apply Rmult_le_compat_r; lra).
  assert (rho * rho_weight p <= rho' * rho_weight p)
    by (apply Rmult_le_compat_r; lra).
  assert (f * f_weight p <= f' * f_weight p)
    by (apply Rmult_le_compat_r; lra).
  assert (tau * tau_weight p <= tau' * tau_weight p)
    by (apply Rmult_le_compat_r; lra).
  lra.
Qed.

Lemma coherence_monotone_in_raw_dimensions_combat_veteran :
  exists i i',
    interpret combat_veteran 0.75 0.6 0.35 0.45 0.5 = Ok i
    /\ interpret combat_veteran 0.8 0.6 0.35 0.45 0.9 = Ok i'
    /\ coherence i <= coherence i'.
Proof.
  apply coherence_monotone_in_raw_dimensions;
    unfold positive_weights, combat_veteran, mk_lens; cbn;
    repeat split; lra.
Defined.

(** The coherence of [interpret], apart from the advisory fields. *)
Lemma interpret_coherence (lens : CulturalLens) (psi rho q f tau : R) :
  rmap coherence (interpret lens psi rho q f tau)
  = (q_opt <- _optimize_q (params lens) q ;;
     pdiv (psi * psi_weight (params lens) + rho * rho_weight (params lens)
           + q_opt * q_weight (params lens) + f * f_weight (params lens)
           + tau * tau_weight (params lens))
       (total_weight (params lens))).
Proof.
  unfold interpret, rmap.
  destruct (_optimize_q (params lens) q) as [qo | e]; cbn [bind]; [| reflexivity].
  destruct (pdiv _ _); reflexivity.
Qed.

Lemma pdiv_scale (k x y : R) : k <> 0 -> pdiv (k * x) (k * y) = pdiv x y.
Proof.
  intros Hk. unfold pdiv.
  destruct (Req_dec_T y 0) as [E | N].
  - rewrite E, Rmult_0_r.
    destruct (Req_dec_T 0 0) as [_ | N]; [reflexivity | now destruct N].
  - destruct (Req_dec_T (k * y) 0) as [E | _].
    + exfalso. apply Rmult_integral in E. tauto.
    + f_equal. field. split; assumption.
Qed.

(** X2: over the reals, multiplying the five weights of a profile by one
    non-zero factor changes neither the coherence [interpret] computes nor
    whether it raises: the formula depends on the proportions of the
    weights only.  This is an equality of exact values; Python rounds the
    two quotients separately. *)
Theorem coherence_invariant_under_weight_scaling (l1 l2 : CulturalLens)
  (k psi rho q f tau : R) :
  k <> 0 ->
  scaled_weights k (params l1) (params l2) ->
  rmap coherence (interpret l2 psi rho q f tau)
  = rmap coherence (interpret l1 psi rho q f tau).
Proof.
  intros Hk (Hpsi & Hrho & Hq & Hf & Htau & Hkm & Hki).
  rewrite !interpret_coherence.
  assert (Hopt : _optimize_q (params l2) q = _optimize_q (params l1) q).
  { unfold _optimize_q. rewrite Hkm, Hki. reflexivity. }
  rewrite Hopt. destruct (_optimize_q (params l1) q) as [qo | e]; cbn [bind];
    [| reflexivity].
  unfold total_weight. rewrite Hpsi, Hrho, Hq, Hf, Htau.
  set (p := params l1).
  rewrite <- (pdiv_scale k (psi * psi_weight p + rho * rho_weight p
                            + qo * q_weight p + f * f_weight p
                            + tau * tau_weight p) _ Hk).
  f_equal; ring.
Qed.

Lemma coherence_invariant_under_weight_scaling_rural :
  rmap coherence (interpret rural_doubled 0.75 0.6 0.35 0.45 0.5)
  = rmap coherence (interpret rural_traditional 0.75 0.6 0.35 0.45 0.5).
Proof.
  apply (coherence_invariant_under_weight_scaling _ _ 2).
  - lra.
  - unfold scaled_weights, rural_doubled, rural_traditional, mk_lens; cbn.
    repeat split; lra.
Defined.

(** X3: [f_baseline] and [direct_communication] are read nowhere: two
    lenses of one name that differ only there are interpreted alike, in
    coherence, confidence, notes, concerns and strengths. *)
Theorem interpret_ignores_unread_fields (l1 l2 : CulturalLens)
  (psi rho q f tau : R) :
  name l1 = name l2 ->
  same_read_fields (params l1) (params l2) ->
  interpret l1 psi rho q f tau = interpret l2 psi rho q f tau.
Proof.
  intros Hn (Hpsi & Hrho & Hq & Hf & Htau & Hqb & Htol & Hve & Hco & Hkm & Hki).
  unfold interpret, _optimize_q, total_weight, fit_score, q_advice, f_advice,
    psi_advice.
  rewrite Hn, Hpsi, Hrho, Hq, Hf, Htau, Hqb, Htol, Hve, Hco, Hkm, Hki.
  reflexivity.
Qed.

Lemma interpret_ignores_unread_fields_rural :
  interpret rural_traditional 0.75 0.6 0.35 0.45 0.5
  = interpret rural_indirect 0.75 0.6 0.35 0.45 0.5.
Proof.
  apply interpret_ignores_unread_fields.
  - reflexivity.
  - unfold same_read_fields, rural_traditional, rural_indirect, mk_lens; cbn.
    repeat split; reflexivity.
Defined.

(** X4: the confidence of an interpretation lies in [0.5, 1], and is 1
    exactly when q sits on the profile's q baseline and f on
    0.5 + 0.4 * (collective_orientation - 0.5). *)
Theorem confidence_bounds (lens : CulturalLens) (psi rho q f tau : R) :
  interpretable (params lens) q ->
  exists i,
    interpret lens psi rho q f tau = Ok i
    /\ 0.5 <= confidence i <= 1
    /\ (confidence i = 1
        <-> q = q_baseline (params lens)
            /\ f = 0.5 + (collective_orientation (params lens) - 0.5) * 0.4).
Proof.
  intros [Hw Hc]. unfold interpret.
  rewrite (optimize_q_returns _ _ Hc). cbn [bind].
  rewrite (pdiv_ok _ _ Hw). cbn [bind].
  eexists. split; [reflexivity |]. cbn [confidence]. unfold fit_score.
  set (a := Rabs (q - q_baseline (params lens))).
  set (b := Rabs (f - 0.5 - (collective_orientation (params lens) - 0.5) * 0.4)).
  assert (Ha : 0 <= a) by apply Rabs_pos.
  assert (Hb : 0 <= b) by apply Rabs_pos.
  assert (Ha0 : a = 0 <-> q = q_baseline (params lens)).
  { unfold a. split; intros H.
    - destruct (Req_dec_T (q - q_baseline (params lens)) 0) as [E | N]; [lra |].
      apply Rabs_no_R0 in N. contradiction.
    - rewrite H. replace (q_baseline (params lens) - q_baseline (params lens))
        with 0 by ring. apply Rabs_R0. }
  assert (Hb0 : b = 0
                <-> f = 0.5 + (collective_orientation (params lens) - 0.5) * 0.4).
  { unfold b. split; intros H.
    - destruct (Req_dec_T
                  (f - 0.5 - (collective_orientation (params lens) - 0.5) * 0.4) 0)
        as [E | N]; [lra |].
      apply Rabs_no_R0 in N. contradiction.
    - rewrite H. match goal with |- Rabs ?x = 0 => replace x with 0 by ring end.
      apply Rabs_R0. }
  unfold Rmax, Rmin.
  destruct (Rle_dec 1.0 (1.0 - (a * 0.3 + b * 0.3))) as [H1 | H1];
    destruct (Rle_dec 0.5 _) as [H2 | H2]; split; try lra;
    rewrite <- Ha0, <- Hb0; lra.
Qed.

Lemma confidence_bounds_combat_veteran :
  exists i,
    interpret combat_veteran 0.75 0.6 0.35 0.45 0.5 = Ok i
    /\ 0.5 <= confidence i <= 1
    /\ (confidence i = 1
        <-> 0.35 = q_baseline (params combat_veteran)
            /\ 0.45 = 0.5 + (collective_orientation (params combat_veteran) - 0.5) * 0.4).
Proof.
  apply confidence_bounds. split.
  - unfold total_weight, combat_veteran, mk_lens; cbn. lra.
  - apply curve_defined_positive; unfold combat_veteran, mk_lens; cbn; lra.
Defined.





End LensEngineMore.

(** ** The deviation calculator, continued *)

Section DeviationMore.
Import Lenses.

Variable lib : LensLibrary.
Variables psi rho q f tau : R.

Lemma interpret_lenses_known (lenses : list string) :
  forall interps cohs,
    interpret_lenses lib psi rho q f tau lenses interps cohs
    = interpret_lenses lib psi rho q f tau (filter (known lib) lenses) interps cohs.
Proof.
  induction lenses as [| n l IH]; intros interps cohs; [reflexivity |].
  cbn [interpret_lenses filter]. unfold known at 1.
  destruct (get_lens lib n) as [lens |] eqn:E.
  - cbn [interpret_lenses]. rewrite E.
    destruct (interpret lens psi rho q f tau); cbn [bind]; [apply IH | reflexivity].
  - apply IH.
Qed.

(** X6: names the library does not know are passed over: the deviation,
    the interpretations, the coherence range and the coherence mean (or the
    exception raised) are those of the call with the known names only. *)
Theorem unknown_lenses_are_skipped (lenses : list string) :
  rmap deviation_view
    (calculate_deviation lib psi rho q f tau (Some lenses))
  = rmap deviation_view
      (calculate_deviation lib psi rho q f tau (Some (filter (known lib) lenses))).
Proof.
  unfold calculate_deviation, rmap.
  rewrite (interpret_lenses_known lenses).
  destruct (interpret_lenses _ _ _ _ _ _ (filter (known lib) lenses) [] [])
    as [[interps cs] | e]; cbn [bind fst snd]; [| reflexivity].
  destruct (if (List.length cs <? 2)%nat then Ok 0.0 else stdev cs) as [dev | e];
    cbn [bind]; [| reflexivity].
  destruct (py_min cs); cbn [bind]; [| reflexivity].
  destruct (py_max cs); cbn [bind]; [| reflexivity].
  destruct (mean cs); cbn [bind]; reflexivity.
Qed.

Lemma interpret_lenses_keys (lenses : list string) :
  forall interps cohs interps' cohs',
    interpret_lenses lib psi rho q f tau lenses interps cohs = Ok (interps', cohs') ->
    keys interps' = fold_left add_key (filter (known lib) lenses) (keys interps)
    /\ List.length cohs'
       = (List.length cohs + List.length (filter (known lib) lenses))%nat.
Proof.
  induction lenses as [| n l IH]; intros interps cohs interps' cohs' H;
    cbn [interpret_lenses filter] in *.
  - injection H as <- <-. cbn [fold_left List.length]. split; [reflexivity | lia].
  - assert (Hkn : known lib n = match get_lens lib n with
                                | Some _ => true | None => false end)
      by reflexivity.
    rewrite Hkn. destruct (get_lens lib n) as [lens |] eqn:E.
    + destruct (interpret lens psi rho q f tau) as [i |]; cbn [bind] in H;
        [| discriminate].
      apply IH in H as [Hk Hl]. cbn [fold_left List.length]. split.
      * rewrite Hk, keys_dict_set. reflexivity.
      * rewrite Hl, length_app. cbn [List.length]. lia.
    + apply IH, H.
Qed.

(** What a returning call of [calculate_deviation] has computed. *)
Lemma calculate_deviation_inv (lenses : option (list string)) (dev : R)
  (a : Analysis) :
  calculate_deviation lib psi rho q f tau lenses = Ok (dev, a) ->
  exists cs,
    interpret_lenses lib psi rho q f tau
      (match lenses with None => list_lenses lib | Some l => l end) [] []
    = Ok (interpretations a, cs)
    /\ cs <> []
    /\ dev = deviation_of cs
    /\ deviation a = dev
    /\ is_lens_invariant a = Rltb dev 0.1
    /\ translation_needed a = negb (is_lens_invariant a)
    /\ py_min cs = Ok (fst (coherence_range a))
    /\ py_max cs = Ok (snd (coherence_range a))
    /\ coherence_mean a = rsum cs / len cs.
Proof.
  unfold calculate_deviation.
  destruct (interpret_lenses _ _ _ _ _ _ _ [] []) as [[interps cs] | e];
    cbn [bind fst snd]; [| discriminate].
  assert (Hdev :
    (if (List.length cs <? 2)%nat then Ok 0.0 else stdev cs) = Ok (deviation_of cs)).
  { unfold deviation_of. destruct (List.length cs <? 2)%nat eqn:E.
    - f_equal. lra.
    - apply stdev_two_or_more, E. }
  rewrite Hdev. cbn [bind].
  destruct cs as [| x cs]; [discriminate |].
  cbn [py_min py_max mean bind]. intros [= <- <-].
  exists (x :: cs). cbn. repeat split; try reflexivity. discriminate.
Qed.

End DeviationMore.

Section RangeFacts.



Lemma deviation_of_nonneg (cs : list R) : 0 <= Lenses.deviation_of cs.
Proof.
  unfold Lenses.deviation_of. destruct (List.length cs <? 2)%nat; [lra |].
  apply sqrt_pos.
Qed.

End RangeFacts.

Section DeviationInvariants.
Import Lenses.


End DeviationInvariants.

Section LibraryFacts.
Import Lenses.

Variable lib : LensLibrary.
Variables psi rho q f tau : R.
Hypothesis unique_names : NoDup (keys lib).

Lemma get_lens_in (n : string) (lens : CulturalLens) :
  In (n, lens) lib -> get_lens lib n = Some lens.
Proof. intros H. apply (dict_get_in lib n lens unique_names), H. Qed.

Lemma library_reads (items : list (string * CulturalLens)) :
  incl items lib ->
  (forall n lens, In (n, lens) items -> interpretable (params lens) q) ->
  Forall2 (reads lib psi rho q f tau) (keys items)
    (map (fun l => coherence_spec (params l) psi rho q f tau) (values items)).
Proof.
  induction items as [| [n lens] items IH]; intros Hincl Hok; cbn.
  - constructor.
  - constructor.
    + destruct (Hok n lens (or_introl eq_refl)) as [Hw Hc].
      destruct (interpret_returns lens psi rho q f tau Hw Hc) as (i & Hi & Hcoh & _).
      exists lens, i. repeat split; try assumption.
      apply get_lens_in, Hincl. left. reflexivity.
    + apply IH.
      * intros x Hx. apply Hincl. right. exact Hx.
      * intros n' l' H'. apply (Hok n' l'). right. exact H'.
Qed.

(** [interpret_all] and the loop of [calculate_deviation] over the
    library's own names. *)
Lemma interpret_items_lenses (items : list (string * CulturalLens)) :
  incl items lib ->
  forall interps cohs,
    match interpret_items items psi rho q f tau interps with
    | Ok d =>
        exists cs,
          List.length cs = List.length items
          /\ interpret_lenses lib psi rho q f tau (keys items) interps cohs
             = Ok (d, cohs ++ cs)
    | Raise e =>
        interpret_lenses lib psi rho q f tau (keys items) interps cohs = Raise e
    end.
Proof.
  induction items as [| [n lens] items IH]; intros Hincl interps cohs;
    cbn [interpret_items keys map fst interpret_lenses].
  - exists []. rewrite app_nil_r. split; reflexivity.
  - rewrite (get_lens_in n lens) by (apply Hincl; left; reflexivity).
    destruct (interpret lens psi rho q f tau) as [i | e]; cbn [bind];
      [| reflexivity].
    assert (Hincl' : incl items lib) by (intros x Hx; apply Hincl; right; exact Hx).
    specialize (IH Hincl' (dict_set interps n i) (cohs ++ [coherence i])).
    fold (keys items).
    destruct (interpret_items items psi rho q f tau (dict_set interps n i))
      as [d | e]; [| exact IH].
    destruct IH as (cs & Hlen & Hcs).
    exists (coherence i :: cs). split; [cbn; lia |].
    rewrite Hcs, <- app_assoc. reflexivity.
Qed.

(** X8: on a non-empty library the interpretations in the analysis of
    [calculate_deviation], called without a lens list, are the dictionary
    [interpret_all] returns, and both raise alike. *)
Theorem interpret_all_agrees_with_deviation :
  lib <> [] ->
  rmap (fun da => interpretations (snd da))
    (calculate_deviation lib psi rho q f tau None)
  = interpret_all lib psi rho q f tau.
Proof.
  intros Hne. unfold interpret_all, calculate_deviation, list_lenses, rmap.
  pose proof (interpret_items_lenses lib (incl_refl lib) [] []) as H.
  destruct (interpret_items lib psi rho q f tau []) as [d | e].
  - destruct H as (cs & Hlen & ->). cbn [bind fst snd app].
    assert (Hdev :
      (if (List.length cs <? 2)%nat then Ok 0.0 else stdev cs)
      = Ok (deviation_of cs)).
    { unfold deviation_of. destruct (List.length cs <? 2)%nat eqn:E.
      - f_equal. lra.
      - apply stdev_two_or_more, E. }
    rewrite Hdev. cbn [bind].
    destruct cs as [| x cs].
    + destruct lib; [congruence | discriminate].
    + reflexivity.
  - rewrite H. reflexivity.
Qed.

End LibraryFacts.

Section DefaultLibrary.
Import Lenses.

Lemma default_names_unique : NoDup (keys default_lenses).
Proof.
  unfold keys, default_lenses. cbn [map fst].
  repeat (constructor; [cbn [In]; intuition discriminate |]). constructor.
Qed.

Lemma default_lenses_interpretable (q : R) (n : string) (lens : CulturalLens) :
  In (n, lens) default_lenses -> interpretable (params lens) q.
Proof.
  unfold default_lenses. cbn [In].
  intros H.
  repeat (destruct H as [[= <- <-] | H];
    [ split;
      [ unfold total_weight, combat_veteran, first_generation, neurodivergent,
          rural_traditional, urban_contemporary, religious_framework,
          female_service, mk_lens; cbn; lra
      | apply curve_defined_positive;
        unfold combat_veteran, first_generation, neurodivergent,
          rural_traditional, urban_contemporary, religious_framework,
          female_service, mk_lens; cbn; lra ] | ]).
  destruct H.
Qed.

Lemma default_lenses_profiles (n : string) (lens : CulturalLens) :
  In (n, lens) default_lenses ->
  positive_weights (params lens) /\ 0 <= km (params lens) /\ 0 < ki (params lens).
Proof.
  unfold default_lenses. cbn [In].
  intros H.
  repeat (destruct H as [[= <- <-] | H];
    [ unfold positive_weights, combat_veteran, first_generation, neurodivergent,
        rural_traditional, urban_contemporary, religious_framework,
        female_service, mk_lens; cbn; repeat split; lra | ]).
  destruct H.
Qed.

Lemma fold_left_Rmin_ge (a : R) (l : list R) (x : R) :
  a <= x -> Forall (fun y => a <= y) l -> a <= fold_left Rmin l x.
Proof.
  intros Hx Hall. revert x Hx.
  induction Hall as [| y l Hy _ IH]; intros x Hx; cbn [fold_left].
  - exact Hx.
  - apply IH. apply Rmin_glb; assumption.
Qed.

Lemma fold_left_Rmax_le (b : R) (l : list R) (x : R) :
  x <= b -> Forall (fun y => y <= b) l -> fold_left Rmax l x <= b.
Proof.
  intros Hx Hall. revert x Hx.
  induction Hall as [| y l Hy _ IH]; intros x Hx; cbn [fold_left].
  - exact Hx.
  - apply IH. apply Rmax_lub; assumption.
Qed.

(** X9: on the built-in library, [calculate_deviation] called without a
    lens list returns for every pattern with psi, rho, f, tau in [0, 1] and
    q at most 1, with a deviation that is not negative, a coherence range
    within [0, 1], and one interpretation per built-in lens, in the order
    of the library. *)
Theorem default_library_always_returns (psi rho q f tau : R) :
  0 <= psi <= 1 -> 0 <= rho <= 1 -> q <= 1 -> 0 <= f <= 1 -> 0 <= tau <= 1 ->
  exists dev a,
    calculate_deviation default_lenses psi rho q f tau None = Ok (dev, a)
    /\ 0 <= dev
    /\ 0 <= fst (coherence_range a)
    /\ snd (coherence_range a) <= 1
    /\ keys (interpretations a)
       = [ "combat_veteran"; "first_generation"; "neurodivergent";
           "rural_traditional"; "urban_contemporary"; "religious_framework";
           "female_service" ].
Proof.
  intros Hpsi Hrho _ Hf Htau.
  pose proof (library_reads default_lenses psi rho q f tau default_names_unique
                default_lenses (incl_refl _)
                (default_lenses_interpretable q)) as Hr.
  set (cs := map (fun l => coherence_spec (params l) psi rho q f tau)
               (values default_lenses)) in Hr.
  assert (Hcs : Forall (fun c => 0 <= c <= 1) cs).
  { unfold cs. apply Forall_forall. intros c Hc.
    apply in_map_iff in Hc as (lens & <- & Hin).
    unfold values in Hin. apply in_map_iff in Hin as ([n l] & Hl & Hin).
    cbn in Hl. subst l.
    destruct (default_lenses_profiles n lens Hin) as (Hw & Hkm & Hki).
    apply coherence_spec_unit; assumption. }
  destruct (calculate_deviation_returns default_lenses psi rho q f tau _ _ Hr)
    as (a & Ha & _ & _ & _ & Hmin & Hmax); [discriminate |].
  change (calculate_deviation default_lenses psi rho q f tau
            (Some (keys default_lenses)))
    with (calculate_deviation default_lenses psi rho q f tau None) in Ha.
  eexists. exists a. split; [exact Ha |]. split; [apply deviation_of_nonneg |].
  assert (Hrange : 0 <= fst (coherence_range a) /\ snd (coherence_range a) <= 1).
  { destruct cs as [| x cs']; [discriminate |].
    cbn [py_min py_max] in Hmin, Hmax.
    injection Hmin as <-. injection Hmax as <-.
    inversion Hcs as [| ? ? Hx Hrest]; subst.
    split.
    - apply fold_left_Rmin_ge; [lra |].
      apply (Forall_impl _ (P := fun c => 0 <= c <= 1)); [| exact Hrest].
      intros c Hc; lra.
    - apply fold_left_Rmax_le; [lra |].
      apply (Forall_impl _ (P := fun c => 0 <= c <= 1)); [| exact Hrest].
      intros c Hc; lra. }
  split; [apply Hrange |]. split; [apply Hrange |].
  apply calculate_deviation_inv in Ha as (cs0 & Hl & _).
  apply interpret_lenses_keys in Hl as [Hk _].
  rewrite Hk. reflexivity.
Qed.

Lemma default_library_always_returns_demo :
  exists dev a,
    calculate_deviation default_lenses 0.75 0.6 0.35 0.45 0.5 None = Ok (dev, a)
    /\ 0 <= dev
    /\ 0 <= fst (coherence_range a)
    /\ snd (coherence_range a) <= 1
    /\ keys (interpretations a)
       = [ "combat_veteran"; "first_generation"; "neurodivergent";
           "rural_traditional"; "urban_contemporary"; "religious_framework";
           "female_service" ].
Proof. apply default_library_always_returns; lra. Defined.

(** X10: a single lens the library knows and [interpret] returns on gives
    deviation 0, a lens-invariant analysis, and a coherence range and mean
    that are the coherence of that lens. *)
Theorem single_lens_deviation (lib : LensLibrary) (psi rho q f tau : R)
  (n : string) (lens : CulturalLens) :
  get_lens lib n = Some lens ->
  interpretable (params lens) q ->
  exists a,
    calculate_deviation lib psi rho q f tau (Some [n]) = Ok (0, a)
    /\ is_lens_invariant a = true
    /\ coherence_range a
       = (coherence_spec (params lens) psi rho q f tau,
          coherence_spec (params lens) psi rho q f tau)
    /\ coherence_mean a = coherence_spec (params lens) psi rho q f tau.
Proof.
  intros Hget [Hw Hc].
  destruct (interpret_returns lens psi rho q f tau Hw Hc) as (i & Hi & Hcoh & _).
  set (c := coherence_spec (params lens) psi rho q f tau) in *.
  assert (Hr : Forall2 (reads lib psi rho q f tau) [n] [c]).
  { repeat constructor. exists lens, i. repeat split; assumption. }
  destruct (calculate_deviation_returns lib psi rho q f tau _ _ Hr)
    as (a & Ha & _ & Hinv & Hmean & Hmin & Hmax); [discriminate |].
  change (deviation_of [c]) with 0 in Ha, Hinv.
  exists a. split; [exact Ha |].
  split; [rewrite Hinv; apply Rltb_lt; lra |].
  cbn in Hmin, Hmax. injection Hmin as Hmin. injection Hmax as Hmax.
  split.
  - destruct (coherence_range a) as [lo hi]. cbn in *. congruence.
  - rewrite Hmean. unfold len. cbn. field.
Qed.

Lemma single_lens_deviation_combat_veteran :
  exists a,
    calculate_deviation default_lenses 0.75 0.6 0.35 0.45 0.5
      (Some ["combat_veteran"]) = Ok (0, a)
    /\ is_lens_invariant a = true
    /\ coherence_range a
       = (coherence_spec (params combat_veteran) 0.75 0.6 0.35 0.45 0.5,
          coherence_spec (params combat_veteran) 0.75 0.6 0.35 0.45 0.5)
    /\ coherence_mean a = coherence_spec (params combat_veteran) 0.75 0.6 0.35 0.45 0.5.
Proof.
  apply single_lens_deviation.
  - reflexivity.
  - apply (default_lenses_interpretable 0.35 "combat_veteran").
    left. reflexivity.
Defined.

Lemma interpret_all_agrees_with_deviation_default :
  rmap (fun da => interpretations (snd da))
    (calculate_deviation default_lenses 0.75 0.6 0.35 0.45 0.5 None)
  = interpret_all default_lenses 0.75 0.6 0.35 0.45 0.5.
Proof.
  apply interpret_all_agrees_with_deviation.
  - exact default_names_unique.
  - discriminate.
Defined.

End DefaultLibrary.

(** ** The text analyzers, continued *)

Section CISDMore.
Import Analyzers.

Lemma analyze_returns (doc : string) (fac : option string) :
  exists r,
    analyze doc fac = Ok r
    /\ processing_ratio r + performance_ratio r = 1
    /\ 0 <= processing_ratio r <= 1
    /\ 0 <= performance_ratio r <= 1.
Proof.
  unfold analyze.
  set (pm := flat_map (fun p => findall p (lower doc)) PROCESSING_INDICATORS).
  set (fm := flat_map (fun p => findall p (lower doc)) PERFORMANCE_INDICATORS).
  destruct (extract_pattern_regex_returns doc) as (pat & Hpat & _).
  rewrite Hpat. unfold len.
  set (a := List.length pm). set (b := List.length fm).
  destruct (0 <? a + b)%nat eqn:E.
  - apply Nat.ltb_lt in E.
    assert (Hn : INR (a + b) <> 0) by (apply not_0_INR; lia).
    rewrite !(pdiv_ok _ _ Hn). cbn [bind fst snd].
    eexists. split; [reflexivity |].
    cbn [processing_ratio performance_ratio].
    pose proof (INR_ratio_unit a b E) as Hb.
    pose proof (INR_ratio_unit b a ltac:(lia)) as Ha.
    replace (b + a)%nat with (a + b)%nat in Ha by lia.
    split; [| split; assumption].
    rewrite plus_INR in *. field. exact Hn.
  - cbn [bind fst snd]. eexists. split; [reflexivity |].
    cbn [processing_ratio performance_ratio]. lra.
Qed.

(** X11: for every document, [CISDAnalyzer.analyze] returns, and its
    processing and performance ratios lie in [0, 1] and add up to 1. *)
Theorem cisd_ratios_sum_to_one (doc : string) (fac : option string) :
  exists r,
    analyze doc fac = Ok r
    /\ processing_ratio r + performance_ratio r = 1
    /\ 0 <= processing_ratio r <= 1
    /\ 0 <= performance_ratio r <= 1.
Proof.
  destruct (analyze_returns doc fac) as (r & Hr & Hsum & Hproc & Hperf).
  exists r. repeat split; try assumption; lra.
Qed.

Lemma analyze_each_returns (reports : list string) :
  exists analyses,
    map_result (fun r => analyze r None) reports = Ok analyses
    /\ List.length analyses = List.length reports
    /\ Forall (fun x => 0 <= x <= 1) (map processing_ratio analyses)
    /\ Forall (fun x => 0 <= x <= 1) (map performance_ratio analyses).
Proof.
  induction reports as [| r reports (analyses & Hm & Hl & Hp & Hf)];
    cbn [map_result].
  - exists []. repeat split; try reflexivity; constructor.
  - destruct (analyze_returns r None) as (a & Ha & _ & Hproc & Hperf).
    rewrite Ha, Hm. cbn [bind]. exists (a :: analyses).
    split; [reflexivity |]. split; [cbn; lia |].
    cbn [map]. split; constructor; assumption.
Qed.

(** X12: [assess_cisd_program] returns for every list of reports; the
    processing rate and the performance rate lie in [0, 1], the sample size
    is the number of reports, and the recommendation is "Insufficient data"
    exactly for the empty list. *)
Theorem cisd_program_rates_in_unit_interval (reports : list string) :
  exists r,
    assess_cisd_program reports = Ok r
    /\ 0 <= processing_rate r <= 1
    /\ 0 <= performance_rate r <= 1
    /\ sample_size r = List.length reports
    /\ (recommendation r = "Insufficient data" <-> reports = []).
Proof.
  unfold assess_cisd_program.
  destruct reports as [| r0 reports].
  - eexists. split; [reflexivity |].
    cbn [processing_rate performance_rate sample_size recommendation].
    repeat split; try lra; reflexivity.
  - destruct (analyze_each_returns (r0 :: reports))
      as (analyses & -> & Hl & Hp & Hf).
    cbn [bind].
    assert (Hne : analyses <> []) by (destruct analyses; discriminate).
    assert (Hn : len analyses <> 0) by (apply Rgt_not_eq, len_pos, Hne).
    rewrite !(pdiv_ok _ _ Hn). cbn [bind].
    eexists. split; [reflexivity |].
    cbn [processing_rate performance_rate sample_size recommendation].
    split; [| split; [| split; [exact Hl |]]].
    + replace (len analyses) with (len (map processing_ratio analyses))
        by (unfold len; rewrite length_map; reflexivity).
      apply mean_bounds; [| exact Hp].
      destruct analyses; [congruence | discriminate].
    + replace (len analyses) with (len (map performance_ratio analyses))
        by (unfold len; rewrite length_map; reflexivity).
      apply mean_bounds; [| exact Hf].
      destruct analyses; [congruence | discriminate].
    + split; [| discriminate].
      destruct (Rltb 0.6 _); [discriminate |].
      destruct (Rltb 0.7 _); discriminate.
Qed.

End CISDMore.

Section PostsMore.
Import Analyzers.

Lemma regex_reading_returns (text : string) :
  exists r, _extract_pattern_regex text = Ok r /\ regex_reading r.
Proof.
  destruct (extract_pattern_regex_returns text)
    as (r & Hr & Hpsi & _ & _ & Hq & Hrho & Htau & Hf).
  exists r. split; [exact Hr |]. repeat split; try assumption; lra.
Qed.

Lemma post_patterns_returns (posts : list Post) :
  forall acc,
  exists pats,
    post_patterns posts acc = Ok (acc ++ pats)
    /\ List.length pats = List.length (with_content posts)
    /\ Forall regex_reading pats.
Proof.
  induction posts as [| post posts IH]; intros acc; cbn [post_patterns].
  - exists []. rewrite app_nil_r. repeat split. constructor.
  - unfold with_content. cbn [filter]. fold (with_content posts).
    destruct (String.eqb (dict_get_default post "content" "") "") eqn:E;
      cbn [negb].
    + apply IH.
    + destruct (regex_reading_returns (dict_get_default post "content" ""))
        as (pat & Hpat & Hgood).
      rewrite Hpat. cbn [bind].
      destruct (IH (acc ++ [pat])) as (pats & Hp & Hl & Hall).
      exists (pat :: pats). rewrite Hp, <- app_assoc.
      split; [reflexivity |]. split; [cbn; lia |]. constructor; assumption.
Qed.

(** X14: when no post has content (an empty list, a missing 'content' key
    or an empty string), [analyze_posts] returns the neutral pattern: every
    dimension 0.5, confidence 0.0, source count 0. *)
Theorem analyze_posts_without_content (posts : list Post) :
  with_content posts = [] ->
  analyze_posts posts = Ok no_posts.
Proof.
  intros Hnone. unfold analyze_posts.
  destruct posts as [| post posts]; [reflexivity |].
  destruct (post_patterns_returns (post :: posts) []) as (pats & -> & Hl & _).
  cbn [bind app]. rewrite Hnone in Hl.
  destruct pats; [reflexivity | discriminate].
Qed.

Lemma analyze_posts_without_content_blank :
  analyze_posts blank_posts = Ok no_posts.
Proof. apply analyze_posts_without_content. reflexivity. Defined.

Lemma mean_of_readings (g : PatternResult -> R) (a b : R)
  (pats : list PatternResult) :
  pats <> [] ->
  Forall (fun r => a <= g r <= b) pats ->
  a <= rsum (map g pats) / len pats <= b.
Proof.
  intros Hne Hall.
  replace (len pats) with (len (map g pats))
    by (unfold len; rewrite length_map; reflexivity).
  apply mean_bounds.
  - destruct pats; [congruence | discriminate].
  - apply Forall_map. exact Hall.
Qed.

(** X15: when some post has content, [analyze_posts] returns the mean of
    the regex readings of the posts with content: confidence 0.7, source
    count the number of such posts, and every dimension in [0, 1]. *)
Theorem analyze_posts_with_content (posts : list Post) :
  with_content posts <> [] ->
  exists r,
    analyze_posts posts = Ok r
    /\ confidence r = 0.7
    /\ source_count r = List.length (with_content posts)
    /\ 0 <= psi r <= 1 /\ 0 <= rho r <= 1 /\ 0 <= q r <= 1
    /\ 0 <= f r <= 1 /\ 0 <= tau r <= 1.
Proof.
  intros Hsome. unfold analyze_posts.
  destruct posts as [| post posts]; [contradiction Hsome; reflexivity |].
  destruct (post_patterns_returns (post :: posts) []) as (pats & -> & Hl & Hall).
  cbn [bind app].
  destruct pats as [| p0 pats].
  { exfalso. apply Hsome. apply length_zero_iff_nil. symmetry. exact Hl. }
  assert (Hn : len (p0 :: pats) <> 0) by (apply Rgt_not_eq, len_pos; discriminate).
  rewrite !(pdiv_ok _ _ Hn). cbn [bind].
  eexists. split; [reflexivity |]. cbn [confidence source_count].
  split; [reflexivity |]. split; [exact Hl |].
  assert (Hne : p0 :: pats <> []) by discriminate.
  cbn [psi q rho tau f].
  assert (Hmean : forall g : PatternResult -> R,
    (forall r, regex_reading r -> 0 <= g r <= 1) ->
    0 <= rsum (map g (p0 :: pats)) / len (p0 :: pats) <= 1).
  { intros g Hg. apply mean_of_readings; [exact Hne |].
    apply (Forall_impl _ (P := regex_reading)); [exact Hg | exact Hall]. }
  repeat match goal with |- _ /\ _ => split end; apply Hmean;
    intros r (Hpsi & Hq & Hrho & Htau & Hf); lra.
Qed.

Lemma analyze_posts_with_content_sample :
  exists r,
    analyze_posts sample_posts = Ok r
    /\ confidence r = 0.7
    /\ source_count r = List.length (with_content sample_posts)
    /\ 0 <= psi r <= 1 /\ 0 <= rho r <= 1 /\ 0 <= q r <= 1
    /\ 0 <= f r <= 1 /\ 0 <= tau r <= 1.
Proof. apply analyze_posts_with_content. discriminate. Defined.

End PostsMore.

(** ** Sorting by key *)

Section SortFacts.
Context {A : Type}.
Variable key : A -> nat.

Lemma insert_by_key_perm (x : A) (l : list A) :
  Permutation (insert_by_key key x l) (x :: l).
Proof.
  induction l as [| y l IH]; cbn [insert_by_key].
  - apply Permutation_refl.
  - destruct (key x <? key y)%nat.
    + apply Permutation_refl.
    + eapply Permutation_trans; [apply perm_skip, IH | apply perm_swap].
Qed.

Lemma insert_by_key_sorted (x : A) (l : list A) :
  StronglySorted (key_le key) l -> StronglySorted (key_le key) (insert_by_key key x l).
Proof.
  induction 1 as [| y l Hs IH Hall]; cbn [insert_by_key].
  - repeat constructor.
  - destruct (key x <? key y)%nat eqn:E.
    + apply Nat.ltb_lt in E. constructor; [constructor; assumption |].
      constructor; [unfold key_le; lia |].
      apply (Forall_impl _ (P := key_le key y)); [| exact Hall].
      unfold key_le. intros z Hz. lia.
    + apply Nat.ltb_ge in E. constructor; [exact IH |].
      eapply Permutation_Forall;
        [apply Permutation_sym, insert_by_key_perm |].
      constructor; [exact E | exact Hall].
Qed.

Lemma sorted_by_key_from (l acc : list A) :
  StronglySorted (key_le key) acc ->
  StronglySorted (key_le key) (fold_left (fun a x => insert_by_key key x a) l acc)
  /\ Permutation (fold_left (fun a x => insert_by_key key x a) l acc) (acc ++ l).
Proof.
  revert acc. induction l as [| x l IH]; intros acc Hacc; cbn [fold_left].
  - rewrite app_nil_r. split; [exact Hacc | apply Permutation_refl].
  - destruct (IH (insert_by_key key x acc) (insert_by_key_sorted x acc Hacc))
      as [Hs Hp].
    split; [exact Hs |].
    eapply Permutation_trans; [exact Hp |].
    eapply Permutation_trans;
      [apply Permutation_app_tail, insert_by_key_perm |].
    cbn [app]. apply Permutation_middle.
Qed.

Lemma sorted_by_key_sorted (l : list A) :
  StronglySorted (key_le key) (sorted_by_key key l)
  /\ Permutation (sorted_by_key key l) l.
Proof. apply (sorted_by_key_from l []). constructor. Qed.

Lemma sorted_map_key (l : list A) :
  StronglySorted (key_le key) l -> StronglySorted le (map key l).
Proof.
  induction 1 as [| x l _ IH Hx]; cbn [map]; constructor.
  - exact IH.
  - apply Forall_map. exact Hx.
Qed.

End SortFacts.

Section TrajectoryMore.
Import Analyzers.

Lemma track_points (tts : list (datetime * string)) :
  exists pts,
    map_result
      (fun tt =>
         pat <- _extract_pattern_regex (snd tt) ;;
         Ok {| timestamp := fst tt; tp_pattern := pat |}) tts = Ok pts
    /\ map timestamp pts = map fst tts
    /\ Forall2 (fun pt tt => _extract_pattern_regex (snd tt) = Ok (tp_pattern pt))
         pts tts.
Proof.
  induction tts as [| tt tts (pts & Hm & Ht & Hall)]; cbn [map_result].
  - exists []. repeat split. constructor.
  - destruct (regex_reading_returns (snd tt)) as (pat & Hpat & _).
    rewrite Hpat, Hm. cbn [bind].
    eexists. split; [reflexivity |]. cbn [map timestamp]. rewrite Ht.
    split; [reflexivity |]. constructor; [exact Hpat | exact Hall].
Qed.

(** X16: [track_trajectory] returns one point per transcript, in
    non-decreasing order of timestamp whatever the order given, each point
    carrying the regex pattern of its transcript. *)
Theorem track_trajectory_sorted (transcripts : list (datetime * string)) :
  exists pts,
    track_trajectory transcripts = Ok pts
    /\ StronglySorted le (map timestamp pts)
    /\ Permutation (map timestamp pts) (map fst transcripts)
    /\ List.length pts = List.length transcripts
    /\ Forall2 (fun pt tt => timestamp pt = fst tt
                             /\ _extract_pattern_regex (snd tt) = Ok (tp_pattern pt))
         pts (sorted_by_key fst transcripts).
Proof.
  unfold track_trajectory.
  destruct (track_points (sorted_by_key fst transcripts)) as (pts & Hm & Ht & Hall).
  destruct (sorted_by_key_sorted fst transcripts) as [Hs Hp].
  exists pts. split; [exact Hm |]. rewrite Ht.
  split; [| split; [| split]].
  - apply sorted_map_key, Hs.
  - apply Permutation_map, Hp.
  - rewrite <- (length_map timestamp), Ht, length_map.
    apply Permutation_length, Hp.
  - clear Hm Hs Hp. revert Ht.
    induction Hall as [| pt tt pts tts Hpt _ IH]; intros Ht; constructor.
    + cbn [map] in Ht. injection Ht as Hh _. split; assumption.
    + apply IH. cbn [map] in Ht. injection Ht as _ Ht'. exact Ht'.
Qed.

End TrajectoryMore.

(** ** Trends *)

Section TrendFacts.
Import Analyzers.

Lemma sum_indices (n : nat) :
  rsum (map INR (seq 0 n)) = INR n * (INR n - 1) / 2.
Proof.
  induction n as [| n IH].
  - simpl. lra.
  - rewrite seq_S, map_app, rsum_app, IH, S_INR. cbn. lra.
Qed.

Lemma rsum_map_affine (a b : R) (l : list nat) :
  rsum (map (fun i => a + b * INR i) l) = len l * a + b * rsum (map INR l).
Proof.
  induction l as [| i l IH].
  - unfold len. simpl. lra.
  - rewrite len_cons. cbn [map rsum fold_right] in *. unfold rsum in IH.
    rewrite IH. lra.
Qed.

Lemma rsum_map_scale (b : R) (g h : nat -> R) (l : list nat) :
  (forall i, g i = b * h i) -> rsum (map g l) = b * rsum (map h l).
Proof.
  intros Hg. induction l as [| i l IH]; cbn [map rsum fold_right] in *.
  - lra.
  - unfold rsum in IH. rewrite IH, Hg. lra.
Qed.

Lemma combine_map_self {A B : Type} (g : A -> B) (l : list A) :
  combine l (map g l) = map (fun x => (x, g x)) l.
Proof. induction l as [| x l IH]; cbn; [reflexivity | rewrite IH; reflexivity]. Qed.

Lemma rsum_squares_nonneg (c : R) (l : list nat) :
  0 <= rsum (map (fun i => (INR i - c) * (INR i - c)) l).
Proof.
  induction l as [| i l IH]; cbn [map rsum fold_right] in *.
  - lra.
  - unfold rsum in IH. pose proof (Rle_0_sqr (INR i - c)) as H.
    unfold Rsqr in H. lra.
Qed.

(** The denominator of the slope is positive from two points on. *)
Lemma slope_denominator_pos (n : nat) :
  (2 <= n)%nat ->
  0 < rsum (map (fun i => (INR i - (INR n - 1) / 2) * (INR i - (INR n - 1) / 2))
              (seq 0 n)).
Proof.
  intros Hn. destruct n as [| n]; [lia |].
  cbn [seq map rsum fold_right].
  pose proof (rsum_squares_nonneg ((INR (S n) - 1) / 2) (seq 1 n)) as Hrest.
  unfold rsum in Hrest.
  assert (H2 : 2 <= INR (S n)) by (apply (le_INR 2), Hn).
  change (INR 0) with 0.
  set (c := (INR (S n) - 1) / 2) in *.
  assert (Hc : 1 / 2 <= c) by (unfold c; lra).
  assert (0 < (0 - c) * (0 - c)) by nra.
  lra.
Qed.

Lemma calc_trend_affine (a b : R) (n : nat) :
  (2 <= n)%nat ->
  calc_trend (map (fun i => a + b * INR i) (seq 0 n)) = Ok b.
Proof.
  intros Hn. unfold calc_trend, enumerate.
  rewrite length_map, length_seq.
  assert ((n <? 2)%nat = false) as -> by (apply Nat.ltb_ge, Hn).
  assert (H2 : 2 <= INR n) by (apply (le_INR 2), Hn).
  rewrite pdiv_ok by lra. cbn [bind].
  rewrite combine_map_self, map_map. cbn [fst snd].
  set (xm := (INR n - 1) / 2).
  assert (Hy : rsum (map (fun i => a + b * INR i) (seq 0 n)) / INR n = a + b * xm).
  { rewrite rsum_map_affine, sum_indices. unfold len. rewrite length_seq.
    unfold xm. field. lra. }
  rewrite Hy.
  rewrite (rsum_map_scale b
             (fun i => (INR i - xm) * (a + b * INR i - (a + b * xm)))
             (fun i => (INR i - xm) * (INR i - xm)))
    by (intros i; ring).
  pose proof (slope_denominator_pos n Hn) as Hd. fold xm in Hd.
  set (d := rsum (map (fun i => (INR i - xm) * (INR i - xm)) (seq 0 n))) in *.
  destruct (Req_dec_T d 0) as [E | N]; [lra |].
  rewrite (pdiv_ok _ _ N). f_equal. field. exact N.
Qed.

(** X17: on values that change by the same amount b at every step,
    [calc_trend] returns the slope b (in exact arithmetic) as soon as there
    are two values, and 0 for fewer; it never divides by zero. *)
Theorem calc_trend_of_steady_change (a b : R) (n : nat) :
  calc_trend (map (fun i => a + b * INR i) (seq 0 n))
  = Ok (if (n <? 2)%nat then 0 else b).
Proof.
  destruct (n <? 2)%nat eqn:E.
  - unfold calc_trend. rewrite length_map, length_seq, E. f_equal. lra.
  - apply calc_trend_affine. apply Nat.ltb_ge, E.
Qed.

Lemma along_constant (g : PatternResult -> R) (p0 : PatternResult)
  (trajectory : list TrajectoryPoint) :
  (forall pt, In pt trajectory -> tp_pattern pt = p0) ->
  map (fun p => g (tp_pattern p)) trajectory
  = map (fun i => g p0 + 0 * INR i) (seq 0 (List.length trajectory)).
Proof.
  intros Hall.
  assert (H : forall s, map (fun p => g (tp_pattern p)) trajectory
                        = map (fun i => g p0 + 0 * INR i)
                            (seq s (List.length trajectory))).
  { induction trajectory as [| pt l IH]; intros s; cbn [map List.length seq].
    - reflexivity.
    - rewrite (Hall pt) by (left; reflexivity). f_equal; [ring |].
      apply IH. intros x Hx. apply Hall. right. exact Hx. }
  apply H.
Qed.

(** X18: a trajectory whose points all carry the same pattern, whatever
    its length, has every trend 0 and no concern. *)
Theorem steady_trajectory_has_no_trend (p0 : PatternResult)
  (trajectory : list TrajectoryPoint) :
  (forall pt, In pt trajectory -> tp_pattern pt = p0) ->
  exists r,
    analyze_trajectory trajectory = Ok r
    /\ psi_trend r = 0 /\ rho_trend r = 0 /\ q_trend r = 0 /\ f_trend r = 0
    /\ tau_trend r = 0
    /\ trend_concerns r = []
    /\ trend_sample_size r = List.length trajectory.
Proof.
  intros Hall. unfold analyze_trajectory.
  destruct (List.length trajectory <? 2)%nat eqn:E.
  - eexists. split; [reflexivity |]. cbn. repeat split; lra.
  - apply Nat.ltb_ge in E.
    rewrite !(along_constant _ p0 trajectory Hall).
    rewrite !(calc_trend_affine _ 0 _ E). cbn [bind].
    assert (Rltb 0 (-0.02) = false) as -> by (apply Rltb_ge; lra).
    assert (Rltb 0.03 0 = false) as -> by (apply Rltb_ge; lra).
    eexists. split; [reflexivity |]. cbn. repeat split; reflexivity.
Qed.

Lemma steady_trajectory_has_no_trend_three :
  exists r,
    analyze_trajectory steady_trajectory = Ok r
    /\ psi_trend r = 0 /\ rho_trend r = 0 /\ q_trend r = 0 /\ f_trend r = 0
    /\ tau_trend r = 0
    /\ trend_concerns r = []
    /\ trend_sample_size r = List.length steady_trajectory.
Proof.
  apply (steady_trajectory_has_no_trend steady_pattern).
  intros pt [<- | [<- | [<- | []]]]; reflexivity.
Defined.

End TrendFacts.

(** ** The athletic score and the dashboard *)

Section AthleticMore.
Import Athletic.

Lemma index_severity_order (s : FlagSeverity) :
  index severity_order s = Ok (severity_rank s).
Proof. destruct s; reflexivity. Qed.

Lemma flags_from_filter (min_idx : nat) (fls : list SystemicFlag) :
  flags_from min_idx fls
  = Ok (filter (fun fl => (min_idx <=? severity_rank (severity fl))%nat) fls).
Proof.
  induction fls as [| fl fls IH]; cbn [flags_from filter]; [reflexivity |].
  rewrite index_severity_order, IH. cbn [bind].
  destruct (min_idx <=? severity_rank (severity fl))%nat; reflexivity.
Qed.

(** X19: [get_systemic_flags] never raises and returns exactly the
    dashboard's flags whose severity is at or above the minimum in the
    order INFO < WATCH < ELEVATED < CRITICAL, in the order and number they
    have on the dashboard; what a higher minimum returns is what it keeps
    of the result for any lower one, and INFO returns every flag. *)
Theorem systemic_flags_by_severity (d : OrganizationDashboard)
  (min_severity : FlagSeverity) :
  exists kept,
    get_systemic_flags d min_severity = Ok kept
    /\ kept
       = filter
           (fun fl =>
              (severity_rank min_severity <=? severity_rank (severity fl))%nat)
           (values (flags d))
    /\ (forall fl, In fl kept
          <-> In fl (values (flags d))
              /\ (severity_rank min_severity <= severity_rank (severity fl))%nat)
    /\ (forall lower, (severity_rank lower <= severity_rank min_severity)%nat ->
          exists more,
            get_systemic_flags d lower = Ok more
            /\ kept
               = filter
                   (fun fl =>
                      (severity_rank min_severity
                       <=? severity_rank (severity fl))%nat)
                   more)
    /\ get_systemic_flags d INFO = Ok (values (flags d)).
Proof.
  unfold get_systemic_flags.
  rewrite index_severity_order. cbn [bind]. rewrite flags_from_filter.
  eexists. split; [reflexivity |]. split; [reflexivity |]. split; [| split].
  - intros fl. rewrite filter_In, Nat.leb_le. reflexivity.
  - intros lower Hle. rewrite index_severity_order. cbn [bind].
    rewrite flags_from_filter. eexists. split; [reflexivity |].
    induction (values (flags d)) as [| fl fls IH]; cbn [filter]; [reflexivity |].
    destruct (severity_rank min_severity <=? severity_rank (severity fl))%nat
      eqn:E.
    + assert ((severity_rank lower <=? severity_rank (severity fl))%nat = true)
        as -> by (apply Nat.leb_le; apply Nat.leb_le in E; lia).
      cbn [filter]. rewrite E, IH. reflexivity.
    + destruct (severity_rank lower <=? severity_rank (severity fl))%nat;
        cbn [filter]; [rewrite E |]; exact IH.
  - rewrite index_severity_order. cbn [bind]. rewrite flags_from_filter.
    f_equal. apply forallb_filter_id. apply forallb_forall. reflexivity.
Qed.

(** The readings and the score behind a snapshot. *)
Lemma calculate_inv (org : string) (now : datetime)
  (injuries : list InjuryRecord) (training : list TrainingLoad)
  (recovery : list RecoveryMetric) :
  exists snap,
    calculate org now injuries training recovery = Ok snap
    /\ _calculate_load_coherence training = Ok (psi_load_coherence snap)
    /\ _calculate_history_integration injuries = Ok (rho_history_integration snap)
    /\ _calculate_strain_accumulation training injuries
       = Ok (q_strain_accumulation snap)
    /\ _calculate_team_protection recovery = Ok (f_team_protection snap)
    /\ _calculate_recovery_depth recovery = Ok (tau_recovery_depth snap)
    /\ _detect_systemic_flags now injuries training recovery
       = Ok (systemic_flags snap)
    /\ physical_coherence_score snap
       = value (psi_load_coherence snap) * 0.20
         + value (rho_history_integration snap) * 0.15
         + (1 - value (q_strain_accumulation snap)) * 0.25
         + value (f_team_protection snap) * 0.15
         + value (tau_recovery_depth snap) * 0.25
    /\ confidence_interval snap
       = (physical_coherence_score snap - 0.1, physical_coherence_score snap + 0.1).
Proof.
  unfold calculate.
  destruct (load_coherence_returns training) as (r1 & -> & _).
  destruct (history_integration_returns injuries) as (r2 & -> & _).
  destruct (strain_accumulation_returns training injuries) as (r3 & -> & _).
  destruct (team_protection_returns recovery) as (r4 & -> & _).
  destruct (recovery_depth_returns recovery) as (r5 & -> & _).
  cbn [bind]. rewrite detect_systemic_flags_returns. cbn [bind].
  eexists. split; [reflexivity |]. cbn. repeat split; reflexivity.
Qed.

(** X20: with training intensities within 0-1 and readiness scores within
    0-10, [calculate] returns a physical coherence score in [0, 1], with
    the confidence interval score - 0.1, score + 0.1. *)
Theorem score_in_unit_interval (org : string) (now : datetime)
  (injuries : list InjuryRecord) (training : list TrainingLoad)
  (recovery : list RecoveryMetric) :
  Forall intensity_in_scale training ->
  Forall readiness_in_scale recovery ->
  exists snap,
    calculate org now injuries training recovery = Ok snap
    /\ 0 <= physical_coherence_score snap <= 1
    /\ confidence_interval snap
       = (physical_coherence_score snap - 0.1, physical_coherence_score snap + 0.1).
Proof.
  intros Htr Hrec.
  destruct (calculate_inv org now injuries training recovery)
    as (snap & Hs & H1 & H2 & H3 & H4 & H5 & _ & Hscore & Hci).
  exists snap. split; [exact Hs |]. split; [| exact Hci].
  destruct (load_coherence_returns training) as (r1 & E1 & U1 & _).
  destruct (history_integration_returns injuries) as (r2 & E2 & U2 & _).
  destruct (strain_accumulation_returns training injuries) as (r3 & E3 & _ & U3 & _).
  destruct (team_protection_returns recovery) as (r4 & E4 & _ & U4 & _).
  destruct (recovery_depth_returns recovery) as (r5 & E5 & _ & U5 & _).
  rewrite H1 in E1. rewrite H2 in E2. rewrite H3 in E3. rewrite H4 in E4.
  rewrite H5 in E5.
  injection E1 as <-. injection E2 as <-. injection E3 as <-.
  injection E4 as <-. injection E5 as <-.
  specialize (U3 Htr). specialize (U4 Hrec). specialize (U5 Hrec).
  unfold unit_interval in *. rewrite Hscore. lra.
Qed.

Lemma score_in_unit_interval_season :
  exists snap,
    calculate "lions" season_start secondary_injuries [regular_session]
      [masked_recovery] = Ok snap
    /\ 0 <= physical_coherence_score snap <= 1
    /\ confidence_interval snap
       = (physical_coherence_score snap - 0.1, physical_coherence_score snap + 0.1).
Proof.
  apply score_in_unit_interval.
  - repeat constructor; unfold regular_session; cbn; lra.
  - repeat constructor; unfold masked_recovery; cbn; lra.
Defined.

Lemma soft_flag_id_not_disclosure (now : datetime) (g : string)
  (l : list InjuryRecord) :
  id (soft_tissue_flag now g l) <> "SYS-DISCLOSURE".
Proof. cbn. discriminate. Qed.

(** X21: with recovery records, the snapshot of [calculate] carries the
    SYS-DISCLOSURE flag exactly when its team protection reading is below
    0.8. *)
Theorem disclosure_flag_iff_low_protection (org : string) (now : datetime)
  (injuries : list InjuryRecord) (training : list TrainingLoad)
  (recovery : list RecoveryMetric) :
  recovery <> [] ->
  exists snap,
    calculate org now injuries training recovery = Ok snap
    /\ ((exists fl, In fl (systemic_flags snap) /\ id fl = "SYS-DISCLOSURE")
        <-> value (f_team_protection snap) < 0.8).
Proof.
  intros Hne.
  destruct (calculate_inv org now injuries training recovery)
    as (snap & Hs & _ & _ & _ & H4 & _ & Hfl & _).
  exists snap. split; [exact Hs |].
  destruct (team_protection_returns recovery) as (r4 & E4 & Hval & _).
  rewrite H4 in E4. injection E4 as <-. rewrite (Hval Hne).
  rewrite detect_systemic_flags_returns in Hfl. injection Hfl as <-.
  destruct recovery as [| r recovery]; [congruence |].
  destruct (Rltb 2.0 (mean_gap (r :: recovery))) eqn:E.
  - apply Rltb_lt in E. split; [intros _; lra | intros _].
    exists (disclosure_flag now (r :: recovery)). split; [| reflexivity].
    apply in_or_app. right. left. reflexivity.
  - apply Rltb_ge in E. split; [| intros H; lra].
    intros (fl & Hin & Hid). rewrite app_nil_r in Hin.
    apply in_flat_map in Hin as ([k l] & _ & Hin).
    apply group_flags_spec in Hin as (-> & _).
    exfalso. exact (soft_flag_id_not_disclosure now k _ Hid).
Qed.

Lemma disclosure_flag_iff_low_protection_masked :
  exists snap,
    calculate "lions" season_start secondary_injuries [] [masked_recovery] = Ok snap
    /\ ((exists fl, In fl (systemic_flags snap) /\ id fl = "SYS-DISCLOSURE")
        <-> value (f_team_protection snap) < 0.8).
Proof. apply disclosure_flag_iff_low_protection. discriminate. Defined.

End AthleticMore.

Section ConfidenceAndGroups.
Import Athletic.

Lemma Rmin_ratio_mono (a b c : R) :
  0 < c -> a <= b -> Rmin (a / c) 1.0 <= Rmin (b / c) 1.0.
Proof.
  intros Hc Hab.
  assert (a / c <= b / c).
  { unfold Rdiv. apply Rmult_le_compat_r; [| exact Hab].
    left. apply Rinv_0_lt_compat, Hc. }
  unfold Rmin. destruct (Rle_dec (a / c) 1.0); destruct (Rle_dec (b / c) 1.0); lra.
Qed.

Lemma sample_confidence (A : Type) (l : list A) (c : R) :
  0 < c ->
  0 <= Rmin (len l / c) 1.0 <= 1
  /\ (Rmin (len l / c) 1.0 = 0 <-> l = []).
Proof.
  intros Hc. pose proof (len_nonneg l) as Hl.
  assert (Hi : 0 < / c) by (apply Rinv_0_lt_compat, Hc).
  assert (H0 : 0 <= len l / c) by (unfold Rdiv; apply Rmult_le_pos; lra).
  split.
  - unfold Rmin. destruct (Rle_dec (len l / c) 1.0); lra.
  - split.
    + intros H. destruct l as [| x l]; [reflexivity | exfalso].
      pose proof (len_pos (x :: l) ltac:(discriminate)) as Hp.
      assert (0 < len (x :: l) / c) by (unfold Rdiv; apply Rmult_lt_0_compat; lra).
      unfold Rmin in H. destruct (Rle_dec (len (x :: l) / c) 1.0); lra.
    + intros ->. unfold len. cbn. unfold Rmin.
      destruct (Rle_dec (0 / c) 1.0); lra.
Qed.

Lemma load_coherence_confidence (training : list TrainingLoad) :
  exists r,
    _calculate_load_coherence training = Ok r
    /\ confidence r = Rmin (len training / 100) 1.0.
Proof.
  destruct (load_coherence_returns training) as (r & Hr & _ & Hnil).
  exists r. split; [exact Hr |].
  destruct training as [| t training].
  - rewrite (Hnil eq_refl). cbn. unfold len. cbn. unfold Rmin.
    destruct (Rle_dec _ _); lra.
  - unfold _calculate_load_coherence in Hr.
    destruct (if (_ <? 2)%nat then _ else _) as [v | e]; cbn [bind] in Hr;
      [| discriminate].
    injection Hr as <-. reflexivity.
Qed.

Lemma team_protection_confidence (recovery : list RecoveryMetric) :
  exists r,
    _calculate_team_protection recovery = Ok r
    /\ confidence r = Rmin (len recovery / 100) 1.0.
Proof.
  destruct (team_protection_returns recovery) as (r & Hr & _ & _ & Hnil).
  exists r. split; [exact Hr |].
  destruct recovery as [| m recovery].
  - rewrite (Hnil eq_refl). cbn. unfold len. cbn. unfold Rmin.
    destruct (Rle_dec _ _); lra.
  - unfold _calculate_team_protection in Hr.
    destruct (pdiv _ _) as [v | e]; cbn [bind] in Hr; [| discriminate].
    injection Hr as <-. reflexivity.
Qed.

(** X22: the confidence of the load coherence and team protection readings
    lies in [0, 1], is 0 exactly when there is no record, and never
    decreases when records are added. *)
Theorem confidence_grows_with_records (training more_training : list TrainingLoad)
  (recovery more_recovery : list RecoveryMetric) :
  exists psi psi' f f',
    _calculate_load_coherence training = Ok psi
    /\ _calculate_load_coherence (training ++ more_training) = Ok psi'
    /\ _calculate_team_protection recovery = Ok f
    /\ _calculate_team_protection (recovery ++ more_recovery) = Ok f'
    /\ 0 <= confidence psi <= 1 /\ 0 <= confidence f <= 1
    /\ confidence psi <= confidence psi' /\ confidence f <= confidence f'
    /\ (confidence psi = 0 <-> training = [])
    /\ (confidence f = 0 <-> recovery = []).
Proof.
  destruct (load_coherence_confidence training) as (r1 & H1 & C1).
  destruct (load_coherence_confidence (training ++ more_training))
    as (r1' & H1' & C1').
  destruct (team_protection_confidence recovery) as (r2 & H2 & C2).
  destruct (team_protection_confidence (recovery ++ more_recovery))
    as (r2' & H2' & C2').
  exists r1, r1', r2, r2'.
  rewrite C1, C1', C2, C2', !len_app.
  pose proof (sample_confidence _ training 100 ltac:(lra)) as [B1 Z1].
  pose proof (sample_confidence _ recovery 100 ltac:(lra)) as [B2 Z2].
  pose proof (len_nonneg more_training). pose proof (len_nonneg more_recovery).
  repeat split; try assumption; try apply B1; try apply B2;
    try apply Z1; try apply Z2; apply Rmin_ratio_mono; lra.
Qed.

Lemma length_list_set_le (l : list string) :
  (List.length (list_set l) <= List.length l)%nat.
Proof.
  unfold list_set. induction l as [| x l IH]; cbn [nodup List.length]; [lia |].
  destruct (in_dec string_dec x l); cbn [List.length]; lia.
Qed.

(** X23: every flag [_detect_systemic_flags] returns is either the
    disclosure flag or the soft-tissue flag of a position group that occurs
    in the injury list, with id SYS-SOFT- followed by the group in upper
    case, at least 3 data points and no more affected players than data
    points. *)
Theorem systemic_flags_shape (now : datetime) (injuries : list InjuryRecord)
  (training : list TrainingLoad) (recovery : list RecoveryMetric) :
  exists fls,
    _detect_systemic_flags now injuries training recovery = Ok fls
    /\ forall fl, In fl fls ->
         fl = disclosure_flag now recovery
         \/ exists g,
              In g (map position_group injuries)
              /\ positional_flag_for g fl
              /\ id fl = String.append "SYS-SOFT-" (upper g)
              /\ severity fl = ELEVATED
              /\ (3 <= data_points fl)%nat
              /\ (affected_players_count fl <= data_points fl)%nat.
Proof.
  eexists. split; [apply detect_systemic_flags_returns |].
  destruct (group_by_position_groups injuries) as [_ Hgroups].
  intros fl Hin. apply in_app_or in Hin as [Hin | Hin].
  - right. apply in_flat_map in Hin as ([k l] & Hkl & Hfl).
    apply group_flags_spec in Hfl as (-> & H3 & _).
    apply Hgroups in Hkl as [-> Hne].
    exists k. split.
    + destruct (injuries_of_group k injuries) as [| i l] eqn:E; [congruence |].
      assert (Hi : In i (injuries_of_group k injuries))
        by (rewrite E; left; reflexivity).
      apply filter_In in Hi as [Hi Hk]. apply String.eqb_eq in Hk.
      rewrite <- Hk. apply in_map, Hi.
    + cbn. repeat split; try assumption.
      rewrite <- (length_map player_id). apply length_list_set_le.
  - left. destruct recovery as [| r recovery]; [destruct Hin |].
    destruct (Rltb 2.0 _); [| destruct Hin].
    destruct Hin as [<- | []]. reflexivity.
Qed.

(** X24: when the systemic-flag detection emits the positional soft-tissue
    flag for a group, the dashboard's analysis of that group over the same
    injury records reports "High soft tissue injury rate", with a
    soft-tissue rate above 0.5 and at most 1. *)
Theorem positional_flag_shows_in_group_analysis (d : OrganizationDashboard)
  (now : datetime) (g : string) (fls : list SystemicFlag) (fl : SystemicFlag) :
  _detect_systemic_flags now (injury_records d) (training_data d) (recovery_data d)
  = Ok fls ->
  In fl fls ->
  positional_flag_for g fl ->
  exists a,
    get_position_group_analysis d g = Ok a
    /\ In "High soft tissue injury rate" (pga_flags a)
    /\ 0.5 < soft_tissue_rate a <= 1.
Proof.
  intros Hfls Hin [Hpat Haff].
  rewrite detect_systemic_flags_returns in Hfls. injection Hfls as <-.
  destruct (group_by_position_groups (injury_records d)) as [_ Hgroups].
  apply in_app_or in Hin as [Hin | Hin].
  2:{ exfalso. destruct (recovery_data d) as [| r rec]; [destruct Hin |].
      destruct (Rltb 2.0 _); [| destruct Hin].
      destruct Hin as [<- | []]. discriminate. }
  apply in_flat_map in Hin as ([k l] & Hkl & Hfl).
  apply group_flags_spec in Hfl as (-> & H3 & Hr).
  cbn [soft_tissue_flag affected_positions] in Haff. injection Haff as ->.
  apply Hgroups in Hkl as [-> Hne].
  unfold get_position_group_analysis. unfold injuries_of_group in *.
  set (gi := filter (fun i => String.eqb (position_group i) g) (injury_records d))
    in *.
  destruct gi as [| i0 gi'] eqn:E; [congruence |].
  rewrite <- E in *. clear E.
  assert (Hpos : (0 < List.length gi)%nat).
  { destruct gi; [congruence | cbn; lia]. }
  assert ((0 <? List.length gi)%nat = true) as -> by (apply Nat.ltb_lt, Hpos).
  assert (Hn : INR (List.length gi) <> 0) by (apply not_0_INR; lia).
  rewrite !(pdiv_ok _ _ Hn). cbn [bind].
  unfold len in Hr.
  assert (Rltb 0.5 (INR (List.length (filter is_soft_tissue gi))
                    / INR (List.length gi)) = true) as ->
    by (apply Rltb_lt, Hr).
  eexists. split; [reflexivity |]. cbn [pga_flags soft_tissue_rate].
  split; [left; reflexivity |]. split; [exact Hr |].
  apply (filter_ratio_unit is_soft_tissue gi (List.length gi) (le_n _) Hpos).
Qed.

Lemma positional_flag_shows_in_group_analysis_secondary :
  exists a,
    get_position_group_analysis secondary_dashboard "secondary" = Ok a
    /\ In "High soft tissue injury rate" (pga_flags a)
    /\ 0.5 < soft_tissue_rate a <= 1.
Proof.
  eapply (positional_flag_shows_in_group_analysis secondary_dashboard season_start
            "secondary" _
            (soft_tissue_flag season_start "secondary"
               (filter is_soft_tissue secondary_injuries))).
  - apply detect_systemic_flags_returns.
  - apply in_or_app. left. apply in_flat_map.
    exists ("secondary", secondary_injuries). split; [left; reflexivity |].
    apply group_flags_spec. split; [reflexivity |]. split.
    + cbn. lia.
    + unfold len. cbn. lra.
  - split; reflexivity.
Defined.

End ConfidenceAndGroups.

(** ** Grouping by a key *)

Section GroupByFacts.
Context {A : Type}.
Variable key : A -> string.

Lemma dict_append_set (d : dict (list A)) (k : string) (x : A) :
  dict_append d k x
  = dict_set d k (match dict_get d k with Some l => l ++ [x] | None => [x] end).
Proof.
  unfold dict_append, dict_get_default.
  destruct (dict_get d k) as [l |] eqn:E.
  - rewrite E. reflexivity.
  - rewrite dict_get_set_same, dict_set_set_same. reflexivity.
Qed.

Lemma under_key_snoc (k : string) (l : list A) (x : A) :
  under_key key k (l ++ [x])
  = under_key key k l ++ (if String.eqb (key x) k then [x] else []).
Proof.
  unfold under_key. rewrite filter_app. cbn [filter].
  destruct (String.eqb (key x) k); reflexivity.
Qed.

(** [d] holds, for each key that occurs in [l], the elements under it. *)
Lemma group_by_step (d : dict (list A)) (l : list A) (x : A) :
  (NoDup (keys d)
   /\ forall k v, In (k, v) d <-> (v = under_key key k l /\ v <> [])) ->
  NoDup (keys (dict_append d (key x) x))
  /\ forall k v, In (k, v) (dict_append d (key x) x)
                 <-> (v = under_key key k (l ++ [x]) /\ v <> []).
Proof.
  intros [Hnd Hin]. rewrite dict_append_set. split.
  - apply NoDup_keys_dict_set, Hnd.
  - intros k v. rewrite (in_dict_set _ _ _ _ _ Hnd), under_key_snoc.
    set (kx := key x).
    assert (Hcur :
      match dict_get d kx with Some l0 => l0 ++ [x] | None => [x] end
      = under_key key kx l ++ [x]).
    { destruct (dict_get d kx) as [l0 |] eqn:E.
      - apply (dict_get_in _ _ _ Hnd) in E. apply Hin in E as [-> _]. reflexivity.
      - destruct (under_key key kx l) as [| y l0] eqn:El; [reflexivity |].
        exfalso. apply dict_get_none in E. apply E.
        assert (Hmem : In (kx, y :: l0) d)
          by (apply Hin; split; [auto | discriminate]).
        apply (in_map fst) in Hmem. exact Hmem. }
    rewrite Hcur. split.
    + intros [[-> ->] | [Hne H]].
      * rewrite String.eqb_refl. split; [reflexivity |].
        intros Habs. apply app_eq_nil in Habs as [_ Habs]. discriminate.
      * apply Hin in H as [-> Hl].
        assert (String.eqb kx k = false) as ->
          by (apply String.eqb_neq; congruence).
        rewrite app_nil_r. split; [reflexivity | exact Hl].
    + intros [-> Hl]. destruct (String.eqb kx k) eqn:E.
      * apply String.eqb_eq in E. left. split; [congruence |]. rewrite E.
        reflexivity.
      * apply String.eqb_neq in E. right. split; [congruence |].
        rewrite app_nil_r in *. apply Hin. split; [reflexivity | exact Hl].
Qed.

Lemma group_by_from (l : list A) :
  forall d pre,
    (NoDup (keys d)
     /\ forall k v, In (k, v) d <-> (v = under_key key k pre /\ v <> [])) ->
    NoDup (keys (fold_left (fun d x => dict_append d (key x) x) l d))
    /\ forall k v,
         In (k, v) (fold_left (fun d x => dict_append d (key x) x) l d)
         <-> (v = under_key key k (pre ++ l) /\ v <> []).
Proof.
  induction l as [| x l IH]; intros d pre H; cbn [fold_left].
  - rewrite app_nil_r. exact H.
  - replace (pre ++ x :: l) with ((pre ++ [x]) ++ l)
      by (rewrite <- app_assoc; reflexivity).
    apply IH, group_by_step, H.
Qed.

Lemma group_by_groups (l : list A) :
  NoDup (keys (group_by key l))
  /\ forall k v, In (k, v) (group_by key l)
                 <-> (v = under_key key k l /\ v <> []).
Proof.
  unfold group_by. apply (group_by_from l [] []). split.
  - constructor.
  - intros k v. cbn. split; [tauto | intros [-> H]; apply H; reflexivity].
Qed.

Lemma sizes_dict_set (d : dict (list A)) (k : string) (v : list A) :
  list_sum (map (fun e => List.length e) (values (dict_set d k v)))
  = (list_sum (map (fun e => List.length e) (values d)) + List.length v
     - match dict_get d k with Some l => List.length l | None => 0 end)%nat.
Proof.
  unfold values. induction d as [| [k0 v0] d IH]; simpl.
  - lia.
  - destruct (String.eqb k0 k); simpl.
    + lia.
    + rewrite IH.
      destruct (dict_get d k) as [l0 |] eqn:E; [| lia].
      assert (List.length l0
              <= list_sum (map (fun e => List.length e) (map snd d)))%nat.
      { clear IH. induction d as [| [k1 v1] d IHd]; [discriminate |].
        simpl in E. simpl.
        destruct (String.eqb k1 k); [injection E as <-; lia |].
        specialize (IHd E). lia. }
      lia.
Qed.

(** The groups partition the list. *)
Lemma group_by_sizes (l : list A) :
  list_sum (map (fun e => List.length e) (values (group_by key l)))
  = List.length l.
Proof.
  unfold group_by.
  assert (H : forall d,
    list_sum (map (fun e => List.length e)
                (values (fold_left (fun d x => dict_append d (key x) x) l d)))
    = (list_sum (map (fun e => List.length e) (values d)) + List.length l)%nat).
  { induction l as [| x l IH]; intros d; cbn [fold_left List.length]; [lia |].
    rewrite IH, dict_append_set, sizes_dict_set.
    destruct (dict_get d (key x)) as [l0 |] eqn:E.
    - rewrite length_app. simpl.
      assert (List.length l0
              <= list_sum (map (fun e => List.length e) (values d)))%nat.
      { clear IH. unfold values. induction d as [| [k1 v1] d IHd];
          [discriminate |].
        simpl in E. simpl.
        destruct (String.eqb k1 (key x)); [injection E as <-; lia |].
        specialize (IHd E). lia. }
      lia.
    - simpl. lia. }
  rewrite H. simpl. lia.
Qed.

End GroupByFacts.

(** ** Injury patterns *)

Section InjuryPatternFacts.
Import InjuryPatterns.

Lemma cluster_entry_spec (entry : string * list Injury) (p : InjuryPattern) :
  In p (if (3 <=? List.length (snd entry))%nat
        then [soft_pattern (fst entry) (snd entry)] else [])
  <-> p = soft_pattern (fst entry) (snd entry)
      /\ (3 <= List.length (snd entry))%nat.
Proof.
  destruct (3 <=? List.length (snd entry))%nat eqn:E; cbn [In].
  - apply Nat.leb_le in E. intuition.
  - apply Nat.leb_gt in E. split; [tauto | intros [_ H]; lia].
Qed.

(** X25: [_detect_patterns] reports a soft-tissue cluster for a position
    exactly when the injury list holds at least 5 soft-tissue injuries in
    all and at least 3 of them in that position, whatever their share of
    the position's injuries; the cluster counts the position's soft-tissue
    injuries and is systemic exactly from 5 on. *)
Theorem soft_cluster_iff (injuries : list Injury) (pos : string) :
  ((exists p, In p (_detect_patterns injuries) /\ soft_cluster_for pos p)
   <-> (5 <= List.length (filter is_soft_tissue injuries))%nat
       /\ (3 <= List.length (soft_in pos injuries))%nat)
  /\ (forall p, In p (_detect_patterns injuries) /\ soft_cluster_for pos p ->
        occurrence_count p = List.length (soft_in pos injuries)
        /\ is_systemic p = (5 <=? List.length (soft_in pos injuries))%nat).
Proof.
  unfold _detect_patterns.
  set (soft := filter is_soft_tissue injuries).
  destruct (group_by_groups position_of soft) as [_ Hgroups].
  set (rep := if (2 <=? _)%nat then _ else _).
  assert (Hrep : forall p, In p rep -> injury_type p = "all").
  { intros p Hp. unfold rep in Hp.
    destruct (2 <=? _)%nat; [| destruct Hp].
    destruct (forallb _ _); [| destruct Hp].
    destruct Hp as [<- | []]. reflexivity. }
  assert (Hcl : forall p,
    In p (if (5 <=? List.length soft)%nat
          then flat_map
                 (fun entry =>
                    if (3 <=? List.length (snd entry))%nat
                    then [soft_pattern (fst entry) (snd entry)] else [])
                 (group_by position_of soft)
          else []) /\ soft_cluster_for pos p
    <-> p = soft_pattern pos (soft_in pos injuries)
        /\ (5 <= List.length soft)%nat
        /\ (3 <= List.length (soft_in pos injuries))%nat).
  { intros p. unfold soft_in. fold soft.
    destruct (5 <=? List.length soft)%nat eqn:E5.
    - apply Nat.leb_le in E5. rewrite in_flat_map. split.
      + intros [([k v] & Hkv & Hp) [_ Haff]].
        apply cluster_entry_spec in Hp as [-> H3]. cbn [fst snd] in *.
        cbn [soft_pattern affected_positions] in Haff. injection Haff as ->.
        apply Hgroups in Hkv as [-> _]. repeat split; assumption.
      + intros (-> & _ & H3). split; [| split; reflexivity].
        exists (pos, under_key position_of pos soft). split.
        * apply Hgroups. split; [reflexivity |].
          intros Hnil. rewrite Hnil in H3. cbn in H3. lia.
        * apply cluster_entry_spec. split; [reflexivity | exact H3].
    - apply Nat.leb_gt in E5. split; [intros [[] _] | intros (_ & H & _); lia]. }
  split.
  - split.
    + intros (p & Hin & Hsoft). apply in_app_or in Hin as [Hin | Hin].
      * destruct (proj1 (Hcl p) (conj Hin Hsoft)) as (_ & H5 & H3).
        split; assumption.
      * destruct Hsoft as [Hty _]. rewrite (Hrep p Hin) in Hty. discriminate.
    + intros [H5 H3]. exists (soft_pattern pos (soft_in pos injuries)).
      destruct (proj2 (Hcl (soft_pattern pos (soft_in pos injuries)))
                  (conj eq_refl (conj H5 H3))) as [Hin Hs].
      split; [apply in_or_app; left; exact Hin | exact Hs].
  - intros p [Hin Hsoft]. apply in_app_or in Hin as [Hin | Hin].
    + destruct (proj1 (Hcl p) (conj Hin Hsoft)) as (-> & _).
      split; reflexivity.
    + destruct Hsoft as [Hty _]. rewrite (Hrep p Hin) in Hty. discriminate.
Qed.

Lemma soft_cluster_receivers :
  exists p,
    In p (_detect_patterns receiver_injuries)
    /\ soft_cluster_for "receivers" p
    /\ occurrence_count p = 5%nat /\ is_systemic p = true.
Proof.
  destruct (soft_cluster_iff receiver_injuries "receivers") as [[_ Hex] Hval].
  destruct Hex as (p & Hin & Hs); [split; cbn; lia |].
  exists p. split; [exact Hin |]. split; [exact Hs |].
  apply (Hval p (conj Hin Hs)).
Defined.

Lemma soft_pattern_id_not_repeat (pos : string) (l : list Injury) :
  pattern_id (soft_pattern pos l) <> "REPEAT-MULTI".
Proof. cbn. discriminate. Qed.

Lemma sum_above_ten (counts : list nat) :
  forallb (fun c => (10 <? c)%nat) counts = true ->
  (11 * List.length counts <= list_sum counts)%nat.
Proof.
  induction counts as [| c counts IH]; cbn [forallb List.length list_sum].
  - lia.
  - intros H. apply andb_prop in H as [Hc Hrest]. apply Nat.ltb_lt in Hc.
    specialize (IH Hrest). simpl. lia.
Qed.

(** X26: the pattern REPEAT-MULTI is reported only for at least 22 injury
    records; its occurrence count is the number of all injury records, and
    it is systemic. *)
Theorem repeat_pattern_needs_22_injuries (injuries : list Injury)
  (p : InjuryPattern) :
  In p (_detect_patterns injuries) ->
  pattern_id p = "REPEAT-MULTI" ->
  occurrence_count p = List.length injuries
  /\ (22 <= List.length injuries)%nat
  /\ is_systemic p = true.
Proof.
  unfold _detect_patterns. intros Hin Hid.
  apply in_app_or in Hin as [Hin | Hin].
  - exfalso. destruct (5 <=? _)%nat; [| destruct Hin].
    apply in_flat_map in Hin as ([k v] & _ & Hp).
    apply cluster_entry_spec in Hp as [-> _].
    exact (soft_pattern_id_not_repeat _ _ Hid).
  - destruct (2 <=? List.length (group_by season_of injuries))%nat eqn:E2;
      [| destruct Hin].
    destruct (forallb _ _) eqn:Eall; [| destruct Hin].
    destruct Hin as [<- | []].
    apply Nat.leb_le in E2. apply sum_above_ten in Eall.
    rewrite length_map in Eall. unfold values in Eall. rewrite length_map in Eall.
    pose proof (group_by_sizes season_of injuries) as Hsz.
    unfold values in Hsz.
    cbn [repeat_pattern occurrence_count is_systemic]. unfold values.
    repeat split; lia.
Qed.

Lemma two_heavy_seasons_soft : filter is_soft_tissue two_heavy_seasons = [].
Proof. vm_compute. reflexivity. Qed.

Lemma two_heavy_seasons_counts :
  map (fun v : list Injury => List.length v)
    (values (group_by season_of two_heavy_seasons)) = [11; 11]%nat.
Proof. vm_compute. reflexivity. Qed.

Lemma two_heavy_seasons_patterns :
  _detect_patterns two_heavy_seasons
  = [repeat_pattern (group_by season_of two_heavy_seasons)].
Proof.
  unfold _detect_patterns.
  rewrite two_heavy_seasons_soft, two_heavy_seasons_counts.
  assert (List.length (group_by season_of two_heavy_seasons) = 2%nat) as ->.
  { rewrite <- (length_map snd).
    fold (values (group_by season_of two_heavy_seasons)).
    rewrite <- (length_map (fun v : list Injury => List.length v)).
    rewrite two_heavy_seasons_counts. reflexivity. }
  reflexivity.
Qed.

Lemma repeat_pattern_needs_22_injuries_two_seasons :
  In (repeat_pattern (group_by season_of two_heavy_seasons))
    (_detect_patterns two_heavy_seasons)
  /\ occurrence_count (repeat_pattern (group_by season_of two_heavy_seasons))
     = List.length two_heavy_seasons
  /\ (22 <= List.length two_heavy_seasons)%nat
  /\ is_systemic (repeat_pattern (group_by season_of two_heavy_seasons)) = true.
Proof.
  assert (Hin : In (repeat_pattern (group_by season_of two_heavy_seasons))
                  (_detect_patterns two_heavy_seasons))
    by (rewrite two_heavy_seasons_patterns; left; reflexivity).
  split; [exact Hin |].
  apply (repeat_pattern_needs_22_injuries two_heavy_seasons _ Hin). reflexivity.
Defined.

End InjuryPatternFacts.

Section DeviationInvariantsWitness.
Import Lenses.



End DeviationInvariantsWitness.

Section DimensionsOnScale.
Import Athletic.

Lemma optimize_q_unit (p : Lenses.LensParameters) (q_raw : R) :
  0 <= Lenses.km p -> 0 < Lenses.ki p ->
  exists q_opt, Lenses._optimize_q p q_raw = Ok q_opt /\ unit_interval q_opt.
Proof.
  intros Hkm Hki.
  rewrite (optimize_q_returns p q_raw (curve_defined_positive p q_raw Hkm Hki)).
  eexists. split; [reflexivity |].
  apply q_opt_spec_unit; assumption.
Qed.

(** X27: every dimension value of the text-mode regex extractor lies in
    [0, 1] for every text, and the history integration reading does for
    every list of injuries; on records within their documented scales
    (load scores and readiness within 0-10, intensities within 0-1) so do
    the load coherence, strain, team protection and recovery depth
    readings; and the q_opt of the lens optimization step does for q up to
    1 when km >= 0 and ki > 0.  (The scales keep the sums and squares
    within the floats' range.) *)
Theorem dimensions_in_unit_interval (text : string)
  (p : Lenses.LensParameters) (q_raw : R)
  (training : list TrainingLoad) (injuries : list InjuryRecord)
  (recovery : list RecoveryMetric) :
  (exists r,
     Analyzers._extract_pattern_regex text = Ok r
     /\ unit_interval (Analyzers.psi r) /\ unit_interval (Analyzers.rho r)
     /\ unit_interval (Analyzers.q r) /\ unit_interval (Analyzers.f r)
     /\ unit_interval (Analyzers.tau r))
  /\ (0 <= Lenses.km p -> 0 < Lenses.ki p -> q_raw <= 1 ->
      exists q_opt, Lenses._optimize_q p q_raw = Ok q_opt /\ unit_interval q_opt)
  /\ (Forall load_in_scale training ->
      exists r, _calculate_load_coherence training = Ok r
                /\ unit_interval (value r))
  /\ (exists r, _calculate_history_integration injuries = Ok r
                /\ unit_interval (value r))
  /\ (Forall intensity_in_scale training ->
      exists r, _calculate_strain_accumulation training injuries = Ok r
                /\ unit_interval (value r))
  /\ (Forall readiness_in_scale recovery ->
      (exists r, _calculate_team_protection recovery = Ok r
                 /\ unit_interval (value r))
      /\ (exists r, _calculate_recovery_depth recovery = Ok r
                    /\ unit_interval (value r))).
Proof.
  split; [| split; [| split; [| split; [| split]]]].
  - destruct (extract_pattern_regex_returns text)
      as (r & Hr & Hpsi & _ & _ & Hq & Hrho & Htau & Hf).
    exists r. unfold unit_interval. rewrite Hpsi.
    repeat split; try assumption; lra.
  - intros Hkm Hki _. apply optimize_q_unit; assumption.
  - intros _. destruct (load_coherence_returns training) as (r & Hr & Hu & _).
    exists r. split; assumption.
  - destruct (history_integration_returns injuries) as (r & Hr & Hu & _).
    exists r. split; assumption.
  - intros Htr.
    destruct (strain_accumulation_returns training injuries)
      as (r & Hr & _ & Hu & _).
    exists r. split; [exact Hr | apply Hu, Htr].
  - intros Hrec. split.
    + destruct (team_protection_returns recovery) as (r & Hr & _ & Hu & _).
      exists r. split; [exact Hr | apply Hu, Hrec].
    + destruct (recovery_depth_returns recovery) as (r & Hr & _ & Hu & _).
      exists r. split; [exact Hr | apply Hu, Hrec].
Qed.

Lemma dimensions_in_unit_interval_season :
  (exists q_opt,
     Lenses._optimize_q (Lenses.params Lenses.combat_veteran) 0.35 = Ok q_opt
     /\ unit_interval q_opt)
  /\ (exists r, _calculate_load_coherence [regular_session] = Ok r
                /\ unit_interval (value r))
  /\ (exists r,
        _calculate_strain_accumulation [regular_session] secondary_injuries = Ok r
        /\ unit_interval (value r))
  /\ (exists r, _calculate_team_protection [masked_recovery] = Ok r
                /\ unit_interval (value r))
  /\ (exists r, _calculate_recovery_depth [masked_recovery] = Ok r
                /\ unit_interval (value r)).
Proof.
  destruct (dimensions_in_unit_interval cisd_text
              (Lenses.params Lenses.combat_veteran) 0.35
              [regular_session] secondary_injuries [masked_recovery])
    as (_ & Hq & Hpsi & _ & Hstrain & Hrec).
  assert (Htr : Forall intensity_in_scale [regular_session]).
  { repeat constructor; unfold regular_session; cbn; lra. }
  assert (Hld : Forall load_in_scale [regular_session]).
  { repeat constructor; unfold regular_session; cbn; lra. }
  assert (Hrm : Forall readiness_in_scale [masked_recovery]).
  { repeat constructor; unfold masked_recovery; cbn; lra. }
  split; [| split; [| split; [| split]]].
  - apply Hq; [| | lra]; unfold Lenses.combat_veteran, Lenses.mk_lens; cbn; lra.
  - apply Hpsi, Hld.
  - apply Hstrain, Htr.
  - apply (proj1 (Hrec Hrm)).
  - apply (proj2 (Hrec Hrm)).
Defined.

End DimensionsOnScale.
